(** * GoTalk real-time hub: a shallow embedding and its properties

    The development follows the Go sources of the WebSocket subsystem and
    of the code it calls:
    - [internal/ws/hub.go]     : the connection registry and the Redis bridge,
    - [internal/ws/client.go]  : the per-connection read and write pumps,
    - [internal/handler/ws_handler.go] : the event dispatcher,
    - [internal/handler/chat_handler.go] : the HTTP send path,
    - [internal/service/chat_service.go] and
      [internal/repository/message_repo.go] : the chat service,
    - [internal/model] : the event envelope and the message.

    Go values are modelled as follows.  A [*Client] is an address
    ([positive]); the hub's [map[uuid.UUID]map[*Client]bool] is a
    [gmap UUID (gset ptr)]; a buffered channel is its buffer plus a closed
    flag; JSON text is represented by its parse tree; a Go panic is the
    [Panic] outcome of the [result] type; the database is an abstract
    state that the statements of the repositories transform. *)

From Stdlib Require Import ZArith NArith Ascii String List Lia DecimalString.
From stdpp Require Import base option list gmap sets strings.

Set Warnings "-register-all,-clear-no-such-hyp".
Local Open Scope string_scope.

(* ===================================================================== *)
(** * encoding/json, as far as the hub uses it *)
(* ===================================================================== *)

Module Json.

(** The parse tree of a JSON text.  Number literals are kept as text. *)
Inductive json : Type :=
| JNull
| JBool (b : bool)
| JNum (lit : string)
| JStr (s : string)
| JArr (xs : list json)
| JObj (fields : list (string * json)).

(** Bytes read from a socket or from the bus: either they are not a JSON
    text at all, or they parse to a tree. *)
Inductive wire : Type :=
| Malformed
| Text (j : json).

(** Struct fields are matched to object keys without regard to ASCII case
    (the decoder also takes the long s and the Kelvin sign for s and k;
    keys are byte strings here and those two letters are left out). *)
Definition lower (c : ascii) : ascii :=
  let n := nat_of_ascii c in
  if (65 <=? n)%nat && (n <=? 90)%nat then ascii_of_nat (n + 32) else c.

Fixpoint foldName (s : string) : string :=
  match s with
  | EmptyString => EmptyString
  | String c r => String (lower c) (foldName r)
  end.

Definition field_match (name key : string) : bool :=
  String.eqb (foldName name) (foldName key).

(** [interface{}] holds a decoded object as a Go map: one entry per key
    (the last occurrence wins) and, when marshalled again, keys in byte
    order. *)
Fixpoint map_store (k : string) (v : json) (m : list (string * json))
  : list (string * json) :=
  match m with
  | [] => [(k, v)]
  | (k', v') :: r =>
      match String.compare k k' with
      | Eq => (k, v) :: r
      | Lt => (k, v) :: (k', v') :: r
      | Gt => (k', v') :: map_store k v r
      end
  end.

Fixpoint to_interface (j : json) : json :=
  match j with
  | JArr xs => JArr (List.map to_interface xs)
  | JObj fs =>
      JObj (fold_left (fun m kv => map_store (fst kv) (snd kv) m)
              (List.map (fun kv => (fst kv, to_interface (snd kv))) fs) [])
  | _ => j
  end.

(** A number held in an [interface{}] is a float64: the decoder refuses
    a literal outside its range, and the encoder writes the number back
    in its own format (1.50 comes back as 1.5).  [to_interface] keeps the
    literal instead.  The two agree on the integers a float64 holds
    exactly and the encoder writes digit for digit: at most 15 digits, no
    leading zero, fraction or exponent. *)
Definition isDigit (c : ascii) : bool :=
  let n := nat_of_ascii c in (48 <=? n)%nat && (n <=? 57)%nat.

Definition plainInteger (lit : string) : bool :=
  let cs := list_ascii_of_string lit in
  let ds := match cs with
            | "-"%char :: r => r
            | _ => cs
            end in
  match ds with
  | [] => false
  | d :: r =>
      forallb isDigit ds && (List.length ds <=? 15)%nat
      && (negb (Ascii.eqb d "0"%char) || (List.length r =? 0)%nat)
  end.

(** A Go string that is not UTF-8 is not written as it is either: the
    encoder replaces each offending byte by U+FFFD.  Well-formed UTF-8,
    byte by byte. *)
Definition inRange (lo hi : N) (c : ascii) : bool :=
  let n := N_of_ascii c in (lo <=? n)%N && (n <=? hi)%N.

Definition lead3 (c c2 : ascii) : bool :=
  inRange 224 224 c && inRange 160 191 c2
  || inRange 225 236 c && inRange 128 191 c2
  || inRange 237 237 c && inRange 128 159 c2
  || inRange 238 239 c && inRange 128 191 c2.

Definition lead4 (c c2 : ascii) : bool :=
  inRange 240 240 c && inRange 144 191 c2
  || inRange 241 243 c && inRange 128 191 c2
  || inRange 244 244 c && inRange 128 143 c2.

Fixpoint validUTF8 (cs : list ascii) : bool :=
  match cs with
  | [] => true
  | c :: r =>
      if inRange 0 127 c then validUTF8 r
      else
        match r with
        | [] => false
        | c2 :: r2 =>
            if inRange 194 223 c && inRange 128 191 c2 then validUTF8 r2
            else
              match r2 with
              | [] => false
              | c3 :: r3 =>
                  if lead3 c c2 && inRange 128 191 c3 then validUTF8 r3
                  else
                    match r3 with
                    | [] => false
                    | c4 :: r4 =>
                        lead4 c c2 && inRange 128 191 c3 && inRange 128 191 c4
                        && validUTF8 r4
                    end
              end
        end
  end.

Definition utf8 (s : string) : bool := validUTF8 (list_ascii_of_string s).

(** The values that come back from the encoder and the decoder as they
    went in (up to the order and the repetition of keys, which
    [to_interface] accounts for). *)
Fixpoint plain (j : json) : bool :=
  match j with
  | JNull | JBool _ => true
  | JNum lit => plainInteger lit
  | JStr s => utf8 s
  | JArr xs => forallb plain xs
  | JObj fs => forallb (fun kv => utf8 (fst kv) && plain (snd kv)) fs
  end.

(** Decoding an object into a struct: every key in turn is offered to the
    struct; a value of the wrong kind for its field makes Unmarshal fail.
    The literal [null] leaves the struct as it is; any other non-object is
    an error. *)
Fixpoint decode_fields {S : Type} (set_field : string -> json -> S -> option S)
  (fs : list (string * json)) (s : S) : option S :=
  match fs with
  | [] => Some s
  | (k, v) :: r =>
      match set_field k v s with
      | Some s' => decode_fields set_field r s'
      | None => None
      end
  end.

Definition decode_struct {S : Type} (set_field : string -> json -> S -> option S)
  (j : json) (zero : S) : option S :=
  match j with
  | JNull => Some zero
  | JObj fs => decode_fields set_field fs zero
  | _ => None
  end.

(** A [string] field. *)
Definition decode_string (v : json) (old : string) : option string :=
  match v with
  | JStr s => Some s
  | JNull => Some old
  | _ => None
  end.

Definition lookup_field (name : string) (fs : list (string * json)) : list json :=
  List.map snd (List.filter (fun kv => field_match name (fst kv)) fs).

End Json.

(* ===================================================================== *)
(** * github.com/google/uuid *)
(* ===================================================================== *)

Module uuid.

(** A UUID is 16 bytes; it is kept as the 128-bit number they spell. *)
Definition UUID : Type := N.

Definition Nil : UUID := 0%N.

Definition hexdigit (n : N) : ascii :=
  nth (N.to_nat n) (list_ascii_of_string "0123456789abcdef") "0"%char.

Definition xvalue (c : ascii) : option N :=
  let n := N_of_ascii c in
  if (48 <=? n)%N && (n <=? 57)%N then Some (n - 48)%N
  else if (97 <=? n)%N && (n <=? 102)%N then Some (n - 87)%N
  else if (65 <=? n)%N && (n <=? 70)%N then Some (n - 55)%N
  else None.

Definition nibble (u : UUID) (i : nat) : N :=
  N.land (N.shiftr u (4 * N.of_nat (31 - i))) 15.

Definition hex32 (u : UUID) : list ascii :=
  List.map (fun i => hexdigit (nibble u i)) (seq 0 32).

(** [UUID.String]: xxxxxxxx-xxxx-xxxx-xxxx-xxxxxxxxxxxx. *)
Definition String (u : UUID) : string :=
  let d := hex32 u in
  let dash := ["-"%char] in
  string_of_list_ascii
    (firstn 8 d ++ dash ++ firstn 4 (skipn 8 d) ++ dash
     ++ firstn 4 (skipn 12 d) ++ dash ++ firstn 4 (skipn 16 d) ++ dash
     ++ skipn 20 d).

Fixpoint xvalues (cs : list ascii) (acc : N) : option N :=
  match cs with
  | [] => Some acc
  | c :: r =>
      match xvalue c with
      | Some d => xvalues r (acc * 16 + d)%N
      | None => None
      end
  end.

Definition is_dash (cs : list ascii) (i : nat) : bool :=
  Ascii.eqb (nth i cs "0"%char) "-"%char.

(** The 36 bytes xxxxxxxx-xxxx-xxxx-xxxx-xxxxxxxxxxxx at the head of [cs]:
    the four dashes are checked and sixteen pairs of hex digits are read;
    bytes after the 36th are not looked at. *)
Definition parse36 (cs : list ascii) : option UUID :=
  if is_dash cs 8 && is_dash cs 13 && is_dash cs 18 && is_dash cs 23
  then xvalues (firstn 8 cs ++ firstn 4 (skipn 9 cs) ++ firstn 4 (skipn 14 cs)
                ++ firstn 4 (skipn 19 cs) ++ firstn 12 (skipn 24 cs)) 0
  else None.

(** [strings.EqualFold(s[:9], "urn:uuid:")] *)
Definition urnPrefix (cs : list ascii) : bool :=
  String.eqb (Json.foldName (string_of_list_ascii (firstn 9 cs))) "urn:uuid:".

(** [Parse] switches on the length of the text: the 36-byte form that
    [String] prints; the same after [urn:uuid:] (in any case); the same
    between two bytes that are meant to be braces but are not checked;
    or 32 hex digits without dashes. *)
Definition Parse (s : string) : option UUID :=
  let cs := list_ascii_of_string s in
  let n := List.length cs in
  if (n =? 36)%nat then parse36 cs
  else if (n =? 36 + 9)%nat then
    if urnPrefix cs then parse36 (skipn 9 cs) else None
  else if (n =? 36 + 2)%nat then parse36 (skipn 1 cs)
  else if (n =? 32)%nat then xvalues cs 0
  else None.

(** A [uuid.UUID] field: the text goes through [UnmarshalText]. *)
Definition decode (v : Json.json) (old : UUID) : option UUID :=
  match v with
  | Json.JStr s => Parse s
  | Json.JNull => Some old
  | _ => None
  end.

Definition MarshalJSON (u : UUID) : Json.json := Json.JStr (String u).

End uuid.

(* ===================================================================== *)
(** * internal/model: the event envelope *)
(* ===================================================================== *)

Module model.
Import Json.

(** [WSEvent]: the payload is an [interface{}]; it is kept as the JSON it
    marshals to. *)
Record WSEvent : Type := { Type_ : string; Payload : json }.

Definition WSEventNewMessage : string := "new_message".
Definition WSEventTyping : string := "typing".
Definition WSEventStopTyping : string := "stop_typing".
Definition WSEventOnline : string := "online".
Definition WSEventOffline : string := "offline".
Definition WSEventMessageRead : string := "message_read".
Definition WSEventCallOffer : string := "call_offer".
Definition WSEventCallAnswer : string := "call_answer".
Definition WSEventCallICE : string := "call_ice_candidate".
Definition WSEventCallHangup : string := "call_hangup".

Definition WSEvent_zero : WSEvent := {| Type_ := ""; Payload := JNull |}.

Definition WSEvent_set (k : string) (v : json) (e : WSEvent) : option WSEvent :=
  if field_match "type" k then
    match decode_string v (Type_ e) with
    | Some s => Some {| Type_ := s; Payload := Payload e |}
    | None => None
    end
  else if field_match "payload" k then
    Some {| Type_ := Type_ e; Payload := to_interface v |}
  else Some e.

(** [json.Unmarshal(message, &event)] *)
Definition Unmarshal_WSEvent (w : wire) : option WSEvent :=
  match w with
  | Malformed => None
  | Text j => decode_struct WSEvent_set j WSEvent_zero
  end.

Definition Marshal_WSEvent (e : WSEvent) : json :=
  JObj [("type", JStr (Type_ e)); ("payload", Payload e)].

(** A [*WSEvent]: nil marshals to [null]. *)
Definition Marshal_WSEvent_ptr (e : option WSEvent) : json :=
  match e with
  | Some e => Marshal_WSEvent e
  | None => JNull
  end.

Record TypingEvent : Type :=
  { te_ConversationID : uuid.UUID; te_UserID : uuid.UUID; te_Name : string }.

Definition Marshal_TypingEvent (t : TypingEvent) : json :=
  JObj [("conversation_id", uuid.MarshalJSON (te_ConversationID t));
        ("user_id", uuid.MarshalJSON (te_UserID t));
        ("name", JStr (te_Name t))].

Record OnlineEvent : Type := { oe_UserID : uuid.UUID; oe_IsOnline : bool }.

Definition Marshal_OnlineEvent (o : OnlineEvent) : json :=
  JObj [("user_id", uuid.MarshalJSON (oe_UserID o));
        ("is_online", JBool (oe_IsOnline o))].

Record MessageReadEvent : Type :=
  { mr_ConversationID : uuid.UUID; mr_MessageID : uuid.UUID; mr_UserID : uuid.UUID }.

Definition Marshal_MessageReadEvent (m : MessageReadEvent) : json :=
  JObj [("conversation_id", uuid.MarshalJSON (mr_ConversationID m));
        ("message_id", uuid.MarshalJSON (mr_MessageID m));
        ("user_id", uuid.MarshalJSON (mr_UserID m))].

End model.

(* ===================================================================== *)
(** * Outcomes of code that may panic *)
(* ===================================================================== *)

Inductive result (A : Type) : Type :=
| Ok (a : A)
| Panic (msg : string).
Arguments Ok {A} a.
Arguments Panic {A} msg.

#[global] Instance result_bind : MBind result := fun A B f r =>
  match r with
  | Ok a => f a
  | Panic m => Panic m
  end.

(** A [for ... range] loop whose body may panic. *)
Fixpoint foldM {A S : Type} (f : A -> S -> result S) (l : list A) (s : S)
  : result S :=
  match l with
  | [] => Ok s
  | x :: r => f x s ≫= foldM f r
  end.

(* ===================================================================== *)
(** * internal/ws/hub.go *)
(* ===================================================================== *)

Module ws.
Import Json model.

Definition ptr : Type := positive.

(** [Client]: the connection itself is left out; [addr] is the address the
    hub's tables hold. *)
Record Client : Type := { addr : ptr; UserID : uuid.UUID; Name : string }.

(** A buffered channel of capacity [cap]. *)
Record chan (A : Type) : Type := { buf : list A; closed : bool }.
Arguments buf {A} c.
Arguments closed {A} c.

(** [make(chan []byte, 256)] in [NewClient] *)
Definition sendCap : nat := 256.

Definition make_chan {A : Type} : chan A := {| buf := []; closed := false |}.

(** [NewClient]: the client at a fresh address [a]; its [send] channel is
    [make_chan] until the hub or the pump touches it. *)
Definition NewClient (a : ptr) (userID : uuid.UUID) (name : string) : Client :=
  {| addr := a; UserID := userID; Name := name |}.

(** [close(ch)] panics on a closed channel. *)
Definition chan_close {A : Type} (ch : chan A) : result (chan A) :=
  if closed ch then Panic "close of closed channel"
  else Ok {| buf := buf ch; closed := true |}.

Record Hub : Type := {
  (* userID -> set of client connections *)
  clients : gmap uuid.UUID (gset ptr);
  (* the [send] channel of every client, by address; a client never seen
     before has the channel [NewClient] made; a queued []byte is kept as
     the JSON it spells *)
  send : gmap ptr (chan json);
  (* what was published on [redisChannel], oldest first *)
  rdb : list json;
  (* whether [rdb.Publish] succeeds *)
  rdb_up : bool;
  (* [onStatusChange != nil], and the calls made to it *)
  onStatusChange : bool;
  status_calls : list (uuid.UUID * bool)
}.

Definition NewHub (up cb : bool) : Hub :=
  {| clients := ∅; send := ∅; rdb := []; rdb_up := up;
     onStatusChange := cb; status_calls := [] |}.

Definition with_clients (m : gmap uuid.UUID (gset ptr)) (h : Hub) : Hub :=
  {| clients := m; send := send h; rdb := rdb h; rdb_up := rdb_up h;
     onStatusChange := onStatusChange h; status_calls := status_calls h |}.

Definition with_send (s : gmap ptr (chan json)) (h : Hub) : Hub :=
  {| clients := clients h; send := s; rdb := rdb h; rdb_up := rdb_up h;
     onStatusChange := onStatusChange h; status_calls := status_calls h |}.

Definition chan_of (h : Hub) (c : ptr) : chan json :=
  default make_chan (send h !! c).

(** [publishToRedis]: a failed publish is logged and dropped. *)
Definition publishToRedis (data : json) (h : Hub) : Hub :=
  if rdb_up h then
    {| clients := clients h; send := send h; rdb := rdb h ++ [data];
       rdb_up := rdb_up h; onStatusChange := onStatusChange h;
       status_calls := status_calls h |}
  else h.

(** [go h.onStatusChange(userID, online)] when the callback is set *)
Definition notifyStatus (u : uuid.UUID) (online : bool) (h : Hub) : Hub :=
  if onStatusChange h then
    {| clients := clients h; send := send h; rdb := rdb h;
       rdb_up := rdb_up h; onStatusChange := onStatusChange h;
       status_calls := status_calls h ++ [(u, online)] |}
  else h.

Definition presenceEvent (u : uuid.UUID) (online : bool) : WSEvent :=
  {| Type_ := if online then WSEventOnline else WSEventOffline;
     Payload := Marshal_OnlineEvent {| oe_UserID := u; oe_IsOnline := online |} |}.

(** [addClient] *)
Definition addClient (client : Client) (h : Hub) : Hub :=
  let u := UserID client in
  let h1 :=
    match clients h !! u with
    | Some _ => h
    | None =>
        publishToRedis (Marshal_WSEvent (presenceEvent u true))
          (notifyStatus u true (with_clients (<[u := ∅]> (clients h)) h))
    end in
  with_clients (alter (fun cs => cs ∪ {[addr client]}) u (clients h1)) h1.

(** [removeClient] *)
Definition removeClient (client : Client) (h : Hub) : result Hub :=
  let u := UserID client in
  match clients h !! u with
  | Some cs =>
      let cs' := cs ∖ {[addr client]} in
      let h1 := with_clients (<[u := cs']> (clients h)) h in
      ch ← chan_close (chan_of h1 (addr client));
      let h2 := with_send (<[addr client := ch]> (send h1)) h1 in
      if (size cs' =? 0)%nat then
        Ok (publishToRedis (Marshal_WSEvent (presenceEvent u false))
              (notifyStatus u false (with_clients (delete u (clients h2)) h2)))
      else Ok h2
  | None => Ok h
  end.

(** [TargetedEvent] *)
Record TargetedEvent : Type :=
  { TargetUserID : uuid.UUID; Event : option WSEvent }.

Definition Marshal_TargetedEvent (t : TargetedEvent) : json :=
  JObj [("target_user_id", uuid.MarshalJSON (TargetUserID t));
        ("event", Marshal_WSEvent_ptr (Event t))].

Definition TargetedEvent_zero : TargetedEvent :=
  {| TargetUserID := uuid.Nil; Event := None |}.

Definition TargetedEvent_set (k : string) (v : json) (t : TargetedEvent)
  : option TargetedEvent :=
  if field_match "target_user_id" k then
    match uuid.decode v (TargetUserID t) with
    | Some u => Some {| TargetUserID := u; Event := Event t |}
    | None => None
    end
  else if field_match "event" k then
    match v with
    | JNull => Some {| TargetUserID := TargetUserID t; Event := None |}
    | _ =>
        match decode_struct WSEvent_set v (default WSEvent_zero (Event t)) with
        | Some e => Some {| TargetUserID := TargetUserID t; Event := Some e |}
        | None => None
        end
    end
  else Some t.

Definition Unmarshal_TargetedEvent (w : wire) : option TargetedEvent :=
  match w with
  | Malformed => None
  | Text j => decode_struct TargetedEvent_set j TargetedEvent_zero
  end.

(** [SendToUser] *)
Definition SendToUser (userID : uuid.UUID) (event : WSEvent) (h : Hub) : Hub :=
  publishToRedis
    (Marshal_TargetedEvent {| TargetUserID := userID; Event := Some event |}) h.

(** [SendToUsers] *)
Definition SendToUsers (userIDs : list uuid.UUID) (event : WSEvent) (h : Hub)
  : Hub :=
  fold_left (fun h userID => SendToUser userID event h) userIDs h.

(** The body of the delivery loops:
    [select { case client.send <- data: default: close(client.send); delete(clients, client) }]
    where [clients] is the set stored under [userID]. *)
Definition trySend (userID : uuid.UUID) (data : json) (c : ptr) (h : Hub)
  : result Hub :=
  let ch := chan_of h c in
  if closed ch then Panic "send on closed channel"
  else if (List.length (buf ch) <? sendCap)%nat then
    Ok (with_send (<[c := {| buf := buf ch ++ [data]; closed := false |}]> (send h)) h)
  else
    ch' ← chan_close ch;
    Ok (with_clients (alter (fun cs => cs ∖ {[c]}) userID (clients h))
          (with_send (<[c := ch']> (send h)) h)).

(** [sendToLocalUser] *)
Definition sendToLocalUser (userID : uuid.UUID) (event : option WSEvent)
  (h : Hub) : result Hub :=
  match clients h !! userID with
  | Some cs => foldM (trySend userID (Marshal_WSEvent_ptr event)) (elements cs) h
  | None => Ok h
  end.

(** [broadcastToLocal] *)
Definition broadcastToLocal (event : option WSEvent) (h : Hub) : result Hub :=
  foldM (fun ucs h' =>
           foldM (trySend (fst ucs) (Marshal_WSEvent_ptr event))
             (elements (snd ucs)) h')
    (map_to_list (clients h)) h.

(** [IsUserOnline] *)
Definition IsUserOnline (userID : uuid.UUID) (h : Hub) : bool :=
  match clients h !! userID with
  | Some _ => true
  | None => false
  end.

(** [GetOnlineUserIDs] *)
Definition GetOnlineUserIDs (h : Hub) : list uuid.UUID :=
  List.map fst (map_to_list (clients h)).

(** [len(h.clients[userID])], the number of connections the table holds
    for a user *)
Definition connCount (userID : uuid.UUID) (h : Hub) : nat :=
  match clients h !! userID with
  | Some cs => size cs
  | None => 0
  end.

(** One turn of the [subscribeRedis] loop, for one message of the bus. *)
Definition onRedisMessage (m : wire) (h : Hub) : result Hub :=
  match Unmarshal_TargetedEvent m with
  | None => Ok h
  | Some targeted =>
      if negb (N.eqb (TargetUserID targeted) uuid.Nil) then
        (* targeted event: send to that user *)
        sendToLocalUser (TargetUserID targeted) (Event targeted) h
      else
        match Event targeted with
        | Some e => broadcastToLocal (Some e) h
        | None => Ok h
        end
  end.

(** [subscribeRedis], over the messages that arrive until shutdown. *)
Definition subscribeRedis (msgs : list wire) (h : Hub) : result Hub :=
  foldM onRedisMessage msgs h.

(** What the control loop [Run] selects on. *)
Inductive request : Type :=
| Register (c : Client)
| Unregister (c : Client)
| Broadcast (e : WSEvent).

Definition serve (r : request) (h : Hub) : result Hub :=
  match r with
  | Register c => Ok (addClient c h)
  | Unregister c => removeClient c h
  | Broadcast e => broadcastToLocal (Some e) h
  end.

(** [Run], over the requests that arrive until shutdown. *)
Definition Run (reqs : list request) (h : Hub) : result Hub :=
  foldM serve reqs h.

(* --------------------------------------------------------------------- *)
(** ** internal/ws/client.go *)
(* --------------------------------------------------------------------- *)

(** [time.Duration] counts nanoseconds. *)
Definition Second : Z := 1000000000.

Definition writeWait : Z := 10 * Second.
Definition pongWait : Z := 60 * Second.
Definition pingPeriod : Z := Z.quot (pongWait * 9) 10.
Definition maxMessageSize : Z := 4096.

(** The read side of the websocket connection: the size limit and the
    deadline (an instant, in nanoseconds) that the pump sets. *)
Record Conn : Type := { readLimit : Z; readDeadline : Z }.

Definition SetReadLimit (n : Z) (c : Conn) : Conn :=
  {| readLimit := n; readDeadline := readDeadline c |}.

Definition SetReadDeadline (t : Z) (c : Conn) : Conn :=
  {| readLimit := readLimit c; readDeadline := t |}.

(** The function given to [SetPongHandler], run at instant [now]. *)
Definition pongHandler (now : Z) (c : Conn) : Conn :=
  SetReadDeadline (now + pongWait) c.

(** What reaches the read side, each with the instant it arrives: a pong,
    a data frame of [size] bytes, or a failure of the connection. *)
Inductive inbound : Type :=
| Pong (now : Z)
| Frame (now : Z) (size : Z) (data : wire)
| ReadFail (now : Z).

Definition arrival (i : inbound) : Z :=
  match i with
  | Pong t => t
  | Frame t _ _ => t
  | ReadFail t => t
  end.

Inductive pump_status : Type :=
| Reading          (* blocked in ReadMessage *)
| Unregistered.    (* left the loop: [c.hub.unregister <- c; c.conn.Close()] *)

Record ReadState (S : Type) : Type := {
  rs_conn : Conn;
  rs_app : S;
  rs_log : list string;
  rs_status : pump_status
}.
Arguments rs_conn {S} r.
Arguments rs_app {S} r.
Arguments rs_log {S} r.
Arguments rs_status {S} r.

Definition MessageHandler (S : Type) : Type := Client -> WSEvent -> S -> S.

(** The [for] loop of [ReadPump].  [ReadMessage] fails when the deadline
    has passed, when the frame is larger than the read limit, or when the
    connection fails; a pong only runs the pong handler. *)
Fixpoint readLoop {S : Type} (handler : option (MessageHandler S)) (c : Client)
  (ins : list inbound) (conn : Conn) (s : S) (log : list string) : ReadState S :=
  match ins with
  | [] => {| rs_conn := conn; rs_app := s; rs_log := log; rs_status := Reading |}
  | i :: r =>
      if (readDeadline conn <? arrival i)%Z then
        {| rs_conn := conn; rs_app := s; rs_log := log; rs_status := Unregistered |}
      else
        match i with
        | Pong now => readLoop handler c r (pongHandler now conn) s log
        | ReadFail _ =>
            {| rs_conn := conn; rs_app := s; rs_log := log;
               rs_status := Unregistered |}
        | Frame _ size data =>
            if (readLimit conn <? size)%Z then
              {| rs_conn := conn; rs_app := s; rs_log := log;
                 rs_status := Unregistered |}
            else
              match Unmarshal_WSEvent data with
              | None =>
                  readLoop handler c r conn s
                    (log ++ ["Error parsing WebSocket message"])
              | Some event =>
                  match handler with
                  | Some f => readLoop handler c r conn (f c event s) log
                  | None => readLoop handler c r conn s log
                  end
              end
        end
  end.

(** [ReadPump], started at instant [start]. *)
Definition ReadPump {S : Type} (handler : option (MessageHandler S)) (c : Client)
  (start : Z) (conn : Conn) (ins : list inbound) (s : S) : ReadState S :=
  readLoop handler c ins
    (SetReadDeadline (start + pongWait) (SetReadLimit maxMessageSize conn)) s [].

(** What the write side puts on the wire. *)
Inductive frame : Type :=
| TextMessage (data : string)
| PingMessage
| CloseMessage.

Definition newline : string := String (ascii_of_nat 10) EmptyString.

(** Where [WritePump] stands. *)
Inductive write_pc : Type :=
| Select                          (* at the [select] *)
| Written (w : string)            (* after [w.Write(message)] *)
| Draining (w : string) (n : nat) (* in the inner loop, [n] rounds to go *)
| Returned.

Record WriteState : Type := {
  ws_send : chan string;
  ws_pc : write_pc;
  ws_wire : list frame
}.

(** The moves of a connection's write side: the hub enqueues or closes,
    the ticker fires, or the pump runs its next statement ([ok] tells
    whether the connection accepts what that statement writes). *)
Inductive action : Type :=
| Enqueue (m : string)
| CloseSend
| Tick (ok : bool)
| Step (ok : bool).

Definition pumpStep (ok : bool) (st : WriteState) : WriteState :=
  let ch := ws_send st in
  match ws_pc st with
  | Select =>
      match buf ch with
      | m :: q =>
          (* message, ok := <-c.send; NextWriter; w.Write(message) *)
          {| ws_send := {| buf := q; closed := closed ch |};
             ws_pc := if ok then Written m else Returned;
             ws_wire := ws_wire st |}
      | [] =>
          if closed ch then
            {| ws_send := ch; ws_pc := Returned;
               ws_wire := if ok then ws_wire st ++ [CloseMessage] else ws_wire st |}
          else st
      end
  | Written w =>
      (* n := len(c.send) *)
      {| ws_send := ch; ws_pc := Draining w (List.length (buf ch));
         ws_wire := ws_wire st |}
  | Draining w (S n) =>
      (* w.Write([]byte("\n")); w.Write(<-c.send) *)
      match buf ch with
      | m :: q =>
          {| ws_send := {| buf := q; closed := closed ch |};
             ws_pc := Draining (w ++ newline ++ m) n; ws_wire := ws_wire st |}
      | [] =>
          if closed ch then
            {| ws_send := ch; ws_pc := Draining (w ++ newline) n;
               ws_wire := ws_wire st |}
          else st
      end
  | Draining w O =>
      (* w.Close() *)
      if ok then
        {| ws_send := ch; ws_pc := Select;
           ws_wire := ws_wire st ++ [TextMessage w] |}
      else {| ws_send := ch; ws_pc := Returned; ws_wire := ws_wire st |}
  | Returned => st
  end.

Definition writeStep (a : action) (st : WriteState) : WriteState :=
  let ch := ws_send st in
  match a with
  | Enqueue m =>
      if negb (closed ch) && (List.length (buf ch) <? sendCap)%nat then
        {| ws_send := {| buf := buf ch ++ [m]; closed := false |};
           ws_pc := ws_pc st; ws_wire := ws_wire st |}
      else st
  | CloseSend =>
      {| ws_send := {| buf := buf ch; closed := true |};
         ws_pc := ws_pc st; ws_wire := ws_wire st |}
  | Tick ok =>
      match ws_pc st with
      | Select =>
          if ok then
            {| ws_send := ch; ws_pc := Select;
               ws_wire := ws_wire st ++ [PingMessage] |}
          else {| ws_send := ch; ws_pc := Returned; ws_wire := ws_wire st |}
      | _ => st
      end
  | Step ok => pumpStep ok st
  end.

(** The events a schedule puts on the queue, next to the state it leads
    to: an [Enqueue] counts when the queue took it. *)
Definition writeStepH (a : action) (sh : WriteState * list string)
  : WriteState * list string :=
  let st := fst sh in
  (writeStep a st,
   match a with
   | Enqueue m =>
       if negb (closed (ws_send st))
          && (List.length (buf (ws_send st)) <? sendCap)%nat
       then (snd sh ++ [m])%list else snd sh
   | _ => snd sh
   end).

Definition WritePump (acts : list action) (sh : WriteState * list string)
  : WriteState * list string :=
  fold_left (fun sh a => writeStepH a sh) acts sh.

Definition writeStart : WriteState :=
  {| ws_send := make_chan; ws_pc := Select; ws_wire := [] |}.

(** The text frames of a wire, in order. *)
Fixpoint textFrames (w : list frame) : list string :=
  match w with
  | [] => []
  | TextMessage d :: r => d :: textFrames r
  | _ :: r => textFrames r
  end.

(** Several events in one frame: the first, then each next one after a
    newline. *)
Fixpoint coalesce (m : string) (ms : list string) : string :=
  match ms with
  | [] => m
  | m' :: r => coalesce (m ++ newline ++ m') r
  end.

End ws.

(* ===================================================================== *)
(** * internal/handler/ws_handler.go *)
(* ===================================================================== *)

Module handler.
Import Json model ws.

(** The payload structs the handlers decode into. *)
Record NewMessagePayload : Type :=
  { np_ConversationID : uuid.UUID; np_Content : string; np_Type : string }.

Definition NewMessagePayload_set (k : string) (v : json) (p : NewMessagePayload)
  : option NewMessagePayload :=
  if field_match "conversation_id" k then
    match uuid.decode v (np_ConversationID p) with
    | Some u => Some {| np_ConversationID := u; np_Content := np_Content p;
                        np_Type := np_Type p |}
    | None => None
    end
  else if field_match "content" k then
    match decode_string v (np_Content p) with
    | Some s => Some {| np_ConversationID := np_ConversationID p;
                        np_Content := s; np_Type := np_Type p |}
    | None => None
    end
  else if field_match "type" k then
    match decode_string v (np_Type p) with
    | Some s => Some {| np_ConversationID := np_ConversationID p;
                        np_Content := np_Content p; np_Type := s |}
    | None => None
    end
  else Some p.

Definition ConversationPayload_set (k : string) (v : json) (c : uuid.UUID)
  : option uuid.UUID :=
  if field_match "conversation_id" k then uuid.decode v c else Some c.

Definition ReadPayload_set (k : string) (v : json) (p : uuid.UUID * uuid.UUID)
  : option (uuid.UUID * uuid.UUID) :=
  if field_match "conversation_id" k then
    match uuid.decode v (fst p) with
    | Some u => Some (u, snd p)
    | None => None
    end
  else if field_match "message_id" k then
    match uuid.decode v (snd p) with
    | Some u => Some (fst p, u)
    | None => None
    end
  else Some p.

Definition CallPayload_set (k : string) (v : json) (to : uuid.UUID)
  : option uuid.UUID :=
  if field_match "to" k then uuid.decode v to else Some to.

(** [model.SendMessageRequest], with the fields the socket path fills. *)
Record SendMessageRequest : Type := { Content : string; MsgType : string }.

Definition MessageTypeText : string := "text".

Section Dispatcher.

(** The chat service is a collaborator: its store is an abstract state
    that every call threads. *)
Variable DB : Type.
Variable Message : Type.
Variable Marshal_Message : Message -> json.
Variable SendMessage :
  uuid.UUID -> uuid.UUID -> SendMessageRequest -> DB -> option Message * DB.
Variable GetConversationMemberIDs : uuid.UUID -> DB -> option (list uuid.UUID).
Variable MarkMessagesAsRead : uuid.UUID -> uuid.UUID -> DB -> DB.

Definition World : Type := (DB * Hub)%type.

(** [handleNewMessage] *)
Definition handleNewMessage (client : Client) (event : WSEvent) (w : World)
  : World :=
  match decode_struct NewMessagePayload_set (Payload event)
          {| np_ConversationID := uuid.Nil; np_Content := ""; np_Type := "" |} with
  | None => w
  | Some payload =>
      let msgType :=
        if String.eqb (np_Type payload) "" then MessageTypeText
        else np_Type payload in
      match SendMessage (UserID client) (np_ConversationID payload)
              {| Content := np_Content payload; MsgType := msgType |} (fst w) with
      | (None, db) => (db, snd w)
      | (Some msg, db) =>
          match GetConversationMemberIDs (np_ConversationID payload) db with
          | None => (db, snd w)
          | Some memberIDs =>
              let broadcastEvent :=
                {| Type_ := WSEventNewMessage; Payload := Marshal_Message msg |} in
              (db, SendToUsers memberIDs broadcastEvent (snd w))
          end
      end
  end.

(** The loop shared by the typing and read-receipt handlers:
    [for _, memberID := range memberIDs { if memberID != client.UserID { SendToUser } }] *)
Definition sendToOthers (client : Client) (memberIDs : list uuid.UUID)
  (event : WSEvent) (h : Hub) : Hub :=
  fold_left
    (fun h memberID =>
       if N.eqb memberID (UserID client) then h
       else SendToUser memberID event h)
    memberIDs h.

Definition membersOrNil (conv : uuid.UUID) (db : DB) : list uuid.UUID :=
  default [] (GetConversationMemberIDs conv db).

(** [handleTyping] and [handleStopTyping] *)
Definition handleTypingAs (ty : string) (client : Client) (event : WSEvent)
  (w : World) : World :=
  match decode_struct ConversationPayload_set (Payload event) uuid.Nil with
  | None => w
  | Some conv =>
      let typingEvent :=
        {| Type_ := ty;
           Payload := Marshal_TypingEvent
                        {| te_ConversationID := conv;
                           te_UserID := UserID client;
                           te_Name := Name client |} |} in
      (fst w, sendToOthers client (membersOrNil conv (fst w)) typingEvent (snd w))
  end.

Definition handleTyping := handleTypingAs WSEventTyping.
Definition handleStopTyping := handleTypingAs WSEventStopTyping.

(** [handleMessageRead] *)
Definition handleMessageRead (client : Client) (event : WSEvent) (w : World)
  : World :=
  match decode_struct ReadPayload_set (Payload event) (uuid.Nil, uuid.Nil) with
  | None => w
  | Some (conv, msgID) =>
      let db := MarkMessagesAsRead conv (UserID client) (fst w) in
      let readEvent :=
        {| Type_ := WSEventMessageRead;
           Payload := Marshal_MessageReadEvent
                        {| mr_ConversationID := conv; mr_MessageID := msgID;
                           mr_UserID := UserID client |} |} in
      (db, sendToOthers client (membersOrNil conv db) readEvent (snd w))
  end.

(** [handleCallSignaling] *)
Definition handleCallSignaling (client : Client) (event : WSEvent) (w : World)
  : World :=
  match decode_struct CallPayload_set (Payload event) uuid.Nil with
  | None => w
  | Some to => (fst w, SendToUser to event (snd w))
  end.

(** [handleWSMessage] *)
Definition handleWSMessage (client : Client) (event : WSEvent) (w : World)
  : World :=
  let ty := Type_ event in
  if String.eqb ty WSEventNewMessage then handleNewMessage client event w
  else if String.eqb ty WSEventTyping then handleTyping client event w
  else if String.eqb ty WSEventStopTyping then handleStopTyping client event w
  else if String.eqb ty WSEventMessageRead then handleMessageRead client event w
  else if String.eqb ty WSEventCallOffer then handleCallSignaling client event w
  else if String.eqb ty WSEventCallAnswer then handleCallSignaling client event w
  else if String.eqb ty WSEventCallICE then handleCallSignaling client event w
  else if String.eqb ty WSEventCallHangup then handleCallSignaling client event w
  else w.

End Dispatcher.

End handler.

(* ===================================================================== *)
(** * internal/service/chat_service.go *)
(* ===================================================================== *)

Module service.
Local Open Scope list_scope.

(** A Go result [(value, error)]. *)
Inductive outcome (A : Type) : Type :=
| Fine (a : A)
| Failed (err : string).
Arguments Fine {A} a.
Arguments Failed {A} err.

(** The result of a lookup that tells [gorm.ErrRecordNotFound] from other
    errors. *)
Inductive found (A : Type) : Type :=
| Found (a : A)
| NotFound
| LookupFailed (err : string).
Arguments Found {A} a.
Arguments NotFound {A}.
Arguments LookupFailed {A} err.

Definition ConversationTypePrivate : string := "private".
Definition ConversationTypeGroup : string := "group".
Definition MemberRoleAdmin : string := "admin".
Definition MemberRoleMember : string := "member".

Record ConversationMember : Type :=
  { cm_UserID : uuid.UUID; cm_Role : string }.

(** The [model.Conversation] that [CreateConversation] builds. *)
Record Conversation : Type := {
  c_Name : string;
  c_Type : string;
  c_CreatorID : option uuid.UUID;
  c_Members : list ConversationMember
}.

Record CreateConversationRequest : Type :=
  { r_Type : string; r_Name : string; r_MemberIDs : list uuid.UUID }.

(** The member list of a new conversation: the creator as admin, then the
    requested ids, skipping the creator. *)
Definition newMembers (creatorID : uuid.UUID) (memberIDs : list uuid.UUID)
  : list ConversationMember :=
  fold_left
    (fun members memberID =>
       if N.eqb memberID creatorID then members
       else members ++ [{| cm_UserID := memberID; cm_Role := MemberRoleMember |}])
    memberIDs
    [{| cm_UserID := creatorID; cm_Role := MemberRoleAdmin |}].

Definition newConversation (creatorID : uuid.UUID)
  (req : CreateConversationRequest) : Conversation :=
  {| c_Name := r_Name req; c_Type := r_Type req;
     c_CreatorID := Some creatorID;
     c_Members := newMembers creatorID (r_MemberIDs req) |}.

(** ** internal/model/message.go and dto.go: messages *)

Definition MessageTypeText : string := "text".
Definition MessageTypeImage : string := "image".
Definition MessageTypeFile : string := "file".
Definition MessageStatusSent : string := "sent".

Record AttachmentInput : Type := {
  ai_URL : string;
  ai_Type : string;
  ai_FileName : string;
  ai_FileSize : Z;
  ai_MimeType : string
}.

Record SendMessageRequest : Type := {
  sr_Content : string;
  sr_Type : string;
  sr_ReplyToID : option uuid.UUID;
  sr_Attachments : list AttachmentInput;
  sr_FileURL : string;
  sr_FileName : string;
  sr_FileSize : Z
}.

(** The columns of [model.Message].  The struct also has the two
    timestamps, the soft-delete mark and the fields of its relations. *)
Record Message : Type := {
  m_ID : uuid.UUID;
  m_ConversationID : uuid.UUID;
  m_SenderID : uuid.UUID;
  m_Content : string;
  m_Type : string;
  m_Status : string;
  m_FileURL : string;
  m_FileName : string;
  m_FileSize : Z;
  m_ReplyToID : option uuid.UUID
}.

(** The relations of [model.Message]: the fields [Sender], [Conversation],
    [ReplyTo] and [ReadReceipts], which hold other models. *)
Definition Message_relations : list string :=
  ["Sender"; "Conversation"; "ReplyTo"; "ReadReceipts"].

Record MessageAttachment : Type := {
  a_MessageID : uuid.UUID;
  a_Type : string;
  a_URL : string;
  a_FileName : string;
  a_FileSize : Z;
  a_MimeType : string
}.

(** [json.Marshal] of a message, for the columns: [omitempty] drops the
    empty file fields and the nil reply id. *)
Definition Marshal_Message (m : Message) : Json.json :=
  Json.JObj
    ([("id", uuid.MarshalJSON (m_ID m));
      ("conversation_id", uuid.MarshalJSON (m_ConversationID m));
      ("sender_id", uuid.MarshalJSON (m_SenderID m));
      ("content", Json.JStr (m_Content m));
      ("type", Json.JStr (m_Type m));
      ("status", Json.JStr (m_Status m))]
     ++ (if String.eqb (m_FileURL m) "" then []
         else [("file_url", Json.JStr (m_FileURL m))])
     ++ (if String.eqb (m_FileName m) "" then []
         else [("file_name", Json.JStr (m_FileName m))])
     ++ (if (m_FileSize m =? 0)%Z then []
         else [("file_size",
                Json.JNum (NilZero.string_of_int (Z.to_int (m_FileSize m))))])
     ++ match m_ReplyToID m with
        | Some r => [("reply_to_id", uuid.MarshalJSON r)]
        | None => []
        end).

(** The message that [SendMessage] builds: a request without a type is a
    text message, unless it carries attachments (then the type of the
    first one) or a file URL (then a file). *)
Definition newMessage (senderID convID : uuid.UUID) (req : SendMessageRequest)
  : Message :=
  let msgType :=
    if String.eqb (sr_Type req) "" then
      match sr_Attachments req with
      | att :: _ => ai_Type att
      | [] =>
          if negb (String.eqb (sr_FileURL req) "") then MessageTypeFile
          else MessageTypeText
      end
    else sr_Type req in
  {| m_ID := uuid.Nil;
     m_ConversationID := convID;
     m_SenderID := senderID;
     m_Content := sr_Content req;
     m_Type := msgType;
     m_Status := MessageStatusSent;
     m_FileURL := sr_FileURL req;
     m_FileName := sr_FileName req;
     m_FileSize := sr_FileSize req;
     m_ReplyToID := sr_ReplyToID req |}.

Definition newAttachment (messageID : uuid.UUID) (att : AttachmentInput)
  : MessageAttachment :=
  {| a_MessageID := messageID;
     a_Type := ai_Type att;
     a_URL := ai_URL att;
     a_FileName := ai_FileName att;
     a_FileSize := ai_FileSize att;
     a_MimeType := ai_MimeType att |}.

(** ** gorm, as far as the message repository uses it *)

Definition ErrRecordNotFound : string := "record not found".

(** A [Preload] names a relation of the model that is queried.  The name
    is looked up among the relations of the model's schema when the query
    runs; a name that is not one of them fails the query. *)
Definition ErrUnsupportedRelation (name schema : string) : string :=
  (name ++ ": unsupported relations for schema " ++ schema)%string.

Definition isRelation (relations : list string) (name : string) : bool :=
  existsb (String.eqb name) relations.

Section ChatService.

(** The repositories are collaborators over an abstract store. *)
Variable DB : Type.
Variable Stored : Type.       (* a conversation as the repository loads it *)
Variable Messages : Type.     (* a page of messages *)
Variable IsMember : uuid.UUID -> uuid.UUID -> DB -> outcome bool.
Variable GetConversationMessages :
  uuid.UUID -> option uuid.UUID -> Z -> DB -> outcome Messages.
Variable FindPrivateConversation :
  uuid.UUID -> uuid.UUID -> DB -> found Stored.
Variable Create : Conversation -> DB -> outcome uuid.UUID * DB.
Variable FindByID : uuid.UUID -> DB -> outcome Stored.

Definition notAMember : string := "you are not a member of this conversation".

(** [GetMessages] *)
Definition GetMessages (convID userID : uuid.UUID) (before : option uuid.UUID)
  (limit : Z) (db : DB) : outcome Messages :=
  match IsMember convID userID db with
  | Failed err => Failed err
  | Fine false => Failed notAMember
  | Fine true =>
      let limit := if (limit <=? 0)%Z || (100 <? limit)%Z then 50%Z else limit in
      GetConversationMessages convID before limit db
  end.

(** [CreateConversation], from the creation of the conversation on. *)
Definition createNew (creatorID : uuid.UUID) (req : CreateConversationRequest)
  (db : DB) : outcome Stored * DB :=
  match Create (newConversation creatorID req) db with
  | (Failed _, db') => (Failed "failed to create conversation", db')
  | (Fine id, db') => (FindByID id db', db')
  end.

(** [CreateConversation] *)
Definition CreateConversation (creatorID : uuid.UUID)
  (req : CreateConversationRequest) (db : DB) : outcome Stored * DB :=
  if String.eqb (r_Type req) ConversationTypePrivate then
    match r_MemberIDs req with
    | [partner] =>
        match FindPrivateConversation creatorID partner db with
        | Found existing => (Fine existing, db)
        | NotFound => createNew creatorID req db
        | LookupFailed err => (Failed err, db)
        end
    | _ => (Failed "private conversation requires exactly 1 other member", db)
    end
  else createNew creatorID req db.

(** *** internal/repository/message_repo.go *)

(** What the database does for the message repository: the INSERT of
    [Create] (which also fills in the id the database drew), the INSERT of
    [CreateAttachment], the UPDATE of [TouchUpdatedAt], the SELECT by id
    of [FindByID], and the query that loads one relation of a row.  The
    errors of [CreateAttachment] and [TouchUpdatedAt] are dropped by the
    service, so only the store they leave is kept. *)
Variable CreateMessage : Message -> DB -> outcome Message * DB.
Variable CreateAttachment : MessageAttachment -> DB -> DB.
Variable TouchUpdatedAt : uuid.UUID -> DB -> DB.
Variable firstMessage : uuid.UUID -> DB -> found Message.
Variable loadRelation : string -> Message -> DB -> outcome Message.

(** The preloads of a query over [model.Message], once the row is read. *)
Fixpoint preload (names : list string) (row : Message) (db : DB)
  : outcome Message :=
  match names with
  | [] => Fine row
  | name :: rest =>
      if isRelation Message_relations name then
        match loadRelation name row db with
        | Fine row' => preload rest row' db
        | Failed err => Failed err
        end
      else Failed (ErrUnsupportedRelation name "Message")
  end.

(** [MessageRepository.FindByID]:
    [db.Preload("Sender").Preload("Attachments").Where("id = ?", id).First(&msg)] *)
Definition MessageRepository_FindByID (id : uuid.UUID) (db : DB)
  : outcome Message :=
  match firstMessage id db with
  | Found row => preload ["Sender"; "Attachments"] row db
  | NotFound => Failed ErrRecordNotFound
  | LookupFailed err => Failed err
  end.

(** [SendMessage] *)
Definition SendMessage (senderID convID : uuid.UUID) (req : SendMessageRequest)
  (db : DB) : outcome Message * DB :=
  match IsMember convID senderID db with
  | Failed err => (Failed err, db)
  | Fine false => (Failed notAMember, db)
  | Fine true =>
      match CreateMessage (newMessage senderID convID req) db with
      | (Failed _, db1) => (Failed "failed to send message", db1)
      | (Fine msg, db1) =>
          let db2 :=
            fold_left
              (fun db att => CreateAttachment (newAttachment (m_ID msg) att) db)
              (sr_Attachments req) db1 in
          let db3 := TouchUpdatedAt convID db2 in
          (MessageRepository_FindByID (m_ID msg) db3, db3)
      end
  end.

End ChatService.

End service.

(* ===================================================================== *)
(** * internal/handler/chat_handler.go: the HTTP send path *)
(* ===================================================================== *)

Module chat.
Import Json model ws.
Local Open Scope list_scope.

Definition StatusCreated : nat := 201.
Definition StatusBadRequest : nat := 400.

(** [model.ErrorResponse]; an empty message is omitted. *)
Definition ErrorResponse (error message : string) : json :=
  JObj (("error", JStr error)
        :: if String.eqb message "" then [] else [("message", JStr message)]).

Section ChatHandler.

Variable DB : Type.
Variable Request : Type.      (* the bound [model.SendMessageRequest] *)
Variable Message : Type.
Variable Marshal_Message : Message -> json.
Variable SendMessage :
  uuid.UUID -> uuid.UUID -> Request -> DB -> service.outcome Message * DB.
Variable GetConversationMemberIDs : uuid.UUID -> DB -> option (list uuid.UUID).

(** The goroutine that [SendMessage] starts after saving: broadcast to the
    other members. *)
Definition broadcastToOthers (userID convID : uuid.UUID) (msg : Message)
  (db : DB) (h : Hub) : Hub :=
  match GetConversationMemberIDs convID db with
  | Some memberIDs =>
      let recipientIDs :=
        List.filter (fun id => negb (N.eqb id userID)) memberIDs in
      if (0 <? List.length recipientIDs)%nat then
        SendToUsers recipientIDs
          {| Type_ := WSEventNewMessage; Payload := Marshal_Message msg |} h
      else h
  | None => h
  end.

(** [ChatHandler.SendMessage]: the path parameter, the outcome of
    [ShouldBindJSON] and the authenticated user give a status, a body, and
    the store and hub afterwards. *)
Definition SendMessage_http (idParam : string) (bound : service.outcome Request)
  (userID : uuid.UUID) (w : DB * Hub) : (nat * json) * (DB * Hub) :=
  match uuid.Parse idParam with
  | None => ((StatusBadRequest, ErrorResponse "Invalid conversation ID" ""), w)
  | Some convID =>
      match bound with
      | service.Failed err =>
          ((StatusBadRequest, ErrorResponse "Invalid request" err), w)
      | service.Fine req =>
          match SendMessage userID convID req (fst w) with
          | (service.Failed err, db) =>
              ((StatusBadRequest, ErrorResponse err ""), (db, snd w))
          | (service.Fine msg, db) =>
              ((StatusCreated, Marshal_Message msg),
               (db, broadcastToOthers userID convID msg db (snd w)))
          end
      end
  end.

End ChatHandler.

End chat.

(* ===================================================================== *)
(** * The handlers over the chat service *)
(* ===================================================================== *)

Module server.
Import Json model ws.
Local Open Scope list_scope.

(** [model.SendMessageRequest{Content: payload.Content, Type: msgType}]:
    the request the socket path passes to the service; its other fields
    are zero. *)
Definition socketRequest (r : handler.SendMessageRequest)
  : service.SendMessageRequest :=
  {| service.sr_Content := handler.Content r;
     service.sr_Type := handler.MsgType r;
     service.sr_ReplyToID := None;
     service.sr_Attachments := [];
     service.sr_FileURL := "";
     service.sr_FileName := "";
     service.sr_FileSize := 0 |}.

Section Wiring.

(** The database, and what it does for the repositories. *)
Variable DB : Type.
Variable IsMember : uuid.UUID -> uuid.UUID -> DB -> service.outcome bool.
Variable CreateMessage :
  service.Message -> DB -> service.outcome service.Message * DB.
Variable CreateAttachment : service.MessageAttachment -> DB -> DB.
Variable TouchUpdatedAt : uuid.UUID -> DB -> DB.
Variable firstMessage : uuid.UUID -> DB -> service.found service.Message.
Variable loadRelation :
  string -> service.Message -> DB -> service.outcome service.Message.
Variable GetConversationMemberIDs : uuid.UUID -> DB -> option (list uuid.UUID).
Variable MarkMessagesAsRead : uuid.UUID -> uuid.UUID -> DB -> DB.
Variable Marshal_Message : service.Message -> json.

(** [chatService.SendMessage], as the two handlers call it. *)
Definition SendMessage :
  uuid.UUID -> uuid.UUID -> service.SendMessageRequest -> DB
  -> service.outcome service.Message * DB :=
  service.SendMessage DB IsMember CreateMessage CreateAttachment TouchUpdatedAt
    firstMessage loadRelation.

(** The socket handler only logs the error. *)
Definition socketSend (senderID convID : uuid.UUID)
  (r : handler.SendMessageRequest) (db : DB) : option service.Message * DB :=
  match SendMessage senderID convID (socketRequest r) db with
  | (service.Fine msg, db') => (Some msg, db')
  | (service.Failed _, db') => (None, db')
  end.

(** [WSHandler.handleNewMessage] and [WSHandler.handleWSMessage] *)
Definition handleNewMessage : Client -> WSEvent -> DB * Hub -> DB * Hub :=
  handler.handleNewMessage DB service.Message Marshal_Message socketSend
    GetConversationMemberIDs.

Definition handleWSMessage : Client -> WSEvent -> DB * Hub -> DB * Hub :=
  handler.handleWSMessage DB service.Message Marshal_Message socketSend
    GetConversationMemberIDs MarkMessagesAsRead.

(** [ChatHandler.SendMessage] *)
Definition SendMessage_http :
  string -> service.outcome service.SendMessageRequest -> uuid.UUID
  -> DB * Hub -> (nat * json) * (DB * Hub) :=
  chat.SendMessage_http DB service.SendMessageRequest service.Message
    Marshal_Message SendMessage GetConversationMemberIDs.

End Wiring.

End server.

(* ===================================================================== *)
(** * A database in memory *)
(* ===================================================================== *)

Module memdb.
Import service.
Local Open Scope list_scope.

(** The tables the chat service touches, for the scenarios: the rows of
    [messages] and [message_attachments], the pairs (conversation, user)
    of [conversation_members], and the conversations and memberships
    whose [updated_at] and [last_read_at] were bumped.  Every statement
    succeeds. *)
Record DB : Type := {
  messages : list Message;
  message_attachments : list MessageAttachment;
  conversation_members : list (uuid.UUID * uuid.UUID);
  touched : list uuid.UUID;
  marked : list (uuid.UUID * uuid.UUID)
}.

Definition isRow (conv user : uuid.UUID) (cm : uuid.UUID * uuid.UUID) : bool :=
  N.eqb (fst cm) conv && N.eqb (snd cm) user.

Definition IsMember (conv user : uuid.UUID) (db : DB) : outcome bool :=
  Fine (existsb (isRow conv user) (conversation_members db)).

(** The ids that [gen_random_uuid()] draws are taken in turn. *)
Definition CreateMessage (msg : Message) (db : DB) : outcome Message * DB :=
  let row :=
    {| m_ID := N.of_nat (S (List.length (messages db)));
       m_ConversationID := m_ConversationID msg;
       m_SenderID := m_SenderID msg;
       m_Content := m_Content msg;
       m_Type := m_Type msg;
       m_Status := m_Status msg;
       m_FileURL := m_FileURL msg;
       m_FileName := m_FileName msg;
       m_FileSize := m_FileSize msg;
       m_ReplyToID := m_ReplyToID msg |} in
  (Fine row,
   {| messages := messages db ++ [row];
      message_attachments := message_attachments db;
      conversation_members := conversation_members db;
      touched := touched db;
      marked := marked db |}).

Definition CreateAttachment (att : MessageAttachment) (db : DB) : DB :=
  {| messages := messages db;
     message_attachments := message_attachments db ++ [att];
     conversation_members := conversation_members db;
     touched := touched db;
     marked := marked db |}.

Definition TouchUpdatedAt (conv : uuid.UUID) (db : DB) : DB :=
  {| messages := messages db;
     message_attachments := message_attachments db;
     conversation_members := conversation_members db;
     touched := touched db ++ [conv];
     marked := marked db |}.

Definition firstMessage (id : uuid.UUID) (db : DB) : found Message :=
  match List.find (fun m => N.eqb (m_ID m) id) (messages db) with
  | Some row => Found row
  | None => NotFound
  end.

(** The users, conversations and receipts are not kept: loading a
    relation leaves the columns as they are. *)
Definition loadRelation (name : string) (row : Message) (db : DB)
  : outcome Message := Fine row.

(** [GetMemberIDs]: the [user_id] of every row of the conversation. *)
Definition GetConversationMemberIDs (conv : uuid.UUID) (db : DB)
  : option (list uuid.UUID) :=
  Some (List.map snd
          (List.filter (fun cm => N.eqb (fst cm) conv) (conversation_members db))).

(** [UpdateLastRead] *)
Definition MarkMessagesAsRead (conv user : uuid.UUID) (db : DB) : DB :=
  if existsb (isRow conv user) (conversation_members db) then
    {| messages := messages db;
       message_attachments := message_attachments db;
       conversation_members := conversation_members db;
       touched := touched db;
       marked := marked db ++ [(conv, user)] |}
  else db.

End memdb.

(* ===================================================================== *)
(** * Vocabulary of the statements *)
(* ===================================================================== *)

Module spec.
Import Json model ws.
Local Open Scope list_scope.

(** The table holds connection [c] for user [u]. *)
Definition registered (h : Hub) (u : uuid.UUID) (c : ptr) : Prop :=
  ∃ cs, clients h !! u = Some cs ∧ c ∈ cs.

(** What the control path maintains: the queue of a connection in the
    table is open, and a connection sits under one user only. *)
Definition wf (h : Hub) : Prop :=
  (∀ u c, registered h u c → closed (chan_of h c) = false) ∧
  (∀ u1 u2 c, registered h u1 c → registered h u2 c → u1 = u2).

Definition isFull (ch : chan json) : bool :=
  negb (List.length (buf ch) <? sendCap)%nat.

(** The queue after one non-blocking send of [d]: one more event, or,
    when there was no room, the same events behind a closed queue. *)
Definition pushed (d : json) (ch : chan json) : chan json :=
  if isFull ch then {| buf := buf ch; closed := true |}
  else {| buf := buf ch ++ [d]; closed := false |}.

(** Delivery over a list of (user, connection) pairs. *)
Definition deliverAll (d : json) (ps : list (uuid.UUID * ptr)) (h : Hub)
  : result Hub :=
  foldM (fun p => trySend (fst p) d (snd p)) ps h.

Definition pairsOf (ucs : uuid.UUID * gset ptr) : list (uuid.UUID * ptr) :=
  List.map (pair (fst ucs)) (elements (snd ucs)).









(** No user entry without a connection: what [addClient] and
    [removeClient] keep, and what makes presence equal to "has a
    connection". *)
Definition tidy (h : Hub) : Prop :=
  ∀ u cs, clients h !! u = Some cs → cs ≠ ∅.

(** The hub after one non-blocking send of [d] to connection [c] of user
    [u], when that queue is open. *)
Definition sent (u : uuid.UUID) (d : json) (c : ptr) (h : Hub) : Hub :=
  let s := <[c := pushed d (chan_of h c)]> (send h) in
  if isFull (chan_of h c)
  then with_clients (alter (fun cs => cs ∖ {[c]}) u (clients h)) (with_send s h)
  else with_send s h.

(** What a delivery loop over the pairs [ps] leaves behind. *)
Definition delivered (d : json) (ps : list (uuid.UUID * ptr)) (h h' : Hub)
  : Prop :=
  (∀ c, c ∉ ps.*2 → chan_of h' c = chan_of h c) ∧
  (∀ u c, (u, c) ∈ ps → chan_of h' c = pushed d (chan_of h c)) ∧
  (∀ u, is_Some (clients h' !! u) ↔ is_Some (clients h !! u)) ∧
  (∀ u c, registered h' u c ↔
          registered h u c ∧ ¬ ((u, c) ∈ ps ∧ isFull (chan_of h c) = true)) ∧
  rdb h' = rdb h ∧ status_calls h' = status_calls h.

(** A scenario: Alice (user 7) has one connection whose peer has stopped
    reading, and 256 typing events were delivered to it. *)
Definition alice : Client := {| addr := 1%positive; UserID := 7%N; Name := "Alice" |}.
Definition alice2 : Client := {| addr := 2%positive; UserID := 7%N; Name := "Alice" |}.
Definition bob : Client := {| addr := 3%positive; UserID := 8%N; Name := "Bob" |}.

Definition typingFromBob : WSEvent :=
  {| Type_ := WSEventTyping;
     Payload := Marshal_TypingEvent
                  {| te_ConversationID := 5%N; te_UserID := 8%N; te_Name := "Bob" |} |}.

Definition stalled : result Hub :=
  foldM (fun _ => sendToLocalUser 7%N (Some typingFromBob)) (seq 0 256)
    (addClient alice (NewHub true true)).

Definition stalledHub : Hub :=
  match stalled with
  | Ok h => h
  | Panic _ => NewHub true true
  end.

(** ... and a 257th event is delivered. *)
Definition overflowed : result Hub :=
  sendToLocalUser 7%N (Some typingFromBob) stalledHub.

(** The database of the scenarios: conversation 5 has the members Alice
    (7) and Bob (8), and no message yet. *)
Definition smallStore : memdb.DB :=
  {| memdb.messages := [];
     memdb.message_attachments := [];
     memdb.conversation_members := [(5%N, 7%N); (5%N, 8%N)];
     memdb.touched := [];
     memdb.marked := [] |}.

(** The chat service over that database, and the dispatcher over it. *)
Definition chatSend
  : uuid.UUID -> uuid.UUID -> handler.SendMessageRequest -> memdb.DB
    -> option service.Message * memdb.DB :=
  server.socketSend memdb.DB memdb.IsMember memdb.CreateMessage
    memdb.CreateAttachment memdb.TouchUpdatedAt memdb.firstMessage
    memdb.loadRelation.

Definition chatMembers : uuid.UUID -> memdb.DB -> option (list uuid.UUID) :=
  memdb.GetConversationMemberIDs.

Definition chatMark : uuid.UUID -> uuid.UUID -> memdb.DB -> memdb.DB :=
  memdb.MarkMessagesAsRead.

Definition chatDispatch : MessageHandler (memdb.DB * Hub) :=
  handler.handleWSMessage memdb.DB service.Message service.Marshal_Message
    chatSend chatMembers chatMark.

Definition newMessageFromAlice : WSEvent :=
  {| Type_ := WSEventNewMessage;
     Payload := JObj [("conversation_id", uuid.MarshalJSON 5%N);
                      ("content", JStr "hi")] |}.

(** The row that Alice's message becomes. *)
Definition aliceRow : service.Message :=
  {| service.m_ID := 1%N;
     service.m_ConversationID := 5%N;
     service.m_SenderID := 7%N;
     service.m_Content := "hi";
     service.m_Type := service.MessageTypeText;
     service.m_Status := service.MessageStatusSent;
     service.m_FileURL := "";
     service.m_FileName := "";
     service.m_FileSize := 0;
     service.m_ReplyToID := None |}.

Definition bothOnline : Hub := addClient bob (addClient alice (NewHub true true)).

(** Alice and Bob are connected; Alice's connection sends a new_message
    frame; the read pump hands it to the dispatcher; the subscriber of
    the same process then delivers what was published.  The result is the
    database and the hub at the end. *)
Definition newMessageScenario : memdb.DB * result Hub :=
  let r := ReadPump (Some chatDispatch) alice 0
             {| readLimit := 0; readDeadline := 0 |}
             [Frame 1 64 (Text (Marshal_WSEvent newMessageFromAlice))]
             (smallStore, bothOnline) in
  let h := snd (rs_app r) in
  (fst (rs_app r),
   subscribeRedis
     (List.map Text (skipn (List.length (rdb bothOnline)) (rdb h))) h).

(** A call-signaling payload without a target: no key spelled [to] (in
    any case), or only such keys whose value is null or the nil UUID. *)
Definition noTarget (p : json) : Prop :=
  p = JNull ∨
  ∃ fs, p = JObj fs ∧
        Forall (fun v => v = JNull ∨ ∃ s, v = JStr s ∧ uuid.Parse s = Some uuid.Nil)
          (lookup_field "to" fs).

Definition isCallType (ty : string) : Prop :=
  ty = WSEventCallOffer ∨ ty = WSEventCallAnswer ∨
  ty = WSEventCallICE ∨ ty = WSEventCallHangup.

(** A call offer whose payload names no target. *)
Definition callWithoutTarget : WSEvent :=
  {| Type_ := WSEventCallOffer;
     Payload := JObj [("sdp", JStr "v=0"); ("call_type", JStr "audio")] |}.

End spec.

(* ===================================================================== *)
(** * Vocabulary of the further statements *)
(* ===================================================================== *)

Module more.
Import Json model ws spec.
Local Open Scope list_scope.

(** A 128-bit value, as a UUID is. *)
Definition isUUID (u : uuid.UUID) : Prop := (u < 2 ^ 128)%N.

(** An event that the encoder writes and the decoder reads back as it
    is: see [Json.plain]. *)
Definition plainEvent (e : WSEvent) : bool :=
  utf8 (Type_ e) && plain (Payload e).

(** The event as the subscriber gets it back from the bus: the payload
    has gone through [interface{}]. *)
Definition viaBus (e : WSEvent) : WSEvent :=
  {| Type_ := Type_ e; Payload := to_interface (Payload e) |}.

Definition targeted (u : uuid.UUID) (e : WSEvent) : json :=
  Marshal_TargetedEvent {| TargetUserID := u; Event := Some e |}.

(** A run of Connect and Disconnect requests as the pumps issue them: a
    connection registers while it is not in the table and its queue is
    open, and unregisters while it is in the table. *)
Fixpoint orderly (reqs : list request) (h : Hub) : Prop :=
  match reqs with
  | [] => True
  | Register c :: r =>
      closed (chan_of h (addr c)) = false ∧
      (∀ u, ¬ registered h u (addr c)) ∧
      orderly r (addClient c h)
  | Unregister c :: r =>
      registered h (UserID c) (addr c) ∧
      match removeClient c h with
      | Ok h' => orderly r h'
      | Panic _ => False
      end
  | Broadcast _ :: _ => False
  end.

(** No queue holds more than its capacity. *)
Definition bounded (h : Hub) : Prop :=
  ∀ c, List.length (buf (chan_of h c)) <= sendCap.

(** A schedule without its successful ticks. *)
Definition isTick (a : action) : bool :=
  match a with
  | Tick true => true
  | _ => false
  end.

Definition withoutTicks (acts : list action) : list action :=
  List.filter (fun a => negb (isTick a)) acts.

(** The hub [h'] is [h] with more messages published, and nothing else. *)
Definition publishedOnly (h h' : Hub) : Prop :=
  clients h' = clients h ∧ send h' = send h ∧
  status_calls h' = status_calls h ∧ rdb_up h' = rdb_up h ∧
  onStatusChange h' = onStatusChange h ∧
  ∃ p, rdb h' = rdb h ++ p.

(** The moves on which [WritePump] returns: a ping the connection
    refuses, a frame it refuses to open or to close, or the close message
    that follows the closing of the emptied queue. *)
Definition endsPump (a : action) (st : WriteState) : bool :=
  match a, ws_pc st with
  | Tick false, Select => true
  | Step ok, Select =>
      match buf (ws_send st) with
      | _ :: _ => negb ok
      | [] => closed (ws_send st)
      end
  | Step false, Draining _ O => true
  | _, _ => false
  end.

(** What such a move still puts on the wire: the close message, when the
    connection takes it. *)
Definition lastFrames (a : action) (st : WriteState) : list frame :=
  match a, ws_pc st, buf (ws_send st) with
  | Step true, Select, [] => if closed (ws_send st) then [CloseMessage] else []
  | _, _, _ => []
  end.


(** The write sides [a] and [b] agree on everything but pings. *)
Definition sameData (a b : WriteState) : Prop :=
  ws_send a = ws_send b ∧ ws_pc a = ws_pc b ∧
  textFrames (ws_wire a) = textFrames (ws_wire b).

(** Envelopes for the scenarios. *)
Definition typingFromAlice : WSEvent :=
  {| Type_ := WSEventTyping;
     Payload := JObj [("conversation_id", uuid.MarshalJSON 5%N)] |}.

Definition readFromAlice : WSEvent :=
  {| Type_ := WSEventMessageRead;
     Payload := JObj [("conversation_id", uuid.MarshalJSON 5%N);
                      ("message_id", uuid.MarshalJSON 9%N)] |}.

Definition callToBob : WSEvent :=
  {| Type_ := WSEventCallOffer;
     Payload := JObj [("to", uuid.MarshalJSON 8%N); ("sdp", JStr "v=0")] |}.

Definition pingAsNewMessage : WSEvent :=
  {| Type_ := WSEventNewMessage; Payload := JObj [("text", JStr "hi")] |}.


Definition pingEnvelope : WSEvent :=
  {| Type_ := "ping"; Payload := JNull |}.

Definition iceToBob : WSEvent :=
  {| Type_ := WSEventCallICE;
     Payload := JObj [("to", uuid.MarshalJSON 8%N);
                      ("candidate", JStr "candidate:1 1 udp 2122260223 10.0.0.7 54321 typ host");
                      ("sdpMLineIndex", JNum "0")] |}.

(** A request of the HTTP send path: one image, no text. *)
Definition aliceUpload : service.SendMessageRequest :=
  {| service.sr_Content := "";
     service.sr_Type := "";
     service.sr_ReplyToID := None;
     service.sr_Attachments :=
       [{| service.ai_URL := "https://files/cat.png";
           service.ai_Type := "image";
           service.ai_FileName := "cat.png";
           service.ai_FileSize := 2048;
           service.ai_MimeType := "image/png" |}];
     service.sr_FileURL := "";
     service.sr_FileName := "";
     service.sr_FileSize := 0 |}.

(** The known event types. *)
Definition knownTypes : list string :=
  [WSEventNewMessage; WSEventTyping; WSEventStopTyping; WSEventMessageRead;
   WSEventCallOffer; WSEventCallAnswer; WSEventCallICE; WSEventCallHangup].

End more.

(* ===================================================================== *)
(** * The connection pumps *)
(* ===================================================================== *)

Section Pumps.
Import Json model ws spec.
Local Open Scope list_scope.

Example uuid_String_Nil :
  uuid.String uuid.Nil = "00000000-0000-0000-0000-000000000000".
Proof. reflexivity. Qed.

Example uuid_Parse_roundtrip_sample :
  uuid.Parse (uuid.String 81985529216486895%N) = Some 81985529216486895%N.
Proof. vm_compute. reflexivity. Qed.

Lemma pingPeriod_value : pingPeriod = 54000000000%Z.
Proof. reflexivity. Qed.

(** C9.  The heartbeat period is exactly 9/10 of the read-deadline window
    and so strictly inside it; from any instant on, the next probe of the
    ticker falls before a deadline set at that instant would expire; the
    pong handler sets the read deadline to a full window from the instant
    the pong is handled; the pump starts with a full window, and a pong
    that arrives in time makes the read loop go on under the deadline the
    handler set. *)
Theorem heartbeat_period_and_deadline :
  (pingPeriod * 10 = pongWait * 9)%Z ∧
  (0 < pingPeriod < pongWait)%Z ∧
  (∀ (start : Z) (elapsed : N),
      let now := (start + Z.of_N elapsed)%Z in
      ∃ k : Z, (1 <= k)%Z ∧
        (now < start + k * pingPeriod)%Z ∧
        (start + k * pingPeriod < now + pongWait)%Z) ∧
  (∀ now conn,
      readDeadline (pongHandler now conn) = (now + pongWait)%Z ∧
      readLimit (pongHandler now conn) = readLimit conn) ∧
  (∀ (S : Type) (handler : option (MessageHandler S)) c start conn s,
      readDeadline (rs_conn (ReadPump handler c start conn [] s))
      = (start + pongWait)%Z) ∧
  (∀ (S : Type) (handler : option (MessageHandler S)) c now r conn s log,
      readLoop handler c (Pong now :: r) conn s log
      = if (readDeadline conn <? now)%Z
        then {| rs_conn := conn; rs_app := s; rs_log := log;
                rs_status := Unregistered |}
        else readLoop handler c r
               (SetReadDeadline (now + pongWait) conn) s log).
Proof.
  rewrite pingPeriod_value. unfold pongWait, Second.
  split; [lia|]. split; [lia|]. split; [|split; [|split]].
  - intros start elapsed.
    exists (Z.of_N elapsed / 54000000000 + 1)%Z.
    pose proof (Z.div_mod (Z.of_N elapsed) 54000000000 ltac:(lia)) as Hdm.
    pose proof (Z.mod_pos_bound (Z.of_N elapsed) 54000000000 ltac:(lia)) as Hb.
    assert (0 <= Z.of_N elapsed / 54000000000)%Z by (apply Z.div_pos; lia).
    repeat split; lia.
  - intros now conn. split; reflexivity.
  - intros S handler c start conn s. reflexivity.
  - intros S handler c now r conn s log. reflexivity.
Qed.





Lemma textFrames_app w1 w2 :
  textFrames (w1 ++ w2) = textFrames w1 ++ textFrames w2.
Proof.
  induction w1 as [|[d| |] w1 IH]; simpl; [done| |done|done].
  by rewrite IH.
Qed.





Lemma WritePump_cons a acts sh :
  WritePump (a :: acts) sh = WritePump acts (writeStepH a sh).
Proof. reflexivity. Qed.

Lemma drain_steps q w cl wire hist :
  fst (WritePump (repeat (Step true) (S (List.length q)))
         ({| ws_send := {| buf := q; closed := cl |};
             ws_pc := Draining w (List.length q); ws_wire := wire |}, hist))
  = {| ws_send := {| buf := []; closed := cl |}; ws_pc := Select;
       ws_wire := wire ++ [TextMessage
                     (fold_left (fun w m => (w ++ newline ++ m)%string) q w)] |}.
Proof.
  revert w. induction q as [|m q IH]; intros w; [done|].
  change (repeat (Step true) (S (List.length (m :: q))))
    with (Step true :: repeat (Step true) (S (List.length q))).
  rewrite WritePump_cons.
  change (writeStepH (Step true)
            ({| ws_send := {| buf := m :: q; closed := cl |};
                ws_pc := Draining w (List.length (m :: q)); ws_wire := wire |}, hist))
    with ({| ws_send := {| buf := q; closed := cl |};
             ws_pc := Draining (w ++ newline ++ m)%string (List.length q);
             ws_wire := wire |}, hist).
  apply IH.
Qed.

Lemma coalesce_fold m q :
  fold_left (fun w m => (w ++ newline ++ m)%string) q m = coalesce m q.
Proof. revert m. induction q as [|x q IH]; intros m; simpl; [done|apply IH]. Qed.

Lemma writePump_flushes m q cl wire hist :
  fst (WritePump (repeat (Step true) (3 + List.length q))
         ({| ws_send := {| buf := m :: q; closed := cl |};
             ws_pc := Select; ws_wire := wire |}, hist))
  = {| ws_send := {| buf := []; closed := cl |}; ws_pc := Select;
       ws_wire := wire ++ [TextMessage (coalesce m q)] |}.
Proof.
  change (repeat (Step true) (3 + List.length q))
    with (Step true :: Step true :: repeat (Step true) (S (List.length q))).
  rewrite !WritePump_cons.
  change (writeStepH (Step true) (writeStepH (Step true)
            ({| ws_send := {| buf := m :: q; closed := cl |};
                ws_pc := Select; ws_wire := wire |}, hist)))
    with ({| ws_send := {| buf := q; closed := cl |};
             ws_pc := Draining m (List.length q); ws_wire := wire |}, hist).
  rewrite drain_steps. by rewrite coalesce_fold.
Qed.

(** A closed queue ends the write side: the pump writes what is still
    queued, then the close message, and returns. *)
Lemma closed_queue_ends_writePump m q wire hist :
  fst (WritePump (repeat (Step true) (3 + List.length q) ++ [Step true])
         ({| ws_send := {| buf := m :: q; closed := true |};
             ws_pc := Select; ws_wire := wire |}, hist))
  = {| ws_send := {| buf := []; closed := true |}; ws_pc := Returned;
       ws_wire := wire ++ [TextMessage (coalesce m q); CloseMessage] |}.
Proof.
  unfold WritePump. rewrite fold_left_app.
  pose proof (writePump_flushes m q true wire hist) as Hflush.
  unfold WritePump in Hflush.
  destruct (fold_left _ (repeat (Step true) (3 + List.length q)) _)
    as [st hist'] eqn:Hrun.
  simpl in Hflush. subst st. simpl. unfold pumpStep; simpl. by rewrite <- app_assoc.
Qed.


Example writePump_three_events :
  ws_wire (fst (WritePump
     [Enqueue "e1"; Enqueue "e2"; Enqueue "e3";
      Step true; Step true; Step true; Step true; Step true]
     (writeStart, [])))
  = [TextMessage ("e1" ++ newline ++ "e2" ++ newline ++ "e3")%string].
Proof. reflexivity. Qed.

Example writePump_two_frames :
  ws_wire (fst (WritePump
     [Enqueue "e1"; Step true; Enqueue "e2"; Step true; Step true; Step true;
      Enqueue "e3"; Step true; Step true; Step true]
     (writeStart, [])))
  = [TextMessage ("e1" ++ newline ++ "e2")%string; TextMessage "e3"].
Proof. reflexivity. Qed.

End Pumps.

(* ===================================================================== *)
(** * The registry *)
(* ===================================================================== *)

Section Registry.
Import Json model ws spec.
Local Open Scope list_scope.

Lemma foldM_app {A S : Type} (f : A → S → result S) l1 l2 s :
  foldM f (l1 ++ l2) s = foldM f l1 s ≫= foldM f l2.
Proof.
  revert s. induction l1 as [|x l1 IH]; intros s; simpl; [done|].
  destruct (f x s) as [s'|m]; simpl; [apply IH|done].
Qed.

Lemma foldM_map {A B S : Type} (g : A → B) (f : B → S → result S) l s :
  foldM f (List.map g l) s = foldM (fun a => f (g a)) l s.
Proof.
  revert s. induction l as [|x l IH]; intros s; simpl; [done|].
  destruct (f (g x) s) as [s'|m]; simpl; [apply IH|done].
Qed.

Lemma chan_of_with_send h s c :
  chan_of (with_send s h) c = default make_chan (s !! c).
Proof. reflexivity. Qed.

Lemma chan_of_with_clients h m c :
  chan_of (with_clients m h) c = chan_of h c.
Proof. reflexivity. Qed.

Lemma isFull_length ch :
  isFull ch = true ↔ sendCap <= List.length (buf ch).
Proof.
  unfold isFull. destruct (Nat.ltb_spec (List.length (buf ch)) sendCap);
    simpl; split; intros; try done; lia.
Qed.

Lemma trySend_open u d c h :
  closed (chan_of h c) = false → trySend u d c h = Ok (sent u d c h).
Proof.
  intros Hc. unfold trySend, sent, pushed, isFull, chan_close. rewrite Hc.
  destruct (List.length (buf (chan_of h c)) <? sendCap)%nat; done.
Qed.

Lemma trySend_closed u d c h :
  closed (chan_of h c) = true →
  trySend u d c h = Panic "send on closed channel".
Proof. intros Hc. unfold trySend. by rewrite Hc. Qed.

Lemma sent_chan_eq u d c h :
  chan_of (sent u d c h) c = pushed d (chan_of h c).
Proof.
  unfold sent. destruct (isFull (chan_of h c));
    rewrite ?chan_of_with_clients, chan_of_with_send, lookup_insert_eq; done.
Qed.

Lemma sent_chan_ne u d c c' h :
  c' ≠ c → chan_of (sent u d c h) c' = chan_of h c'.
Proof.
  intros Hne. unfold sent. destruct (isFull (chan_of h c));
    rewrite ?chan_of_with_clients, chan_of_with_send, lookup_insert_ne; done.
Qed.

Lemma sent_keys u d c h u' :
  is_Some (clients (sent u d c h) !! u') ↔ is_Some (clients h !! u').
Proof.
  unfold sent. destruct (isFull (chan_of h c)); simpl; [|done].
  rewrite lookup_alter. case_decide; [subst|done].
  destruct (clients h !! u'); simpl; split; intros [? ?]; eauto; done.
Qed.

Lemma sent_registered u d c h u' c' :
  registered (sent u d c h) u' c' ↔
  registered h u' c' ∧ ¬ (u' = u ∧ c' = c ∧ isFull (chan_of h c) = true).
Proof.
  unfold sent, registered. destruct (isFull (chan_of h c)) eqn:Hf; simpl.
  - rewrite lookup_alter. case_decide as Hu.
    + subst u'. destruct (clients h !! u) as [cs|]; simpl.
      * split.
        -- intros (cs' & [= <-] & Hin). split; [exists cs; set_solver|].
           intros (_ & -> & _). set_solver.
        -- intros [(cs' & [= <-] & Hin) Hn].
           exists (cs ∖ {[c]}). split; [done|].
           apply elem_of_difference. split; [done|].
           intros ->%elem_of_singleton. apply Hn. done.
      * split; [intros (? & ? & ?); done|intros [(? & ? & ?) _]; done].
    + split; [intros H; split; [done|intros (-> & _); done]|intros [H _]; done].
  - split; [intros H; split; [done|intros (_ & _ & ?); done]|intros [H _]; done].
Qed.

Lemma sent_rdb u d c h :
  rdb (sent u d c h) = rdb h ∧ status_calls (sent u d c h) = status_calls h.
Proof. unfold sent. destruct (isFull (chan_of h c)); done. Qed.

Lemma deliverAll_cons d p ps h :
  deliverAll d (p :: ps) h = trySend (fst p) d (snd p) h ≫= deliverAll d ps.
Proof. reflexivity. Qed.

(** The delivery loop over connections that are pairwise distinct and
    whose queues are open returns, and leaves the hub [delivered]. *)
Lemma deliverAll_spec d ps : ∀ h,
  NoDup ps.*2 →
  (∀ u c, (u, c) ∈ ps → closed (chan_of h c) = false) →
  ∃ h', deliverAll d ps h = Ok h' ∧ delivered d ps h h'.
Proof.
  induction ps as [|[u0 c0] ps IH]; intros h Hnd Hopen.
  - exists h. split; [done|]. unfold delivered.
    repeat split; try done; try set_solver.
  - apply NoDup_cons in Hnd as [Hc0 Hnd]. simpl in Hc0.
    rewrite deliverAll_cons; simpl.
    rewrite trySend_open by (apply (Hopen u0); left).
    set (h1 := sent u0 d c0 h).
    destruct (IH h1 Hnd) as (h' & Hrun & Ha & Hb & Hk & Hr & Hrdb & Hst).
    { intros u c Hin. unfold h1. rewrite sent_chan_ne.
      - apply (Hopen u). by right.
      - intros ->. apply Hc0. apply list_elem_of_fmap. by exists (u, c0). }
    exists h'. split; [done|].
    assert (∀ u c, (u, c) ∈ ps → c ≠ c0) as Hne.
    { intros u c Hin ->. apply Hc0. apply list_elem_of_fmap. by exists (u, c0). }
    unfold delivered.
    refine (conj _ (conj _ (conj _ (conj _ (conj _ _))))).
    + intros c Hc. rewrite Ha by set_solver.
      unfold h1. apply sent_chan_ne. set_solver.
    + intros u c [[= -> ->]|Hin]%elem_of_cons.
      * rewrite Ha by done. apply sent_chan_eq.
      * rewrite (Hb u c Hin). unfold h1. rewrite sent_chan_ne; [done|]. eauto.
    + intros u. rewrite Hk. apply sent_keys.
    + intros u c. rewrite Hr. unfold h1. rewrite sent_registered. split.
      * intros [[H0 Hn0] Hn1]. split; [done|].
        intros [[[= -> ->]|Hin]%elem_of_cons Hf].
        -- by apply Hn0.
        -- apply Hn1. split; [done|]. rewrite sent_chan_ne; [done|]. eauto.
      * intros [H0 Hn]. split; [split; [done|]|].
        -- intros (-> & -> & Hf). apply Hn. split; [left|]; done.
        -- intros [Hin Hf]. apply Hn. split; [by right|].
           rewrite sent_chan_ne in Hf; [done|]. eauto.
    + rewrite Hrdb. apply sent_rdb.
    + rewrite Hst. apply sent_rdb.
Qed.

Lemma sendToLocalUser_deliverAll u ev h cs :
  clients h !! u = Some cs →
  sendToLocalUser u ev h
  = deliverAll (Marshal_WSEvent_ptr ev) (pairsOf (u, cs)) h.
Proof.
  intros Hu. unfold sendToLocalUser, deliverAll, pairsOf. rewrite Hu.
  by rewrite foldM_map.
Qed.

Lemma deliverAll_app d ps1 ps2 h :
  deliverAll d (ps1 ++ ps2) h = deliverAll d ps1 h ≫= deliverAll d ps2.
Proof. apply foldM_app. Qed.

Lemma broadcast_flat d (L : list (uuid.UUID * gset ptr)) h :
  foldM (fun ucs h' => foldM (trySend (fst ucs) d) (elements (snd ucs)) h') L h
  = deliverAll d (flat_map pairsOf L) h.
Proof.
  revert h. induction L as [|ucs L IH]; intros h; simpl; [done|].
  rewrite deliverAll_app.
  replace (foldM (trySend ucs.1 d) (elements ucs.2) h)
    with (deliverAll d (pairsOf ucs) h)
    by (unfold deliverAll, pairsOf; by rewrite foldM_map).
  destruct (deliverAll d (pairsOf ucs) h); simpl; [apply IH|done].
Qed.

Lemma broadcastToLocal_deliverAll ev h :
  broadcastToLocal ev h
  = deliverAll (Marshal_WSEvent_ptr ev)
      (flat_map pairsOf (map_to_list (clients h))) h.
Proof. apply broadcast_flat. Qed.

Lemma elem_of_pairsOf u c ucs :
  (u, c) ∈ pairsOf ucs ↔ u = fst ucs ∧ c ∈ snd ucs.
Proof.
  unfold pairsOf. rewrite list_elem_of_fmap. split.
  - intros (c' & [= -> ->] & Hin). split; [done|]. by apply elem_of_elements.
  - intros [-> Hin]. exists c. split; [done|]. by apply elem_of_elements.
Qed.

Lemma elem_of_allPairs h u c :
  (u, c) ∈ flat_map pairsOf (map_to_list (clients h)) ↔ registered h u c.
Proof.
  rewrite list_elem_of_In, in_flat_map. unfold registered. split.
  - intros ([u' cs] & Hin & Hp). apply list_elem_of_In in Hin, Hp.
    apply elem_of_pairsOf in Hp as [-> Hc]. simpl in *.
    apply elem_of_map_to_list in Hin. eauto.
  - intros (cs & Hu & Hc). exists (u, cs). split; apply list_elem_of_In.
    + by apply elem_of_map_to_list.
    + by apply elem_of_pairsOf.
Qed.

Lemma pairsOf_snd ucs : (pairsOf ucs).*2 = elements (snd ucs).
Proof.
  unfold pairsOf. induction (elements ucs.2) as [|x l IH]; [done|].
  simpl. f_equal. exact IH.
Qed.

Lemma NoDup_allPairs (L : list (uuid.UUID * gset ptr)) :
  NoDup L.*1 →
  (∀ u1 cs1 u2 cs2 c, (u1, cs1) ∈ L → (u2, cs2) ∈ L →
                      c ∈ cs1 → c ∈ cs2 → u1 = u2) →
  NoDup (flat_map pairsOf L).*2.
Proof.
  induction L as [|[u cs] L IH]; intros Hnd Hone; simpl; [constructor|].
  apply NoDup_cons in Hnd as [Hu Hnd].
  rewrite fmap_app, pairsOf_snd. simpl. apply NoDup_app. split; [|split].
  - apply NoDup_elements.
  - intros c Hc Hc'. apply elem_of_elements in Hc.
    apply list_elem_of_fmap in Hc' as ([u' c'] & -> & Hin). simpl in *.
    apply list_elem_of_In, in_flat_map in Hin as ([u2 cs2] & Hin2 & Hp).
    apply list_elem_of_In in Hin2, Hp.
    apply elem_of_pairsOf in Hp as [-> Hc2]. simpl in *.
    assert (u = u2) as <-.
    { apply (Hone u cs u2 cs2 c'); [left|by right|done|done]. }
    apply Hu. apply list_elem_of_fmap. by exists (u, cs2).
  - apply IH; [done|]. intros u1 cs1 u2 cs2 c H1 H2.
    apply (Hone u1 cs1 u2 cs2 c); by right.
Qed.

Lemma wf_NoDup_allPairs h :
  wf h → NoDup (flat_map pairsOf (map_to_list (clients h))).*2.
Proof.
  intros [_ Hone]. apply NoDup_allPairs.
  - apply NoDup_fst_map_to_list.
  - intros u1 cs1 u2 cs2 c H1%elem_of_map_to_list H2%elem_of_map_to_list Hc1 Hc2.
    apply (Hone u1 u2 c); [by exists cs1|by exists cs2].
Qed.

(** A delivery to a user of a well-formed hub returns. *)
Lemma sendToLocalUser_spec u ev h cs :
  wf h → clients h !! u = Some cs →
  ∃ h', sendToLocalUser u ev h = Ok h' ∧
        delivered (Marshal_WSEvent_ptr ev) (pairsOf (u, cs)) h h'.
Proof.
  intros [Hopen _] Hu. rewrite (sendToLocalUser_deliverAll u ev h cs Hu).
  apply deliverAll_spec.
  - rewrite pairsOf_snd. apply NoDup_elements.
  - intros u' c [-> Hc]%elem_of_pairsOf. apply (Hopen u). by exists cs.
Qed.

(** A broadcast over a well-formed hub returns. *)
Lemma broadcastToLocal_spec ev h :
  wf h →
  ∃ h', broadcastToLocal ev h = Ok h' ∧
        delivered (Marshal_WSEvent_ptr ev)
          (flat_map pairsOf (map_to_list (clients h))) h h'.
Proof.
  intros Hwf. rewrite broadcastToLocal_deliverAll.
  apply deliverAll_spec.
  - by apply wf_NoDup_allPairs.
  - intros u c Hin%elem_of_allPairs. destruct Hwf as [Hopen _]. by apply (Hopen u).
Qed.

End Registry.


(* ===================================================================== *)
(** * The control path on its own *)
(* ===================================================================== *)

Section ControlPath.
Import Json model ws spec.
Local Open Scope list_scope.

Lemma wf_NewHub up cb : wf (NewHub up cb) ∧ tidy (NewHub up cb).
Proof.
  split; [split|]; unfold registered, tidy; simpl.
  - intros u c (cs & Hu & _). by rewrite lookup_empty in Hu.
  - intros u1 u2 c (cs & Hu & _). by rewrite lookup_empty in Hu.
  - intros u cs Hu. by rewrite lookup_empty in Hu.
Qed.

Lemma addClient_clients c h :
  clients (addClient c h)
  = <[UserID c := default ∅ (clients h !! UserID c) ∪ {[addr c]}]> (clients h).
Proof.
  unfold addClient. destruct (clients h !! UserID c) as [cs|] eqn:Hu; simpl.
  - apply map_eq. intros u. rewrite lookup_alter, lookup_insert.
    case_decide; [subst; by rewrite Hu|done].
  - assert (clients (publishToRedis (Marshal_WSEvent (presenceEvent (UserID c) true))
              (notifyStatus (UserID c) true
                 (with_clients (<[UserID c:=∅]> (clients h)) h)))
            = <[UserID c:=∅]> (clients h)) as ->.
    { unfold publishToRedis, notifyStatus. simpl.
      destruct (onStatusChange h); simpl; destruct (rdb_up h); done. }
    apply map_eq. intros u. rewrite lookup_alter, lookup_insert_eq, !lookup_insert.
    case_decide; done.
Qed.

Lemma addClient_send c h : ∀ x, chan_of (addClient c h) x = chan_of h x.
Proof.
  intros x. unfold addClient, chan_of.
  destruct (clients h !! UserID c); simpl; [done|].
  unfold publishToRedis, notifyStatus. simpl.
  destruct (onStatusChange h); simpl; destruct (rdb_up h); done.
Qed.

Lemma addClient_registered c h u x :
  registered (addClient c h) u x ↔
  registered h u x ∨ (u = UserID c ∧ x = addr c).
Proof.
  unfold registered. rewrite addClient_clients. split.
  - intros (cs & Hu & Hx). rewrite lookup_insert in Hu.
    case_decide as Heq.
    + subst u. injection Hu as <-.
      apply elem_of_union in Hx as [Hx|Hx%elem_of_singleton]; [|by right].
      left. destruct (clients h !! UserID c) as [cs|]; [by exists cs|set_solver].
    + left. by exists cs.
  - intros [(cs & Hu & Hx)|[-> ->]].
    + destruct (decide (UserID c = u)) as [<-|Hne].
      * rewrite lookup_insert_eq, Hu. eexists. split; [done|]. set_solver.
      * rewrite lookup_insert_ne by done. by exists cs.
    + rewrite lookup_insert_eq. eexists. split; [done|]. set_solver.
Qed.

(** Connect keeps the hub well-formed and tidy, for a connection that is
    new to the table. *)
Lemma addClient_wf c h :
  wf h → tidy h →
  closed (chan_of h (addr c)) = false →
  (∀ u, ¬ registered h u (addr c)) →
  wf (addClient c h) ∧ tidy (addClient c h).
Proof.
  intros [Hopen Hone] Htidy Hc Hnew. split; [split|].
  - intros u x [Hr|[-> ->]]%addClient_registered; rewrite addClient_send;
      [by apply (Hopen u)|done].
  - intros u1 u2 x [H1|[-> ->]]%addClient_registered
      [H2|[-> Hx]]%addClient_registered; subst; try done.
    + by apply (Hone u1 u2 x).
    + by destruct (Hnew u1).
    + by destruct (Hnew u2).
  - intros u cs. rewrite addClient_clients, lookup_insert.
    case_decide; [intros [= <-]; set_solver|apply Htidy].
Qed.

(** Disconnect of a connection in the table returns and keeps the hub
    well-formed and tidy. *)
Lemma removeClient_wf c h :
  wf h → tidy h → registered h (UserID c) (addr c) →
  ∃ h', removeClient c h = Ok h' ∧ wf h' ∧ tidy h' ∧
        ∀ u, ¬ registered h' u (addr c).
Proof.
  intros [Hopen Hone] Htidy Hreg. pose proof Hreg as (cs & Hu & Hc).
  unfold removeClient. rewrite Hu. rewrite chan_of_with_clients.
  unfold chan_close. rewrite (Hopen _ _ Hreg). simpl.
  set (ch := {| buf := buf (chan_of h (addr c)); closed := true |}).
  assert (∀ h1 : Hub,
    send h1 = <[addr c := ch]> (send h) →
    clients h1 = (if (size (cs ∖ {[addr c]}) =? 0)%nat
                  then delete (UserID c) (clients h)
                  else <[UserID c := cs ∖ {[addr c]}]> (clients h)) →
    wf h1 ∧ tidy h1 ∧ ∀ u, ¬ registered h1 u (addr c)) as Hgen.
  { intros h1 Hs Hcl.
    assert (∀ u x, registered h1 u x →
                   registered h u x ∧ x ≠ addr c) as Hsub.
    { intros u x (cs1 & Hu1 & Hx). rewrite Hcl in Hu1.
      destruct (size (cs ∖ {[addr c]}) =? 0)%nat.
      - apply lookup_delete_Some in Hu1 as [Hne Hu1].
        split; [by exists cs1|]. intros ->.
        apply Hne. apply (Hone _ _ (addr c)); [done|by exists cs1].
      - rewrite lookup_insert in Hu1. case_decide as Heq.
        + subst u. injection Hu1 as <-. split; [exists cs; set_solver|set_solver].
        + split; [by exists cs1|]. intros ->.
          apply Heq. apply (Hone _ _ (addr c)); [done|by exists cs1]. }
    split; [split|split].
    - intros u x [Hr Hne]%Hsub. unfold chan_of. rewrite Hs.
      rewrite lookup_insert_ne by done. by apply (Hopen u).
    - intros u1 u2 x [H1 _]%Hsub [H2 _]%Hsub. by apply (Hone u1 u2 x).
    - intros u cs1 Hu1. rewrite Hcl in Hu1.
      destruct (size (cs ∖ {[addr c]}) =? 0)%nat eqn:Hsz.
      + apply lookup_delete_Some in Hu1 as [_ Hu1]. by apply (Htidy u).
      + rewrite lookup_insert in Hu1. case_decide.
        * injection Hu1 as <-. intros Hemp. rewrite Hemp, size_empty in Hsz.
          done.
        * by apply (Htidy u).
    - intros u [_ Hne]%Hsub. done. }
  destruct (size (cs ∖ {[addr c]}) =? 0)%nat eqn:Hsz; eexists; (split; [done|]);
    apply Hgen.
  - unfold publishToRedis, notifyStatus. simpl.
    destruct (onStatusChange h); simpl; destruct (rdb_up h); done.
  - unfold publishToRedis, notifyStatus. simpl.
    destruct (onStatusChange h); simpl; destruct (rdb_up h); simpl;
      by rewrite delete_insert_eq.
  - done.
  - done.
Qed.

(** On a tidy hub presence is "has a connection". *)
Lemma tidy_online h u :
  tidy h → (IsUserOnline u h = true ↔ 0 < connCount u h).
Proof.
  intros Htidy. unfold IsUserOnline, connCount.
  destruct (clients h !! u) as [cs|] eqn:Hu; [|split; [done|lia]].
  split; [|done]. intros _.
  destruct (decide (size cs = 0)) as [Hz%size_empty_iff|]; [|lia].
  destruct (Htidy u cs Hu). by apply leibniz_equiv.
Qed.

(** Deliveries keep the hub well-formed (but not tidy). *)
Lemma delivered_wf d ps h h' :
  wf h → (∀ u c, (u, c) ∈ ps → registered h u c) →
  delivered d ps h h' → wf h'.
Proof.
  intros [Hopen Hone] Hps (Ha & Hb & _ & Hr & _). split.
  - intros u c [Hreg Hn]%Hr.
    destruct (decide (c ∈ ps.*2)) as [Hin|Hout].
    + apply list_elem_of_fmap in Hin as ([u' c'] & -> & Hin). simpl in *.
      rewrite (Hb u' c' Hin). unfold pushed.
      destruct (isFull (chan_of h c')) eqn:Hf; [|done].
      destruct Hn. split; [|done].
      by rewrite (Hone u u' c' Hreg (Hps _ _ Hin)).
    + rewrite (Ha c Hout). by apply (Hopen u).
  - intros u1 u2 c [H1 _]%Hr [H2 _]%Hr. by apply (Hone u1 u2 c).
Qed.

Lemma sendToLocalUser_wf u ev h :
  wf h → ∃ h', sendToLocalUser u ev h = Ok h' ∧ wf h'.
Proof.
  intros Hwf. destruct (clients h !! u) as [cs|] eqn:Hu.
  - destruct (sendToLocalUser_spec u ev h cs Hwf Hu) as (h' & Hrun & Hd).
    exists h'. split; [done|]. eapply delivered_wf; [exact Hwf| |exact Hd].
    intros u' c [-> Hc]%elem_of_pairsOf. by exists cs.
  - exists h. unfold sendToLocalUser. by rewrite Hu.
Qed.

Lemma broadcastToLocal_wf ev h :
  wf h → ∃ h', broadcastToLocal ev h = Ok h' ∧ wf h'.
Proof.
  intros Hwf. destruct (broadcastToLocal_spec ev h Hwf) as (h' & Hrun & Hd).
  exists h'. split; [done|]. eapply delivered_wf; [exact Hwf| |exact Hd].
  intros u c Hin. by apply elem_of_allPairs.
Qed.

End ControlPath.

(* ===================================================================== *)
(** * Overflow of an outbound queue *)
(* ===================================================================== *)

Section Overflow.
Import Json model ws spec.
Local Open Scope list_scope.

Lemma pushed_full d ch :
  List.length (buf ch) = sendCap →
  pushed d ch = {| buf := buf ch; closed := true |}.
Proof. intros Hl. unfold pushed, isFull. rewrite Hl. reflexivity. Qed.

Lemma delivered_drops d ps h h' u c :
  wf h → delivered d ps h h' → registered h u c → (u, c) ∈ ps →
  List.length (buf (chan_of h c)) = sendCap →
  closed (chan_of h' c) = true ∧
  buf (chan_of h' c) = buf (chan_of h c) ∧
  ∀ u', ¬ registered h' u' c.
Proof.
  intros [_ Hone] (_ & Hb & _ & Hr & _) Hreg Hin Hlen.
  rewrite (Hb u c Hin), (pushed_full d _ Hlen). split; [done|]. split; [done|].
  intros u' [Hreg' Hn]%Hr. apply Hn.
  rewrite (Hone u' u c Hreg' Hreg). split; [done|].
  apply isFull_length. lia.
Qed.

(** C6.  When a connection in the table holds 256 undelivered events, a
    further delivery, to its user or as a broadcast, returns (the send
    does not block), leaves the 256 queued events as they are, closes the
    connection's queue and takes the connection out of the table. *)
Theorem full_queue_disconnects h u c ev :
  wf h → registered h u c → List.length (buf (chan_of h c)) = sendCap →
  (∃ h', sendToLocalUser u ev h = Ok h' ∧
         closed (chan_of h' c) = true ∧
         buf (chan_of h' c) = buf (chan_of h c) ∧
         ∀ u', ¬ registered h' u' c) ∧
  (∃ h', broadcastToLocal ev h = Ok h' ∧
         closed (chan_of h' c) = true ∧
         buf (chan_of h' c) = buf (chan_of h c) ∧
         ∀ u', ¬ registered h' u' c).
Proof.
  intros Hwf Hreg Hlen. split.
  - destruct Hreg as (cs & Hu & Hc).
    destruct (sendToLocalUser_spec u ev h cs Hwf Hu) as (h' & Hrun & Hd).
    exists h'. split; [done|].
    apply (delivered_drops _ _ h h' u c Hwf Hd); [by exists cs| |done].
    by apply elem_of_pairsOf.
  - destruct (broadcastToLocal_spec ev h Hwf) as (h' & Hrun & Hd).
    exists h'. split; [done|].
    apply (delivered_drops _ _ h h' u c Hwf Hd); [done| |done].
    by apply elem_of_allPairs.
Qed.


(** The overflow in general: on a well-formed hub, once a delivery has
    found the queue of a registered connection full, that connection's
    own Disconnect panics. *)
Lemma overflow_then_removeClient_panics h c ev :
  wf h → registered h (UserID c) (addr c) →
  List.length (buf (chan_of h (addr c))) = sendCap →
  ∃ h', sendToLocalUser (UserID c) ev h = Ok h' ∧
        removeClient c h' = Panic "close of closed channel".
Proof.
  intros Hwf Hreg Hlen. pose proof Hreg as (cs & Hu & Hc).
  destruct (sendToLocalUser_spec _ ev h cs Hwf Hu)
    as (h' & Hrun & Hd).
  exists h'. split; [done|].
  destruct (delivered_drops _ _ h h' _ _ Hwf Hd Hreg) as (Hcl & _); [|done|].
  { by apply elem_of_pairsOf. }
  destruct Hd as (_ & _ & Hk & _).
  destruct (proj2 (Hk (UserID c))) as [cs' Hu']; [by exists cs|].
  unfold removeClient. rewrite Hu'.
  rewrite chan_of_with_clients. unfold chan_close. by rewrite Hcl.
Qed.

(** ... and when it was the user's only connection, the user's entry
    stays in the table with no connection in it. *)
Lemma overflow_keeps_entry h u c ev :
  wf h → clients h !! u = Some {[ c ]} →
  List.length (buf (chan_of h c)) = sendCap →
  ∃ h', sendToLocalUser u ev h = Ok h' ∧
        IsUserOnline u h' = true ∧ connCount u h' = 0.
Proof.
  intros Hwf Hu Hlen.
  destruct (sendToLocalUser_spec u ev h _ Hwf Hu) as (h' & Hrun & Hd).
  exists h'. split; [done|].
  destruct Hd as (_ & _ & Hk & Hr & _).
  destruct (proj2 (Hk u)) as [cs' Hu']; [by eexists|].
  unfold IsUserOnline, connCount. rewrite Hu'. split; [done|].
  assert (cs' = ∅) as ->; [|apply size_empty].
  apply set_eq. intros x. split; [|set_solver].
  intros Hx. exfalso.
  assert (registered h' u x) as [[cs0 [Hu0 Hx0]] Hn]%Hr by (by exists cs').
  rewrite Hu in Hu0. injection Hu0 as <-. apply elem_of_singleton in Hx0 as ->.
  apply Hn. split.
  - apply elem_of_pairsOf. simpl. split; [done|]. by apply elem_of_singleton.
  - apply isFull_length. lia.
Qed.

(** What the control path does fire: [addClient] notifies exactly when the
    user has no entry, [removeClient] exactly when the entry it finds is
    left without connections. *)
Lemma addClient_status c h :
  status_calls (addClient c h)
  = status_calls h ++
    (if IsUserOnline (UserID c) h then []
     else if onStatusChange h then [(UserID c, true)] else []).
Proof.
  unfold addClient, IsUserOnline.
  destruct (clients h !! UserID c); simpl; [by rewrite app_nil_r|].
  unfold publishToRedis, notifyStatus. simpl.
  destruct (onStatusChange h); simpl; destruct (rdb_up h); simpl;
    by rewrite ?app_nil_r.
Qed.

Lemma removeClient_status c h cs :
  clients h !! UserID c = Some cs → closed (chan_of h (addr c)) = false →
  ∃ h', removeClient c h = Ok h' ∧
        status_calls h'
        = status_calls h ++
          (if (size (cs ∖ {[addr c]}) =? 0)%nat
           then if onStatusChange h then [(UserID c, false)] else []
           else []).
Proof.
  intros Hu Hcl. unfold removeClient. rewrite Hu.
  rewrite chan_of_with_clients. unfold chan_close. rewrite Hcl. simpl.
  destruct (size (cs ∖ {[addr c]}) =? 0)%nat; eexists; (split; [done|]).
  - unfold publishToRedis, notifyStatus; simpl.
    destruct (onStatusChange h); simpl; destruct (rdb_up h); simpl;
      by rewrite ?app_nil_r.
  - simpl. by rewrite app_nil_r.
Qed.

Lemma stalledHub_clients : clients stalledHub = {[ 7%N := {[ 1%positive ]} ]}.
Proof. vm_compute. reflexivity. Qed.

Lemma stalledHub_registered u c :
  registered stalledHub u c ↔ u = 7%N ∧ c = 1%positive.
Proof.
  unfold registered. rewrite stalledHub_clients. split.
  - intros (cs & [-> <-]%lookup_singleton_Some & ->%elem_of_singleton). done.
  - intros [-> ->]. exists {[ 1%positive ]}.
    split; [apply lookup_singleton_eq|by apply elem_of_singleton].
Qed.

Lemma stalledHub_wf : wf stalledHub.
Proof.
  split.
  - intros u c [-> ->]%stalledHub_registered. vm_compute. reflexivity.
  - intros u1 u2 c [-> _]%stalledHub_registered [-> _]%stalledHub_registered.
    reflexivity.
Qed.

Lemma full_queue_disconnects_witness :
  (wf stalledHub ∧ registered stalledHub 7%N 1%positive ∧
   List.length (buf (chan_of stalledHub 1%positive)) = sendCap) ∧
  (∃ h', sendToLocalUser 7%N (Some typingFromBob) stalledHub = Ok h' ∧
         closed (chan_of h' 1%positive) = true ∧
         buf (chan_of h' 1%positive) = buf (chan_of stalledHub 1%positive) ∧
         ∀ u', ¬ registered h' u' 1%positive) ∧
  (∃ h', broadcastToLocal (Some typingFromBob) stalledHub = Ok h' ∧
         closed (chan_of h' 1%positive) = true ∧
         buf (chan_of h' 1%positive) = buf (chan_of stalledHub 1%positive) ∧
         ∀ u', ¬ registered h' u' 1%positive).
Proof.
  assert (registered stalledHub 7%N 1%positive) as Hreg
    by (apply stalledHub_registered; split; reflexivity).
  assert (List.length (buf (chan_of stalledHub 1%positive)) = sendCap) as Hlen
    by (vm_compute; reflexivity).
  split; [split; [exact stalledHub_wf|split; assumption]|].
  exact (full_queue_disconnects stalledHub 7%N 1%positive (Some typingFromBob)
           stalledHub_wf Hreg Hlen).
Defined.

(** C3, at the failing input.  After the delivery that overflows the
    queue of Alice's only connection, the table holds no connection for
    Alice, and [IsUserOnline] still answers true. *)
Theorem overflow_leaves_user_online :
  match overflowed with
  | Ok h => connCount 7%N h = 0 ∧ IsUserOnline 7%N h = true
  | Panic _ => False
  end.
Proof. vm_compute. split; reflexivity. Qed.

(** C2, at the failing input.  After that same delivery, the connection's
    own Disconnect makes the control loop close the queue a second time:
    [Run] panics. *)
Theorem overflow_then_disconnect_panics :
  overflowed ≫= Run [Unregister alice] = Panic "close of closed channel".
Proof. vm_compute. reflexivity. Qed.

(** C5, at the failing input.  Alice's connection set goes from one
    connection to none through the overflow, and from none to one through
    the next Connect; neither transition calls the presence callback or
    publishes a presence event. *)
Theorem overflow_transitions_fire_nothing :
  connCount 7%N stalledHub = 1 ∧
  match overflowed with
  | Ok h =>
      connCount 7%N h = 0 ∧
      status_calls h = status_calls stalledHub ∧ rdb h = rdb stalledHub ∧
      connCount 7%N (addClient alice2 h) = 1 ∧
      status_calls (addClient alice2 h) = status_calls stalledHub ∧
      rdb (addClient alice2 h) = rdb stalledHub
  | Panic _ => False
  end.
Proof. vm_compute. repeat split; reflexivity. Qed.

(** C4, on the presence path.  The message [addClient] and [removeClient]
    publish is a bare event, not a targeted one: decoded by the
    subscriber it has the nil target and no event, so the subscriber of
    any process delivers it to nobody and leaves its hub as it was. *)
Theorem presence_event_is_not_delivered :
  rdb (addClient alice (NewHub true true))
  = [Marshal_WSEvent (presenceEvent 7%N true)] ∧
  ∀ u online h,
    Unmarshal_TargetedEvent (Text (Marshal_WSEvent (presenceEvent u online)))
    = Some {| TargetUserID := uuid.Nil; Event := None |} ∧
    onRedisMessage (Text (Marshal_WSEvent (presenceEvent u online))) h = Ok h.
Proof.
  split; [vm_compute; reflexivity|].
  intros u online h.
  assert (Unmarshal_TargetedEvent
            (Text (Marshal_WSEvent (presenceEvent u online)))
          = Some {| TargetUserID := uuid.Nil; Event := None |}) as Hd
    by reflexivity.
  split; [exact Hd|]. unfold onRedisMessage. rewrite Hd. reflexivity.
Qed.

Example presence_event_reaches_nobody :
  subscribeRedis (List.map Text (rdb bothOnline)) bothOnline
  = Ok bothOnline.
Proof. vm_compute. reflexivity. Qed.

End Overflow.

(* ===================================================================== *)
(** * The dispatcher *)
(* ===================================================================== *)

Section Dispatch.
Import Json model ws handler spec.
Local Open Scope list_scope.

Variable DB : Type.
Variable Message : Type.
Variable Marshal_Message : Message → json.
Variable SendMessage :
  uuid.UUID → uuid.UUID → SendMessageRequest → DB → option Message * DB.
Variable GetConversationMemberIDs : uuid.UUID → DB → option (list uuid.UUID).
Variable MarkMessagesAsRead : uuid.UUID → uuid.UUID → DB → DB.

Lemma SendToUser_up u e h :
  rdb_up h = true →
  rdb (SendToUser u e h)
  = rdb h ++ [Marshal_TargetedEvent {| TargetUserID := u; Event := Some e |}] ∧
  rdb_up (SendToUser u e h) = true ∧
  clients (SendToUser u e h) = clients h ∧ send (SendToUser u e h) = send h.
Proof. intros Hup. unfold SendToUser, publishToRedis. rewrite Hup. done. Qed.

Lemma SendToUsers_up us e : ∀ h,
  rdb_up h = true →
  rdb (SendToUsers us e h)
  = rdb h ++ List.map (fun u => Marshal_TargetedEvent
                                  {| TargetUserID := u; Event := Some e |}) us ∧
  clients (SendToUsers us e h) = clients h ∧ send (SendToUsers us e h) = send h.
Proof.
  induction us as [|u us IH]; intros h Hup; simpl.
  - by rewrite app_nil_r.
  - destruct (SendToUser_up u e h Hup) as (Hr & Hup' & Hc & Hs).
    destruct (IH _ Hup') as (Hr' & Hc' & Hs').
    unfold SendToUsers in *. rewrite Hr', Hc', Hs', Hr, Hc, Hs.
    by rewrite <- app_assoc.
Qed.

(** The handler over any message store.  For a new_message envelope
    whose payload decodes, the dispatcher first calls the store and leaves
    the store's state after the call.  If the store fails, or the
    membership lookup made afterwards fails, nothing is published.
    Otherwise one targeted new_message event carrying the message is
    published for every member id the lookup returned, in that order, the
    sender's id among them when the sender is a member: the ids are not
    filtered. *)
Lemma handleNewMessage_over_any_store client event db h payload :
  decode_struct NewMessagePayload_set (Payload event)
    {| np_ConversationID := uuid.Nil; np_Content := ""; np_Type := "" |}
  = Some payload →
  rdb_up h = true →
  let req := {| Content := np_Content payload;
                MsgType := if String.eqb (np_Type payload) "" then MessageTypeText
                           else np_Type payload |} in
  let saved := SendMessage (UserID client) (np_ConversationID payload) req db in
  let target msg u :=
    Marshal_TargetedEvent
      {| TargetUserID := u;
         Event := Some {| Type_ := WSEventNewMessage;
                          Payload := Marshal_Message msg |} |} in
  let w' := handleNewMessage DB Message Marshal_Message SendMessage
              GetConversationMemberIDs client event (db, h) in
  fst w' = snd saved ∧
  clients (snd w') = clients h ∧ send (snd w') = send h ∧
  rdb (snd w')
  = rdb h ++
    match fst saved with
    | None => []
    | Some msg =>
        match GetConversationMemberIDs (np_ConversationID payload) (snd saved) with
        | None => []
        | Some members => List.map (target msg) members
        end
    end ∧
  ∀ msg members,
    fst saved = Some msg →
    GetConversationMemberIDs (np_ConversationID payload) (snd saved) = Some members →
    UserID client ∈ members →
    target msg (UserID client) ∈ rdb (snd w').
Proof.
  intros Hdec Hup req saved target w'.
  subst w'. unfold handleNewMessage. rewrite Hdec. simpl fst. simpl snd.
  fold req. fold saved.
  destruct saved as [[msg|] db'] eqn:Hs; simpl.
  - destruct (GetConversationMemberIDs (np_ConversationID payload) db')
      as [members|] eqn:Hm; simpl.
    + destruct (SendToUsers_up members
                  {| Type_ := WSEventNewMessage; Payload := Marshal_Message msg |}
                  h Hup) as (Hr & Hc & Hsd).
      rewrite Hr, Hc, Hsd. repeat split; try done.
      intros msg' members' [= <-] [= <-] Hin.
      apply elem_of_app. right. apply list_elem_of_fmap.
      exists (UserID client). done.
    + rewrite app_nil_r. repeat split; try done.
    - rewrite app_nil_r. repeat split; try done.
Qed.

#[local] Arguments uuid.String : simpl never.
#[local] Arguments uuid.Parse : simpl never.
#[local] Arguments to_interface : simpl never.

Lemma Parse_String_Nil : uuid.Parse (uuid.String uuid.Nil) = Some uuid.Nil.
Proof. vm_compute. reflexivity. Qed.

Lemma fm_target : field_match "target_user_id" "target_user_id" = true.
Proof. vm_compute. reflexivity. Qed.
Lemma fm_target_event : field_match "target_user_id" "event" = false.
Proof. vm_compute. reflexivity. Qed.
Lemma fm_event : field_match "event" "event" = true.
Proof. vm_compute. reflexivity. Qed.
Lemma fm_type : field_match "type" "type" = true.
Proof. vm_compute. reflexivity. Qed.
Lemma fm_type_payload : field_match "type" "payload" = false.
Proof. vm_compute. reflexivity. Qed.
Lemma fm_payload : field_match "payload" "payload" = true.
Proof. vm_compute. reflexivity. Qed.

Lemma Unmarshal_Marshal_WSEvent e z :
  decode_struct WSEvent_set (Marshal_WSEvent e) z
  = Some {| Type_ := Type_ e; Payload := to_interface (Payload e) |}.
Proof.
  unfold Marshal_WSEvent, decode_struct. cbn [decode_fields].
  unfold WSEvent_set. rewrite fm_type, fm_type_payload, fm_payload.
  reflexivity.
Qed.

Lemma TargetedEvent_set_target v t :
  TargetedEvent_set "target_user_id" v t
  = match uuid.decode v (TargetUserID t) with
    | Some u => Some {| TargetUserID := u; Event := Event t |}
    | None => None
    end.
Proof. unfold TargetedEvent_set. by rewrite fm_target. Qed.

Lemma TargetedEvent_set_event e t :
  TargetedEvent_set "event" (Marshal_WSEvent e) t
  = Some {| TargetUserID := TargetUserID t;
            Event := Some {| Type_ := Type_ e;
                             Payload := to_interface (Payload e) |} |}.
Proof.
  unfold TargetedEvent_set. rewrite fm_target_event, fm_event.
  rewrite Unmarshal_Marshal_WSEvent. reflexivity.
Qed.

Lemma Unmarshal_published u e :
  Unmarshal_TargetedEvent
    (Text (Marshal_TargetedEvent {| TargetUserID := u; Event := Some e |}))
  = match uuid.Parse (uuid.String u) with
    | Some u' =>
        Some {| TargetUserID := u';
                Event := Some {| Type_ := Type_ e;
                                 Payload := to_interface (Payload e) |} |}
    | None => None
    end.
Proof.
  unfold Unmarshal_TargetedEvent, Marshal_TargetedEvent, decode_struct.
  cbn [decode_fields TargetUserID Event Marshal_WSEvent_ptr].
  rewrite TargetedEvent_set_target.
  unfold uuid.MarshalJSON, uuid.decode.
  destruct (uuid.Parse (uuid.String u)) as [u'|]; [|reflexivity].
  by rewrite TargetedEvent_set_event.
Qed.

Lemma decode_call_fields fs :
  Forall (fun v => v = JNull ∨ ∃ s, v = JStr s ∧ uuid.Parse s = Some uuid.Nil)
    (lookup_field "to" fs) →
  decode_fields CallPayload_set fs uuid.Nil = Some uuid.Nil.
Proof.
  induction fs as [|[k v] fs IH]; intros Hall; [done|].
  unfold lookup_field in Hall. simpl in Hall.
  cbn [decode_fields]. unfold CallPayload_set at 1.
  destruct (field_match "to" k); simpl in Hall.
  - apply Forall_cons in Hall as [Hv Hall].
    destruct Hv as [->|(s & -> & Hs)]; simpl; [|rewrite Hs]; by apply IH.
  - by apply IH.
Qed.

Lemma decode_noTarget p :
  noTarget p → decode_struct CallPayload_set p uuid.Nil = Some uuid.Nil.
Proof.
  intros [->|(fs & -> & Hall)]; [done|]. by apply decode_call_fields.
Qed.

Lemma dispatch_call client event w :
  isCallType (Type_ event) →
  handleWSMessage DB Message Marshal_Message SendMessage
    GetConversationMemberIDs MarkMessagesAsRead client event w
  = handleCallSignaling DB client event w.
Proof.
  unfold handleWSMessage. intros [Ht|[Ht|[Ht|Ht]]]; rewrite Ht; reflexivity.
Qed.

(** C10.  A call-signaling envelope whose payload has no target (no [to]
    key, or a [to] that is null or the nil UUID) is not dropped: the
    dispatcher publishes it with the nil target.  The subscriber of any
    process decodes the nil target and runs the broadcast: on a
    well-formed hub the broadcast returns and has sent the event to every
    connection of every user in the table (queued where there was room;
    a connection with a full queue is closed). *)
Theorem untargeted_call_is_broadcast client event db h :
  isCallType (Type_ event) →
  noTarget (Payload event) →
  rdb_up h = true →
  let m := Marshal_TargetedEvent
             {| TargetUserID := uuid.Nil; Event := Some event |} in
  let e' := {| Type_ := Type_ event; Payload := to_interface (Payload event) |} in
  let w' := handleWSMessage DB Message Marshal_Message SendMessage
              GetConversationMemberIDs MarkMessagesAsRead client event (db, h) in
  fst w' = db ∧
  rdb (snd w') = rdb h ++ [m] ∧
  ∀ h2, onRedisMessage (Text m) h2 = broadcastToLocal (Some e') h2 ∧
        (wf h2 →
         ∃ h3, onRedisMessage (Text m) h2 = Ok h3 ∧
               ∀ u c, registered h2 u c →
                      chan_of h3 c = pushed (Marshal_WSEvent e') (chan_of h2 c)).
Proof.
  intros Hty Hno Hup m e' w'. subst w'.
  rewrite dispatch_call by done.
  unfold handleCallSignaling. rewrite (decode_noTarget _ Hno). simpl fst. simpl snd.
  destruct (SendToUser_up uuid.Nil event h Hup) as (Hr & _).
  split; [done|]. split; [exact Hr|].
  intros h2.
  assert (onRedisMessage (Text m) h2 = broadcastToLocal (Some e') h2) as Hb.
  { unfold onRedisMessage. subst m. rewrite Unmarshal_published, Parse_String_Nil.
    reflexivity. }
  split; [exact Hb|]. intros Hwf. rewrite Hb.
  destruct (broadcastToLocal_spec (Some e') h2 Hwf) as (h3 & Hrun & _ & Hp & _).
  exists h3. split; [done|].
  intros u c Hreg. apply (Hp u c). by apply elem_of_allPairs.
Qed.

End Dispatch.

Section Scenarios.
Import Json model ws handler spec more.
Local Open Scope list_scope.

Lemma untargeted_call_is_broadcast_witness :
  (isCallType (Type_ callWithoutTarget) ∧ noTarget (Payload callWithoutTarget) ∧
   rdb_up bothOnline = true) ∧
  rdb (snd (chatDispatch alice callWithoutTarget (smallStore, bothOnline)))
  = rdb bothOnline ++
    [Marshal_TargetedEvent
       {| TargetUserID := uuid.Nil; Event := Some callWithoutTarget |}].
Proof.
  assert (isCallType (Type_ callWithoutTarget)) as Hty by (left; reflexivity).
  assert (noTarget (Payload callWithoutTarget)) as Hno.
  { right. eexists. split; [reflexivity|]. vm_compute. constructor. }
  assert (rdb_up bothOnline = true) as Hup by reflexivity.
  split; [split; [|split]; assumption|].
  exact (proj1 (proj2
    (untargeted_call_is_broadcast memdb.DB service.Message service.Marshal_Message
       chatSend chatMembers chatMark alice callWithoutTarget smallStore bothOnline
       Hty Hno Hup))).
Defined.

Example untargeted_call_reaches_everyone :
  match subscribeRedis
          [Text (Marshal_TargetedEvent
                   {| TargetUserID := uuid.Nil; Event := Some callWithoutTarget |})]
          bothOnline with
  | Ok h => List.length (buf (chan_of h (addr alice))) = 1
            ∧ List.length (buf (chan_of h (addr bob))) = 1
  | Panic _ => False
  end.
Proof. vm_compute. split; reflexivity. Qed.


End Scenarios.

(* ===================================================================== *)
(** * The bus bridge, end to end *)
(* ===================================================================== *)

Section Bridge.
Import Json model ws spec more.
Local Open Scope list_scope.

Lemma xvalue_hexdigit n : (n < 16)%N → uuid.xvalue (uuid.hexdigit n) = Some n.
Proof.
  intros Hn.
  assert (n ∈ [0;1;2;3;4;5;6;7;8;9;10;11;12;13;14;15]%N) as Hin.
  { rewrite !elem_of_cons. lia. }
  rewrite !elem_of_cons in Hin.
  destruct Hin as [->|[->|[->|[->|[->|[->|[->|[->|[->|[->|[->|[->|[->|[->|[->|[->|H]]]]]]]]]]]]]]]];
    try (vm_compute; reflexivity). by apply elem_of_nil in H.
Qed.

Lemma xvalues_hexdigits ds acc :
  Forall (fun d => (d < 16)%N) ds →
  uuid.xvalues (List.map uuid.hexdigit ds) acc
  = Some (fold_left (fun a d => (a * 16 + d)%N) ds acc).
Proof.
  intros H. revert acc. induction H as [|d ds Hd _ IH]; intros acc; [done|].
  cbn [List.map uuid.xvalues fold_left]. rewrite (xvalue_hexdigit d Hd). apply IH.
Qed.

Lemma nibble_div u i :
  uuid.nibble u i = ((u / 16 ^ N.of_nat (31 - i)) mod 16)%N.
Proof.
  unfold uuid.nibble. change 15%N with (N.ones 4).
  rewrite N.land_ones, N.shiftr_div_pow2. f_equal. f_equal.
  rewrite N.pow_mul_r. reflexivity.
Qed.

Lemma nibbles_fold u n :
  (u < 2 ^ 128)%N → n <= 32 →
  fold_left (fun a d => (a * 16 + d)%N) (List.map (uuid.nibble u) (seq 0 n)) 0%N
  = (u / 16 ^ N.of_nat (32 - n))%N.
Proof.
  intros Hu. induction n as [|n IH]; intros Hn.
  - simpl fold_left. symmetry. apply N.div_small.
    change (16 ^ N.of_nat (32 - 0))%N with (2 ^ 128)%N. exact Hu.
  - rewrite seq_S, map_app, fold_left_app, IH by lia. simpl.
    rewrite nibble_div.
    replace (32 - n) with (S (31 - n)) by lia.
    replace (32 - S n) with (31 - n) by lia.
    rewrite Nat2N.inj_succ, N.pow_succ_r'.
    set (p := (16 ^ N.of_nat (31 - n))%N).
    assert (p ≠ 0)%N by (apply N.pow_nonzero; lia).
    rewrite (N.mul_comm 16 p), <- N.Div0.div_div.
    pose proof (N.div_mod (u / p) 16 ltac:(lia)). lia.
Qed.

Lemma nibble_lt u i : (uuid.nibble u i < 16)%N.
Proof. rewrite nibble_div. apply N.mod_lt. lia. Qed.

Lemma Parse_dashed (cs : list ascii) :
  List.length cs = 32 →
  uuid.Parse (string_of_list_ascii
     (firstn 8 cs ++ ["-"%char] ++ firstn 4 (skipn 8 cs) ++ ["-"%char]
      ++ firstn 4 (skipn 12 cs) ++ ["-"%char] ++ firstn 4 (skipn 16 cs)
      ++ ["-"%char] ++ skipn 20 cs))
  = uuid.xvalues cs 0.
Proof.
  intros Hlen.
  do 32 (destruct cs as [|? cs]; [discriminate Hlen|]).
  destruct cs; [|discriminate Hlen].
  unfold uuid.Parse. rewrite list_ascii_of_string_of_list_ascii.
  reflexivity.
Qed.

Lemma Parse_String u : (u < 2 ^ 128)%N → uuid.Parse (uuid.String u) = Some u.
Proof.
  intros Hu. unfold uuid.String.
  rewrite Parse_dashed by (unfold uuid.hex32; by rewrite length_map, length_seq).
  unfold uuid.hex32.
  rewrite <- (List.map_map (uuid.nibble u) uuid.hexdigit).
  rewrite xvalues_hexdigits.
  - rewrite (nibbles_fold u 32 Hu) by lia. simpl. by rewrite N.div_1_r.
  - apply Forall_forall. intros d Hd%list_elem_of_In.
    apply in_map_iff in Hd as (i & <- & _). apply nibble_lt.
Qed.

Example Parse_forms :
  uuid.Parse "00000000000000000000000000000008" = Some 8%N ∧
  uuid.Parse "URN:uuid:00000000-0000-0000-0000-000000000008" = Some 8%N ∧
  uuid.Parse "{00000000-0000-0000-0000-000000000008}" = Some 8%N ∧
  uuid.Parse "<00000000-0000-0000-0000-000000000008>" = Some 8%N ∧
  uuid.Parse "urn:guid:00000000-0000-0000-0000-000000000008" = None ∧
  uuid.Parse "00000000-0000-0000-0000-00000000000g" = None ∧
  uuid.Parse "not-a-uuid" = None.
Proof. vm_compute. repeat split. Qed.

(** X1.  A targeted event that [SendToUser] marshals for the bus is
    decoded by the subscriber to the same target and the same event, the
    payload having gone through [interface{}]; so is an envelope a client
    frame carries.  This is stated for the events that the encoder and
    the decoder leave as they are: strings in UTF-8, and numbers that are
    integers of at most 15 digits (any other number comes back in the
    encoder's float64 format, which the model does not follow). *)
Theorem targeted_event_round_trip u e :
  isUUID u → plainEvent e = true →
  Unmarshal_TargetedEvent (Text (targeted u e))
  = Some {| TargetUserID := u; Event := Some (viaBus e) |} ∧
  Unmarshal_WSEvent (Text (Marshal_WSEvent e)) = Some (viaBus e).
Proof.
  intros Hu _. split.
  - unfold targeted. rewrite Unmarshal_published, (Parse_String u Hu). done.
  - unfold Unmarshal_WSEvent. apply Unmarshal_Marshal_WSEvent.
Qed.

Lemma targeted_event_round_trip_witness :
  (isUUID 8%N ∧ plainEvent iceToBob = true) ∧
  Unmarshal_TargetedEvent (Text (targeted 8%N iceToBob))
  = Some {| TargetUserID := 8%N; Event := Some (viaBus iceToBob) |} ∧
  Unmarshal_WSEvent (Text (Marshal_WSEvent iceToBob)) = Some (viaBus iceToBob).
Proof.
  assert (isUUID 8%N) as Hu by (unfold isUUID; lia).
  assert (plainEvent iceToBob = true) as Hp by (vm_compute; reflexivity).
  split; [split; [exact Hu|exact Hp]|].
  exact (targeted_event_round_trip 8%N iceToBob Hu Hp).
Defined.

Lemma onRedisMessage_targeted u e h :
  isUUID u → u ≠ uuid.Nil →
  onRedisMessage (Text (targeted u e)) h = sendToLocalUser u (Some (viaBus e)) h.
Proof.
  intros Hu Hne. unfold onRedisMessage, targeted.
  rewrite Unmarshal_published, (Parse_String u Hu). cbn [TargetUserID Event].
  destruct (N.eqb_spec u uuid.Nil); done.
Qed.

(** X2.  What [SendToUser] publishes for a user reaches, on every process
    whose table is well-formed, each local connection of that user (one
    more event at the back of its queue, or the queue closed when it was
    full) and no other connection; where the user has no connection the
    hub is left exactly as it was. *)
Theorem targeted_delivery_reaches_only_target u e h :
  isUUID u → u ≠ uuid.Nil → wf h →
  ∃ h', onRedisMessage (Text (targeted u e)) h = Ok h' ∧
        (∀ c, registered h u c →
              chan_of h' c = pushed (Marshal_WSEvent (viaBus e)) (chan_of h c)) ∧
        (∀ c, ¬ registered h u c → chan_of h' c = chan_of h c) ∧
        (clients h !! u = None → h' = h).
Proof.
  intros Hu Hne Hwf. rewrite onRedisMessage_targeted by done.
  destruct (clients h !! u) as [cs|] eqn:Hcs.
  - destruct (sendToLocalUser_spec u (Some (viaBus e)) h cs Hwf Hcs)
      as (h' & Hrun & Ha & Hb & _).
    exists h'. split; [done|]. split; [|split; [|done]].
    + intros c (cs' & Hcs' & Hc). rewrite Hcs in Hcs'. injection Hcs' as <-.
      apply (Hb u c). by apply elem_of_pairsOf.
    + intros c Hno. apply Ha. rewrite pairsOf_snd. simpl.
      intros Hc%elem_of_elements. apply Hno. by exists cs.
  - exists h. unfold sendToLocalUser. rewrite Hcs.
    split; [done|]. split; [|done].
    intros c (cs & Hcs' & _). by rewrite Hcs in Hcs'.
Qed.

Lemma bothOnline_clients :
  clients bothOnline = {[ 7%N := {[ 1%positive ]}; 8%N := {[ 3%positive ]} ]}.
Proof. vm_compute. reflexivity. Qed.

Lemma bothOnline_registered u c :
  registered bothOnline u c ↔
  (u = 7%N ∧ c = 1%positive) ∨ (u = 8%N ∧ c = 3%positive).
Proof.
  unfold registered. rewrite bothOnline_clients. split.
  - intros (cs & Hu & Hc).
    apply lookup_insert_Some in Hu as [[<- <-]|[_ [<- <-]%lookup_singleton_Some]];
      apply elem_of_singleton in Hc; auto.
  - intros [[-> ->]|[-> ->]]; eexists; (split; [reflexivity|]);
      by apply elem_of_singleton.
Qed.

Lemma bothOnline_wf : wf bothOnline.
Proof.
  split.
  - intros u c [[-> ->]|[-> ->]]%bothOnline_registered; reflexivity.
  - intros u1 u2 c H1%bothOnline_registered H2%bothOnline_registered.
    destruct H1 as [[-> ->]|[-> ->]], H2 as [[-> Hc]|[-> Hc]]; done.
Qed.

Lemma targeted_delivery_reaches_only_target_witness :
  (isUUID 8%N ∧ 8%N ≠ uuid.Nil ∧ wf bothOnline) ∧
  ∃ h', onRedisMessage (Text (targeted 8%N typingFromBob)) bothOnline = Ok h' ∧
        List.length (buf (chan_of h' 3%positive)) = 1 ∧
        chan_of h' 1%positive = chan_of bothOnline 1%positive.
Proof.
  assert (isUUID 8%N) as Hu by (unfold isUUID; lia).
  assert (8%N ≠ uuid.Nil) as Hne by discriminate.
  split; [split; [exact Hu|split; [exact Hne|exact bothOnline_wf]]|].
  destruct (targeted_delivery_reaches_only_target 8%N typingFromBob bothOnline
              Hu Hne bothOnline_wf) as (h' & Hrun & Hto & Hnot & _).
  exists h'. split; [exact Hrun|]. split.
  - rewrite (Hto 3%positive); [reflexivity|].
    apply bothOnline_registered. by right.
  - apply Hnot. intros [[Hx _]|[_ Hx]]%bothOnline_registered; discriminate.
Defined.

End Bridge.

(* ===================================================================== *)
(** * The registry: further properties *)
(* ===================================================================== *)

Section RegistryMore.
Import Json model ws spec more.
Local Open Scope list_scope.

(** X3.  Along any run of Connect and Disconnect requests in which every
    connection that registers is absent from the table and has its queue
    still open (it registers once, with the queue [NewClient] made), and
    every connection that unregisters is present, the control loop never
    panics and keeps the table well-formed and without empty entries; so
    at the end a user is online exactly when the table holds a connection
    for it.  The open queue is needed: a connection registered again
    after its Disconnect makes the next Disconnect close a closed
    channel. *)
Theorem orderly_run_keeps_presence reqs : ∀ h,
  wf h → tidy h → orderly reqs h →
  ∃ h', Run reqs h = Ok h' ∧ wf h' ∧ tidy h' ∧
        ∀ u, IsUserOnline u h' = true ↔ 0 < connCount u h'.
Proof.
  induction reqs as [|[c|c|e] reqs IH]; intros h Hwf Htidy Hord.
  - exists h. split; [done|]. split; [done|]. split; [done|].
    intros u. by apply tidy_online.
  - destruct Hord as (Hc & Hnew & Hord).
    destruct (addClient_wf c h Hwf Htidy Hc Hnew) as [Hwf' Htidy'].
    destruct (IH _ Hwf' Htidy' Hord) as (h' & Hrun & Hrest).
    exists h'. split; [exact Hrun|exact Hrest].
  - destruct Hord as (Hreg & Hord).
    destruct (removeClient_wf c h Hwf Htidy Hreg) as (h1 & Hrm & Hwf' & Htidy' & _).
    rewrite Hrm in Hord.
    destruct (IH _ Hwf' Htidy' Hord) as (h' & Hrun & Hrest).
    exists h'. split; [|exact Hrest].
    unfold Run in *. cbn [foldM serve]. rewrite Hrm. exact Hrun.
  - destruct Hord.
Qed.

Lemma orderly_run_keeps_presence_witness :
  (wf (NewHub true true) ∧ tidy (NewHub true true) ∧
   orderly [Register alice; Register bob; Register alice2; Unregister alice;
            Unregister bob] (NewHub true true)) ∧
  ∃ h', Run [Register alice; Register bob; Register alice2; Unregister alice;
             Unregister bob] (NewHub true true) = Ok h' ∧
        IsUserOnline 7%N h' = true ∧ IsUserOnline 8%N h' = false.
Proof.
  pose proof (wf_NewHub true true) as [Hwf Htidy].
  assert (orderly [Register alice; Register bob; Register alice2;
                   Unregister alice; Unregister bob] (NewHub true true)) as Hord.
  { cbn [orderly]. split; [reflexivity|]. split.
    { intros u (cs & Hu & _). vm_compute in Hu. discriminate. }
    split; [reflexivity|]. split.
    { intros u (cs & Hu & Hc). 
      assert (clients (addClient alice (NewHub true true))
              = {[ 7%N := {[ 1%positive ]} ]}) as E by (vm_compute; reflexivity).
      rewrite E in Hu. apply lookup_singleton_Some in Hu as [_ <-].
      apply elem_of_singleton in Hc. discriminate. }
    split; [reflexivity|]. split.
    { intros u Hr%bothOnline_registered.
      destruct Hr as [[_ Hx]|[_ Hx]]; discriminate. }
    split.
    { exists {[ 1%positive; 2%positive ]}. split; [vm_compute; reflexivity|].
      set_solver. }
    fold bothOnline.
    assert (∃ h1, removeClient alice (addClient alice2 bothOnline) = Ok h1 ∧
                  clients h1 = {[ 7%N := {[ 2%positive ]}; 8%N := {[ 3%positive ]} ]} ∧
                  ∃ h2, removeClient bob h1 = Ok h2) as (h1 & -> & Hcl & h2 & Hrm2).
    { eexists. split; [vm_compute; reflexivity|]. split; [vm_compute; reflexivity|].
      eexists. vm_compute. reflexivity. }
    split.
    { exists {[ 3%positive ]}. rewrite Hcl. split; [reflexivity|].
      by apply elem_of_singleton. }
    rewrite Hrm2. exact I. }
  split; [split; [exact Hwf|split; [exact Htidy|exact Hord]]|].
  destruct (orderly_run_keeps_presence _ _ Hwf Htidy Hord) as (h' & Hrun & _).
  exists h'. split; [exact Hrun|].
  assert (Run [Register alice; Register bob; Register alice2; Unregister alice;
               Unregister bob] (NewHub true true) ≫=
            (fun h => Ok (IsUserOnline 7%N h, IsUserOnline 8%N h))
          = Ok (true, false)) as Hv by (vm_compute; reflexivity).
  rewrite Hrun in Hv. cbn in Hv. injection Hv as -> ->. split; reflexivity.
Defined.

Example registering_again_panics :
  ∃ msg, Run [Register alice; Unregister alice; Register alice; Unregister alice]
           (NewHub true true) = Panic msg.
Proof. eexists. vm_compute. reflexivity. Qed.

Lemma with_clients_id h : with_clients (clients h) h = h.
Proof. by destruct h. Qed.

(** X4.  Connect is idempotent per connection: registering a connection
    that is already registered changes nothing, and in particular fires
    no presence event. *)
Theorem addClient_idempotent c h :
  addClient c (addClient c h) = addClient c h.
Proof.
  set (h1 := addClient c h).
  assert (clients h1 !! UserID c
          = Some (default ∅ (clients h !! UserID c) ∪ {[addr c]})) as Hu.
  { unfold h1. rewrite addClient_clients. apply lookup_insert_eq. }
  unfold addClient at 1. rewrite Hu.
  transitivity (with_clients (clients h1) h1); [|apply with_clients_id].
  f_equal. apply map_eq. intros u. rewrite lookup_alter.
  case_decide as Heq; [|done]. subst u. rewrite Hu. simpl. f_equal. set_solver.
Qed.

(** X5.  When a user's only connection disconnects, the user's entry
    leaves the table, the callback is told "offline" once and one offline
    event is published; the user's next connection finds no entry, so the
    callback is told "online" once and one online event is published. *)
Theorem last_disconnect_then_connect c c' h :
  clients h !! UserID c = Some {[ addr c ]} →
  closed (chan_of h (addr c)) = false →
  rdb_up h = true → onStatusChange h = true →
  UserID c' = UserID c →
  ∃ h1, removeClient c h = Ok h1 ∧
        IsUserOnline (UserID c) h1 = false ∧
        closed (chan_of h1 (addr c)) = true ∧
        rdb h1 = rdb h ++ [Marshal_WSEvent (presenceEvent (UserID c) false)] ∧
        status_calls h1 = status_calls h ++ [(UserID c, false)] ∧
        IsUserOnline (UserID c) (addClient c' h1) = true ∧
        rdb (addClient c' h1)
        = rdb h1 ++ [Marshal_WSEvent (presenceEvent (UserID c) true)] ∧
        status_calls (addClient c' h1) = status_calls h1 ++ [(UserID c, true)].
Proof.
  intros Hu Hcl Hup Hcb Hsame.
  unfold removeClient. rewrite Hu, chan_of_with_clients.
  unfold chan_close. rewrite Hcl. cbn [mbind result_bind].
  assert (size (({[addr c]} : gset ptr) ∖ {[addr c]}) = 0) as ->.
  { replace (({[addr c]} : gset ptr) ∖ {[addr c]}) with (∅ : gset ptr)
      by set_solver. apply size_empty. }
  cbn [Nat.eqb]. eexists. split; [reflexivity|].
  unfold publishToRedis, notifyStatus. simpl. rewrite Hcb, Hup. simpl.
  unfold IsUserOnline, chan_of. simpl.
  rewrite lookup_delete_eq, lookup_insert_eq. simpl.
  split; [done|]. split; [done|]. split; [done|]. split; [done|].
  unfold addClient. simpl. rewrite Hsame, lookup_delete_eq.
  unfold publishToRedis, notifyStatus. simpl.
  rewrite lookup_alter, decide_True by done. rewrite lookup_insert_eq. simpl.
  done.
Qed.

Lemma last_disconnect_then_connect_witness :
  (clients (addClient alice (NewHub true true)) !! UserID alice
     = Some {[ addr alice ]} ∧
   closed (chan_of (addClient alice (NewHub true true)) (addr alice)) = false ∧
   rdb_up (addClient alice (NewHub true true)) = true ∧
   onStatusChange (addClient alice (NewHub true true)) = true ∧
   UserID alice2 = UserID alice) ∧
  ∃ h1, removeClient alice (addClient alice (NewHub true true)) = Ok h1 ∧
        IsUserOnline 7%N h1 = false ∧
        IsUserOnline 7%N (addClient alice2 h1) = true.
Proof.
  assert (clients (addClient alice (NewHub true true)) !! UserID alice
          = Some {[ addr alice ]}) as Hu by (vm_compute; reflexivity).
  split; [repeat split; try reflexivity; exact Hu|].
  destruct (last_disconnect_then_connect alice alice2
              (addClient alice (NewHub true true)) Hu eq_refl eq_refl eq_refl
              eq_refl) as (h1 & Hrm & Hoff & _ & _ & _ & Hon & _).
  exists h1. split; [exact Hrm|]. split; [exact Hoff|exact Hon].
Defined.

(** X6.  [GetOnlineUserIDs] lists every user that [IsUserOnline] reports
    online, and nobody else, each once. *)
Theorem GetOnlineUserIDs_spec h :
  NoDup (GetOnlineUserIDs h) ∧
  ∀ u, u ∈ GetOnlineUserIDs h ↔ IsUserOnline u h = true.
Proof.
  unfold GetOnlineUserIDs, IsUserOnline. split.
  - apply (NoDup_fst_map_to_list (clients h)).
  - intros u. change (List.map fst (map_to_list (clients h)))
      with ((map_to_list (clients h)).*1).
    rewrite list_elem_of_fmap. split.
    + intros ([u' cs] & -> & Hin%elem_of_map_to_list). simpl. by rewrite Hin.
    + destruct (clients h !! u) as [cs|] eqn:Hu; [|done]. intros _.
      exists (u, cs). split; [done|]. by apply elem_of_map_to_list.
Qed.

Lemma clients_publishToRedis d h : clients (publishToRedis d h) = clients h.
Proof. unfold publishToRedis. by destruct (rdb_up h). Qed.

Lemma clients_notifyStatus u b h : clients (notifyStatus u b h) = clients h.
Proof. unfold notifyStatus. by destruct (onStatusChange h). Qed.

(** X7.  Disconnect is not idempotent.  Repeated for a connection that
    was its user's last, the second is a no-op, the entry being gone;
    repeated while the user still has another connection, the second
    closes the closed queue again and panics. *)
Theorem double_disconnect c h cs :
  clients h !! UserID c = Some cs → addr c ∈ cs →
  closed (chan_of h (addr c)) = false →
  ∃ h1, removeClient c h = Ok h1 ∧
        removeClient c h1
        = if decide (cs = {[ addr c ]}) then Ok h1
          else Panic "close of closed channel".
Proof.
  intros Hu Hc Hcl. unfold removeClient at 1. rewrite Hu, chan_of_with_clients.
  unfold chan_close. rewrite Hcl. cbn [mbind result_bind].
  destruct (size (cs ∖ {[addr c]}) =? 0)%nat eqn:Hsz.
  - apply Nat.eqb_eq in Hsz. apply size_empty_iff in Hsz.
    assert (cs = {[addr c]}) as Heq.
    { apply set_eq. intros x. rewrite elem_of_singleton. split.
      - intros Hx. destruct (decide (x = addr c)) as [|Hne]; [done|].
        exfalso. apply (not_elem_of_empty (C:=gset ptr) x). apply Hsz.
        apply elem_of_difference. split; [done|]. by rewrite elem_of_singleton.
      - by intros ->. }
    eexists. split; [reflexivity|]. rewrite decide_True by done.
    unfold removeClient at 1.
    rewrite clients_publishToRedis, clients_notifyStatus.
    cbn [clients with_clients with_send]. by rewrite lookup_delete_eq.
  - apply Nat.eqb_neq in Hsz.
    assert (cs ≠ {[addr c]}) as Hne.
    { intros ->. apply Hsz.
      replace (({[addr c]} : gset ptr) ∖ {[addr c]}) with (∅ : gset ptr)
        by set_solver. apply size_empty. }
    eexists. split; [reflexivity|]. rewrite decide_False by done.
    unfold removeClient. simpl. rewrite lookup_insert_eq.
    unfold chan_of, chan_close. simpl. by rewrite lookup_insert_eq.
Qed.

Lemma double_disconnect_witness :
  (clients (addClient alice2 bothOnline) !! UserID alice
     = Some {[ 1%positive; 2%positive ]} ∧
   addr alice ∈ ({[ 1%positive; 2%positive ]} : gset ptr) ∧
   closed (chan_of (addClient alice2 bothOnline) (addr alice)) = false) ∧
  ∃ h1, removeClient alice (addClient alice2 bothOnline) = Ok h1 ∧
        removeClient alice h1 = Panic "close of closed channel".
Proof.
  assert (clients (addClient alice2 bothOnline) !! UserID alice
          = Some {[ 1%positive; 2%positive ]}) as Hu by (vm_compute; reflexivity).
  assert (addr alice ∈ ({[ 1%positive; 2%positive ]} : gset ptr)) as Hc
    by set_solver.
  split; [split; [exact Hu|split; [exact Hc|reflexivity]]|].
  destruct (double_disconnect alice (addClient alice2 bothOnline) _ Hu Hc eq_refl)
    as (h1 & Hrm & Hagain).
  exists h1. split; [exact Hrm|]. rewrite Hagain.
  apply decide_False. intros Heq.
  assert (2%positive ∈ ({[ 1%positive; 2%positive ]} : gset ptr)) as H2
    by set_solver.
  rewrite Heq in H2. apply elem_of_singleton in H2. discriminate.
Defined.

(** X8.  A delivery, to one user or to all, never changes who is online:
    on a well-formed hub it returns, leaves every user's entry in place,
    calls no presence callback and publishes nothing. *)
Theorem delivery_leaves_presence_alone u ev h :
  wf h →
  (∃ h', sendToLocalUser u ev h = Ok h' ∧
         (∀ v, IsUserOnline v h' = IsUserOnline v h) ∧
         rdb h' = rdb h ∧ status_calls h' = status_calls h) ∧
  (∃ h', broadcastToLocal ev h = Ok h' ∧
         (∀ v, IsUserOnline v h' = IsUserOnline v h) ∧
         rdb h' = rdb h ∧ status_calls h' = status_calls h).
Proof.
  intros Hwf.
  assert (∀ d ps h', delivered d ps h h' →
            (∀ v, IsUserOnline v h' = IsUserOnline v h) ∧
            rdb h' = rdb h ∧ status_calls h' = status_calls h) as Hpost.
  { intros d ps h' (_ & _ & Hk & _ & Hr & Hs). split; [|done].
    intros v. unfold IsUserOnline. specialize (Hk v).
    destruct (clients h' !! v), (clients h !! v); try done.
    - by destruct (proj1 Hk (mk_is_Some _ _ eq_refl)).
    - by destruct (proj2 Hk (mk_is_Some _ _ eq_refl)). }
  split.
  - destruct (clients h !! u) as [cs|] eqn:Hu.
    + destruct (sendToLocalUser_spec u ev h cs Hwf Hu) as (h' & Hrun & Hd).
      exists h'. split; [done|]. by apply (Hpost _ _ _ Hd).
    + exists h. unfold sendToLocalUser. rewrite Hu. done.
  - destruct (broadcastToLocal_spec ev h Hwf) as (h' & Hrun & Hd).
    exists h'. split; [done|]. by apply (Hpost _ _ _ Hd).
Qed.

Lemma delivery_leaves_presence_alone_witness :
  wf stalledHub ∧
  ∃ h', sendToLocalUser 7%N (Some typingFromBob) stalledHub = Ok h' ∧
        IsUserOnline 7%N h' = IsUserOnline 7%N stalledHub ∧
        status_calls h' = status_calls stalledHub.
Proof.
  split; [exact stalledHub_wf|].
  destruct (proj1 (delivery_leaves_presence_alone 7%N (Some typingFromBob)
                     stalledHub stalledHub_wf)) as (h' & Hrun & Hon & _ & Hst).
  exists h'. split; [exact Hrun|]. split; [apply Hon|exact Hst].
Defined.

Lemma foldM_invariant {A S : Type} (P : S → Prop) (f : A → S → result S) l :
  (∀ x s s', P s → f x s = Ok s' → P s') →
  ∀ s s', P s → foldM f l s = Ok s' → P s'.
Proof.
  intros Hf. induction l as [|x l IH]; intros s s' Hs Hrun; simpl in Hrun.
  - by injection Hrun as <-.
  - destruct (f x s) as [s1|m] eqn:Hx; [|done]. simpl in Hrun.
    apply (IH s1 s'); [|done]. by apply (Hf x s s1).
Qed.

Lemma trySend_bounded u d c h h' :
  bounded h → trySend u d c h = Ok h' → bounded h'.
Proof.
  intros Hb. unfold trySend, chan_close.
  destruct (closed (chan_of h c)) eqn:Hcl; [done|].
  destruct (Nat.ltb_spec (List.length (buf (chan_of h c))) sendCap) as [Hlt|Hge];
    simpl; intros [= <-]; intros x; specialize (Hb x); unfold chan_of in *; simpl.
  - destruct (decide (x = c)) as [->|Hne].
    + rewrite lookup_insert_eq. simpl. rewrite length_app. simpl. lia.
    + by rewrite lookup_insert_ne.
  - destruct (decide (x = c)) as [->|Hne].
    + by rewrite lookup_insert_eq.
    + by rewrite lookup_insert_ne.
Qed.

Lemma sendToLocalUser_bounded u ev h h' :
  bounded h → sendToLocalUser u ev h = Ok h' → bounded h'.
Proof.
  intros Hb. unfold sendToLocalUser. destruct (clients h !! u) as [cs|].
  - apply foldM_invariant; [|done]. intros x s s'. apply trySend_bounded.
  - by intros [= <-].
Qed.

Lemma broadcastToLocal_bounded ev h h' :
  bounded h → broadcastToLocal ev h = Ok h' → bounded h'.
Proof.
  intros Hb. unfold broadcastToLocal. apply foldM_invariant; [|done].
  intros ucs s s' Hs. apply foldM_invariant; [|done].
  intros x s1 s2. apply trySend_bounded.
Qed.

Lemma removeClient_bounded c h h' :
  bounded h → removeClient c h = Ok h' → bounded h'.
Proof.
  intros Hb. unfold removeClient. destruct (clients h !! UserID c) as [cs|];
    [|by intros [= <-]].
  rewrite chan_of_with_clients. unfold chan_close.
  destruct (closed (chan_of h (addr c))); [done|]. cbn [mbind result_bind].
  assert (∀ h1 : Hub,
            send h1 = <[addr c := {| buf := buf (chan_of h (addr c));
                                     closed := true |}]> (send h) →
            bounded h1) as Hgen.
  { intros h1 Hs x. unfold chan_of. rewrite Hs.
    destruct (decide (x = addr c)) as [->|Hne].
    - rewrite lookup_insert_eq. apply Hb.
    - rewrite lookup_insert_ne by done. apply Hb. }
  destruct (size (cs ∖ {[addr c]}) =? 0)%nat; intros [= <-]; apply Hgen; [|done].
  unfold publishToRedis, notifyStatus. simpl.
  destruct (onStatusChange h); simpl; destruct (rdb_up h); done.
Qed.

(** X9.  No queue ever holds more than 256 events: whatever requests the
    control loop serves and whatever messages the subscriber receives,
    if they return, every queue that was within capacity still is. *)
Theorem queues_stay_within_capacity h :
  bounded h →
  (∀ reqs h', Run reqs h = Ok h' → bounded h') ∧
  (∀ msgs h', subscribeRedis msgs h = Ok h' → bounded h').
Proof.
  intros Hb. split.
  - intros reqs h'. unfold Run. apply foldM_invariant; [|done].
    intros [c|c|e] s s' Hs; simpl.
    + intros [= <-]. intros x. rewrite addClient_send. apply Hs.
    + by apply removeClient_bounded.
    + by apply broadcastToLocal_bounded.
  - intros msgs h'. unfold subscribeRedis. apply foldM_invariant; [|done].
    intros m s s' Hs. unfold onRedisMessage.
    destruct (Unmarshal_TargetedEvent m) as [t|]; [|by intros [= <-]].
    destruct (negb (TargetUserID t =? uuid.Nil)%N).
    + by apply sendToLocalUser_bounded.
    + destruct (Event t); [by apply broadcastToLocal_bounded|by intros [= <-]].
Qed.

Lemma queues_stay_within_capacity_witness :
  bounded stalledHub ∧
  ∃ h', subscribeRedis [Text (targeted 7%N typingFromBob)] stalledHub = Ok h' ∧
        List.length (buf (chan_of h' 1%positive)) <= sendCap.
Proof.
  assert (bounded stalledHub) as Hb.
  { intros c. destruct (decide (c = 1%positive)) as [->|Hne].
    - vm_compute. lia.
    - assert (send stalledHub !! c = None) as Hnone.
      { assert (∃ ch, send stalledHub = {[ 1%positive := ch ]}) as [ch ->]
          by (eexists; vm_compute; reflexivity).
        by apply lookup_singleton_ne. }
      unfold chan_of. rewrite Hnone. simpl. lia. }
  split; [exact Hb|].
  assert (∃ h', subscribeRedis [Text (targeted 7%N typingFromBob)] stalledHub
                = Ok h') as [h' Hrun] by (eexists; vm_compute; reflexivity).
  exists h'. split; [exact Hrun|].
  apply (proj2 (queues_stay_within_capacity stalledHub Hb) _ _ Hrun).
Defined.

End RegistryMore.

(* ===================================================================== *)
(** * The dispatcher: further properties *)
(* ===================================================================== *)

Section DispatchMore.
Import Json model ws handler spec more.
Local Open Scope list_scope.

Variable DB : Type.
Variable Message : Type.
Variable Marshal_Message : Message → json.
Variable SendMessage :
  uuid.UUID → uuid.UUID → SendMessageRequest → DB → option Message * DB.
Variable GetConversationMemberIDs : uuid.UUID → DB → option (list uuid.UUID).
Variable MarkMessagesAsRead : uuid.UUID → uuid.UUID → DB → DB.

#[local] Abbreviation dispatch :=
  (handleWSMessage DB Message Marshal_Message SendMessage
     GetConversationMemberIDs MarkMessagesAsRead).

Lemma publishedOnly_refl h : publishedOnly h h.
Proof. repeat split; try done. exists []. by rewrite app_nil_r. Qed.

Lemma publishedOnly_trans h1 h2 h3 :
  publishedOnly h1 h2 → publishedOnly h2 h3 → publishedOnly h1 h3.
Proof.
  intros (Hc & Hs & Hst & Hu & Hcb & p & Hp) (Hc' & Hs' & Hst' & Hu' & Hcb' & q & Hq).
  repeat split; try congruence. exists (p ++ q). by rewrite Hq, Hp, app_assoc.
Qed.

Lemma SendToUser_publishedOnly u e h : publishedOnly h (SendToUser u e h).
Proof.
  unfold SendToUser, publishToRedis. destruct (rdb_up h) eqn:Hup.
  - repeat split; try done. by eexists.
  - apply publishedOnly_refl.
Qed.

Lemma SendToUsers_publishedOnly us e : ∀ h, publishedOnly h (SendToUsers us e h).
Proof.
  induction us as [|u us IH]; intros h; [apply publishedOnly_refl|].
  apply (publishedOnly_trans _ (SendToUser u e h)); [apply SendToUser_publishedOnly|].
  apply IH.
Qed.

Lemma sendToOthers_publishedOnly c us e : ∀ h,
  publishedOnly h (sendToOthers c us e h).
Proof.
  induction us as [|u us IH]; intros h; [apply publishedOnly_refl|].
  unfold sendToOthers in *. cbn [fold_left].
  destruct (u =? UserID c)%N; [apply IH|].
  apply (publishedOnly_trans _ (SendToUser u e h)); [apply SendToUser_publishedOnly|].
  apply IH.
Qed.

(** X10.  Whatever envelope a client sends, the dispatcher does nothing
    to the hub but publish: the table, the queues and the presence
    callbacks are untouched, and what was published before stays, in
    order, in front of anything new. *)
Theorem dispatcher_only_publishes client event db h :
  publishedOnly h
    (snd (handleWSMessage DB Message Marshal_Message SendMessage
            GetConversationMemberIDs MarkMessagesAsRead client event (db, h))).
Proof.
  unfold handleWSMessage.
  repeat (match goal with
          | |- context [String.eqb ?a ?b] => destruct (String.eqb a b)
          end);
    try apply publishedOnly_refl.
  - unfold handleNewMessage.
    destruct (decode_struct NewMessagePayload_set _ _) as [p|];
      [|apply publishedOnly_refl].
    cbn [fst snd]. destruct (SendMessage _ _ _ db) as [[msg|] db'];
      [|apply publishedOnly_refl].
    destruct (GetConversationMemberIDs _ db'); [|apply publishedOnly_refl].
    apply SendToUsers_publishedOnly.
  - unfold handleTyping, handleTypingAs.
    destruct (decode_struct ConversationPayload_set _ _);
      [apply sendToOthers_publishedOnly|apply publishedOnly_refl].
  - unfold handleStopTyping, handleTypingAs.
    destruct (decode_struct ConversationPayload_set _ _);
      [apply sendToOthers_publishedOnly|apply publishedOnly_refl].
  - unfold handleMessageRead.
    destruct (decode_struct ReadPayload_set _ _) as [[conv mid]|];
      [apply sendToOthers_publishedOnly|apply publishedOnly_refl].
  - unfold handleCallSignaling.
    destruct (decode_struct CallPayload_set _ _);
      [apply SendToUser_publishedOnly|apply publishedOnly_refl].
  - unfold handleCallSignaling.
    destruct (decode_struct CallPayload_set _ _);
      [apply SendToUser_publishedOnly|apply publishedOnly_refl].
  - unfold handleCallSignaling.
    destruct (decode_struct CallPayload_set _ _);
      [apply SendToUser_publishedOnly|apply publishedOnly_refl].
  - unfold handleCallSignaling.
    destruct (decode_struct CallPayload_set _ _);
      [apply SendToUser_publishedOnly|apply publishedOnly_refl].
Qed.

Lemma SendToUser_down u e h : rdb_up h = false → SendToUser u e h = h.
Proof. intros Hd. unfold SendToUser, publishToRedis. by rewrite Hd. Qed.

Lemma SendToUsers_down us e h : rdb_up h = false → SendToUsers us e h = h.
Proof.
  intros Hd. induction us as [|u us IH]; [done|].
  unfold SendToUsers in *. cbn [fold_left]. by rewrite SendToUser_down.
Qed.

Lemma sendToOthers_down c us e h : rdb_up h = false → sendToOthers c us e h = h.
Proof.
  intros Hd. induction us as [|u us IH]; [done|].
  unfold sendToOthers in *. cbn [fold_left].
  destruct (u =? UserID c)%N; [done|]. by rewrite SendToUser_down.
Qed.

(** X11.  While the bus cannot be reached, every event a client sends is
    lost for delivery: the dispatcher leaves the hub exactly as it was,
    whatever the envelope (the store calls are still made). *)
Theorem bus_down_drops_events client event db h :
  rdb_up h = false →
  snd (handleWSMessage DB Message Marshal_Message SendMessage
         GetConversationMemberIDs MarkMessagesAsRead client event (db, h)) = h.
Proof.
  intros Hd. unfold handleWSMessage.
  repeat (match goal with
          | |- context [String.eqb ?a ?b] => destruct (String.eqb a b)
          end);
    try done.
  - unfold handleNewMessage.
    destruct (decode_struct NewMessagePayload_set _ _) as [p|]; [|done].
    cbn [fst snd]. destruct (SendMessage _ _ _ db) as [[msg|] db']; [|done].
    destruct (GetConversationMemberIDs _ db'); [|done].
    by apply SendToUsers_down.
  - unfold handleTyping, handleTypingAs.
    destruct (decode_struct ConversationPayload_set _ _); [|done].
    by apply sendToOthers_down.
  - unfold handleStopTyping, handleTypingAs.
    destruct (decode_struct ConversationPayload_set _ _); [|done].
    by apply sendToOthers_down.
  - unfold handleMessageRead.
    destruct (decode_struct ReadPayload_set _ _) as [[conv mid]|]; [|done].
    by apply sendToOthers_down.
  - unfold handleCallSignaling.
    destruct (decode_struct CallPayload_set _ _); [|done]. by apply SendToUser_down.
  - unfold handleCallSignaling.
    destruct (decode_struct CallPayload_set _ _); [|done]. by apply SendToUser_down.
  - unfold handleCallSignaling.
    destruct (decode_struct CallPayload_set _ _); [|done]. by apply SendToUser_down.
  - unfold handleCallSignaling.
    destruct (decode_struct CallPayload_set _ _); [|done]. by apply SendToUser_down.
Qed.

(** X12.  An envelope whose type is none of the eight known ones changes
    nothing: neither the store nor the hub. *)
Theorem unknown_type_is_ignored client event w :
  Type_ event ∉ knownTypes →
  handleWSMessage DB Message Marshal_Message SendMessage
    GetConversationMemberIDs MarkMessagesAsRead client event w = w.
Proof.
  intros Hno. unfold handleWSMessage.
  repeat (match goal with
          | |- context [String.eqb ?a ?b] =>
              destruct (String.eqb_spec a b) as [Heq|_];
              [exfalso; apply Hno; rewrite Heq; unfold knownTypes;
               rewrite !elem_of_cons; tauto|]
          end).
  reflexivity.
Qed.

Lemma sendToOthers_up c us e : ∀ h,
  rdb_up h = true →
  rdb (sendToOthers c us e h)
  = rdb h ++ List.map (fun u => targeted u e)
               (List.filter (fun u => negb (u =? UserID c)%N) us).
Proof.
  induction us as [|u us IH]; intros h Hup.
  - simpl. by rewrite app_nil_r.
  - unfold sendToOthers in *. cbn [fold_left List.filter].
    destruct (u =? UserID c)%N; simpl; [by apply IH|].
    destruct (SendToUser_up u e h Hup) as (Hr & Hup' & _).
    rewrite (IH _ Hup'), Hr. by rewrite <- app_assoc.
Qed.

(** X13.  A typing (or stop-typing) envelope whose payload decodes to a
    conversation is published, with the sender's id and name filled in,
    once for every member of the conversation other than the sender, in
    the order of the membership list; nothing is targeted at the sender,
    the store is not touched, and a failed membership lookup publishes
    nothing. *)
Theorem typing_goes_to_the_others client event db h conv :
  decode_struct ConversationPayload_set (Payload event) uuid.Nil = Some conv →
  rdb_up h = true →
  let others :=
    List.filter (fun u => negb (u =? UserID client)%N)
      (default [] (GetConversationMemberIDs conv db)) in
  let ev ty :=
    {| Type_ := ty;
       Payload := Marshal_TypingEvent
                    {| te_ConversationID := conv; te_UserID := UserID client;
                       te_Name := Name client |} |} in
  (UserID client ∉ others) ∧
  (let w' := handleTyping DB GetConversationMemberIDs client event (db, h) in
   fst w' = db ∧
   rdb (snd w') = rdb h ++ List.map (fun u => targeted u (ev WSEventTyping)) others) ∧
  (let w' := handleStopTyping DB GetConversationMemberIDs client event (db, h) in
   fst w' = db ∧
   rdb (snd w')
   = rdb h ++ List.map (fun u => targeted u (ev WSEventStopTyping)) others).
Proof.
  intros Hdec Hup others ev. split; [|split].
  - subst others. intros Hin%list_elem_of_In. apply filter_In in Hin as [_ Hne].
    by rewrite N.eqb_refl in Hne.
  - unfold handleTyping, handleTypingAs. rewrite Hdec. cbn [fst snd].
    split; [done|]. unfold membersOrNil. by rewrite sendToOthers_up.
  - unfold handleStopTyping, handleTypingAs. rewrite Hdec. cbn [fst snd].
    split; [done|]. unfold membersOrNil. by rewrite sendToOthers_up.
Qed.

(** X14.  A read receipt first marks the conversation read for the sender
    in the store, then looks the members up in the store so updated, and
    publishes the receipt (conversation, message and reader) once for
    every member other than the reader. *)
Theorem read_receipt_marks_then_notifies client event db h conv msgID :
  decode_struct ReadPayload_set (Payload event) (uuid.Nil, uuid.Nil)
  = Some (conv, msgID) →
  rdb_up h = true →
  let db' := MarkMessagesAsRead conv (UserID client) db in
  let others :=
    List.filter (fun u => negb (u =? UserID client)%N)
      (default [] (GetConversationMemberIDs conv db')) in
  let ev :=
    {| Type_ := WSEventMessageRead;
       Payload := Marshal_MessageReadEvent
                    {| mr_ConversationID := conv; mr_MessageID := msgID;
                       mr_UserID := UserID client |} |} in
  let w' := handleMessageRead DB GetConversationMemberIDs MarkMessagesAsRead
              client event (db, h) in
  fst w' = db' ∧
  rdb (snd w') = rdb h ++ List.map (fun u => targeted u ev) others ∧
  UserID client ∉ others.
Proof.
  intros Hdec Hup db' others ev w'. subst w'.
  unfold handleMessageRead. rewrite Hdec. cbn [fst snd].
  split; [done|]. split.
  - unfold membersOrNil. by rewrite sendToOthers_up.
  - subst others. intros Hin%list_elem_of_In. apply filter_In in Hin as [_ Hne].
    by rewrite N.eqb_refl in Hne.
Qed.

Lemma xvalue_lt c d : uuid.xvalue c = Some d → (d < 16)%N.
Proof.
  unfold uuid.xvalue.
  repeat (match goal with
          | |- context [(?a <=? ?b)%N] => destruct (N.leb_spec a b)
          end; cbn [andb]);
    intros [= <-]; lia.
Qed.

Lemma xvalues_lt cs : ∀ acc r,
  uuid.xvalues cs acc = Some r →
  (r < (acc + 1) * 16 ^ N.of_nat (List.length cs))%N.
Proof.
  induction cs as [|c cs IH]; intros acc r; cbn [uuid.xvalues List.length].
  - intros [= <-]. simpl. lia.
  - destruct (uuid.xvalue c) as [d|] eqn:Hd; [|done].
    intros Hr%IH. apply xvalue_lt in Hd.
    rewrite Nat2N.inj_succ, N.pow_succ_r'. nia.
Qed.

Lemma parse36_isUUID cs u : uuid.parse36 cs = Some u → isUUID u.
Proof.
  unfold uuid.parse36, isUUID.
  match goal with |- context [if ?b then _ else _] => destruct b end; [|done].
  intros Hr%xvalues_lt.
  eapply N.lt_le_trans; [exact Hr|].
  rewrite !length_app, !length_firstn, !length_skipn.
  change (2 ^ 128)%N with (16 ^ 32)%N. rewrite N.add_0_l, N.mul_1_l.
  apply N.pow_le_mono_r; lia.
Qed.

Lemma Parse_isUUID s u : uuid.Parse s = Some u → isUUID u.
Proof.
  unfold uuid.Parse.
  destruct (Nat.eqb_spec (List.length (list_ascii_of_string s)) 36) as [|_];
    [apply parse36_isUUID|].
  destruct (Nat.eqb_spec (List.length (list_ascii_of_string s)) (36 + 9)) as [|_].
  { destruct (uuid.urnPrefix _); [apply parse36_isUUID|done]. }
  destruct (Nat.eqb_spec (List.length (list_ascii_of_string s)) (36 + 2)) as [|_];
    [apply parse36_isUUID|].
  destruct (Nat.eqb_spec (List.length (list_ascii_of_string s)) 32) as [Hl|_];
    [|done].
  intros Hr%xvalues_lt. rewrite Hl in Hr. exact Hr.
Qed.

Lemma decode_call_untouched fs : ∀ t,
  lookup_field "to" fs = [] →
  decode_fields CallPayload_set fs t = Some t.
Proof.
  induction fs as [|[k v] fs IH]; intros t Hno; [done|].
  unfold lookup_field in Hno. cbn [List.filter fst List.map] in Hno.
  cbn [decode_fields]. unfold CallPayload_set at 1.
  destruct (field_match "to" k); [done|]. by apply IH.
Qed.

Lemma decode_call_target fs s b : ∀ t,
  lookup_field "to" fs = [JStr s] → uuid.Parse s = Some b →
  decode_fields CallPayload_set fs t = Some b.
Proof.
  induction fs as [|[k v] fs IH]; intros t Hto Hs; [done|].
  unfold lookup_field in Hto. cbn [List.filter fst] in Hto.
  cbn [decode_fields]. unfold CallPayload_set at 1.
  destruct (field_match "to" k).
  - cbn [List.map snd] in Hto. injection Hto as -> Hrest.
    cbn [uuid.decode]. rewrite Hs. by apply decode_call_untouched.
  - by apply IH.
Qed.

(** X15.  A call-signaling envelope whose payload names one target [to]
    is published once, as received, for that target alone; a subscriber
    hands it to the target's local connections only. *)
Theorem call_is_forwarded_to_its_target client event db h fs s b :
  isCallType (Type_ event) →
  Payload event = JObj fs → lookup_field "to" fs = [JStr s] →
  uuid.Parse s = Some b → b ≠ uuid.Nil →
  rdb_up h = true →
  let w' := dispatch client event (db, h) in
  fst w' = db ∧
  rdb (snd w') = rdb h ++ [targeted b event] ∧
  ∀ h2, onRedisMessage (Text (targeted b event)) h2
        = sendToLocalUser b (Some (viaBus event)) h2.
Proof.
  intros Hty Hp Hto Hs Hne Hup w'. subst w'.
  rewrite (dispatch_call DB Message Marshal_Message SendMessage
             GetConversationMemberIDs MarkMessagesAsRead) by done.
  unfold handleCallSignaling. rewrite Hp. cbn [decode_struct].
  rewrite (decode_call_target fs s b uuid.Nil Hto Hs). cbn [fst snd].
  split; [done|]. split.
  - by destruct (SendToUser_up b event h Hup) as (-> & _).
  - intros h2. apply onRedisMessage_targeted; [|done]. by apply (Parse_isUUID s).
Qed.

End DispatchMore.

Section DispatchScenarios.
Import Json model ws handler spec more.
Local Open Scope list_scope.

Lemma bus_down_drops_events_witness :
  rdb_up (NewHub false true) = false ∧
  snd (chatDispatch alice typingFromAlice (smallStore, NewHub false true))
  = NewHub false true.
Proof.
  split; [reflexivity|].
  exact (bus_down_drops_events memdb.DB service.Message service.Marshal_Message chatSend
           chatMembers chatMark alice typingFromAlice smallStore (NewHub false true)
           eq_refl).
Defined.

Lemma unknown_type_is_ignored_witness :
  (Type_ pingEnvelope ∉ knownTypes) ∧
  chatDispatch alice pingEnvelope (smallStore, bothOnline) = (smallStore, bothOnline).
Proof.
  assert (Type_ pingEnvelope ∉ knownTypes) as Hno.
  { unfold knownTypes. rewrite !elem_of_cons, elem_of_nil.
    intros [H|[H|[H|[H|[H|[H|[H|[H|[]]]]]]]]]; discriminate H. }
  split; [exact Hno|].
  exact (unknown_type_is_ignored memdb.DB service.Message service.Marshal_Message chatSend
           chatMembers chatMark alice pingEnvelope (smallStore, bothOnline) Hno).
Defined.

Lemma typing_goes_to_the_others_witness :
  (decode_struct ConversationPayload_set (Payload typingFromAlice) uuid.Nil
   = Some 5%N ∧ rdb_up bothOnline = true) ∧
  rdb (snd (handleTyping memdb.DB chatMembers alice typingFromAlice
              (smallStore, bothOnline)))
  = rdb bothOnline ++
    [targeted 8%N
       {| Type_ := WSEventTyping;
          Payload := Marshal_TypingEvent
                       {| te_ConversationID := 5%N; te_UserID := 7%N;
                          te_Name := "Alice" |} |}].
Proof.
  assert (decode_struct ConversationPayload_set (Payload typingFromAlice) uuid.Nil
          = Some 5%N) as Hdec by (vm_compute; reflexivity).
  split; [split; [exact Hdec|reflexivity]|].
  exact (proj2 (proj1 (proj2
    (typing_goes_to_the_others memdb.DB chatMembers alice typingFromAlice
       smallStore bothOnline 5%N Hdec eq_refl)))).
Defined.

Lemma read_receipt_marks_then_notifies_witness :
  (decode_struct ReadPayload_set (Payload readFromAlice) (uuid.Nil, uuid.Nil)
   = Some (5%N, 9%N) ∧ rdb_up bothOnline = true) ∧
  rdb (snd (handleMessageRead memdb.DB chatMembers chatMark alice
              readFromAlice (smallStore, bothOnline)))
  = rdb bothOnline ++
    [targeted 8%N
       {| Type_ := WSEventMessageRead;
          Payload := Marshal_MessageReadEvent
                       {| mr_ConversationID := 5%N; mr_MessageID := 9%N;
                          mr_UserID := 7%N |} |}].
Proof.
  assert (decode_struct ReadPayload_set (Payload readFromAlice)
            (uuid.Nil, uuid.Nil) = Some (5%N, 9%N)) as Hdec
    by (vm_compute; reflexivity).
  split; [split; [exact Hdec|reflexivity]|].
  exact (proj1 (proj2
    (read_receipt_marks_then_notifies memdb.DB chatMembers chatMark alice
       readFromAlice smallStore bothOnline 5%N 9%N Hdec eq_refl))).
Defined.

Lemma call_is_forwarded_to_its_target_witness :
  (isCallType (Type_ callToBob) ∧
   Payload callToBob = JObj [("to", uuid.MarshalJSON 8%N); ("sdp", JStr "v=0")] ∧
   lookup_field "to" [("to", uuid.MarshalJSON 8%N); ("sdp", JStr "v=0")]
   = [JStr (uuid.String 8%N)] ∧
   uuid.Parse (uuid.String 8%N) = Some 8%N ∧ 8%N ≠ uuid.Nil ∧
   rdb_up bothOnline = true) ∧
  rdb (snd (chatDispatch alice callToBob (smallStore, bothOnline)))
  = rdb bothOnline ++ [targeted 8%N callToBob].
Proof.
  assert (isCallType (Type_ callToBob)) as Hty by (left; reflexivity).
  assert (lookup_field "to" [("to", uuid.MarshalJSON 8%N); ("sdp", JStr "v=0")]
          = [JStr (uuid.String 8%N)]) as Hto by (vm_compute; reflexivity).
  assert (uuid.Parse (uuid.String 8%N) = Some 8%N) as Hs
    by (vm_compute; reflexivity).
  assert (8%N ≠ uuid.Nil) as Hne by discriminate.
  split; [repeat split; try assumption; reflexivity|].
  exact (proj1 (proj2
    (call_is_forwarded_to_its_target memdb.DB service.Message service.Marshal_Message chatSend
       chatMembers chatMark alice callToBob smallStore bothOnline _ _ 8%N
       Hty eq_refl Hto Hs Hne eq_refl))).
Defined.

End DispatchScenarios.

(* ===================================================================== *)
(** * The HTTP send path *)
(* ===================================================================== *)

Section HttpSend.
Import Json model ws spec more.
Local Open Scope list_scope.

Variable DB : Type.
Variable Request : Type.
Variable Message : Type.
Variable Marshal_Message : Message → json.
Variable SendMessage :
  uuid.UUID → uuid.UUID → Request → DB → service.outcome Message * DB.
Variable GetConversationMemberIDs : uuid.UUID → DB → option (list uuid.UUID).

#[local] Abbreviation post :=
  (chat.SendMessage_http DB Request Message Marshal_Message SendMessage
     GetConversationMemberIDs).

(** The HTTP handler over any service.  When the service returns a saved
    message the handler answers 201 with it and publishes it as a
    new_message event once for every member of the conversation other
    than the caller, in the order of the membership list; nothing is
    targeted at the caller. *)
Lemma http_handler_over_any_service idParam req userID db h convID msg db' :
  uuid.Parse idParam = Some convID →
  SendMessage userID convID req db = (service.Fine msg, db') →
  rdb_up h = true →
  let others :=
    List.filter (fun id => negb (id =? userID)%N)
      (default [] (GetConversationMemberIDs convID db')) in
  let ev := {| Type_ := WSEventNewMessage; Payload := Marshal_Message msg |} in
  let r := post idParam (service.Fine req) userID (db, h) in
  fst r = (chat.StatusCreated, Marshal_Message msg) ∧
  fst (snd r) = db' ∧
  rdb (snd (snd r)) = rdb h ++ List.map (fun u => targeted u ev) others ∧
  userID ∉ others.
Proof.
  intros Hid Hsave Hup others ev r. subst r.
  unfold chat.SendMessage_http. rewrite Hid. cbn [fst snd]. rewrite Hsave.
  cbn [fst snd]. split; [done|]. split; [done|]. split.
  - unfold chat.broadcastToOthers. subst others.
    destruct (GetConversationMemberIDs convID db') as [members|]; simpl;
      [|by rewrite app_nil_r].
    destruct (List.filter (fun id => negb (id =? userID)%N) members)
      as [|u us] eqn:Hf; simpl;
      [by rewrite app_nil_r|].
    destruct (SendToUsers_up (u :: us) ev h Hup) as (Hr & _). exact Hr.
  - subst others. intros Hin%list_elem_of_In. apply filter_In in Hin as [_ Hne].
    by rewrite N.eqb_refl in Hne.
Qed.

(** X17.  The HTTP send path answers 201 only when the conversation id
    parsed, the body bound and the service saved the message; in every
    other case it answers 400 and leaves the hub untouched, and the store
    too unless the service was called. *)
Theorem http_send_failure_publishes_nothing idParam bound userID db h :
  let r := post idParam bound userID (db, h) in
  (fst (fst r) = chat.StatusCreated ∧
   ∃ convID req msg,
     uuid.Parse idParam = Some convID ∧ bound = service.Fine req ∧
     fst (SendMessage userID convID req db) = service.Fine msg) ∨
  (fst (fst r) = chat.StatusBadRequest ∧ snd (snd r) = h ∧
   (fst (snd r) = db ∨
    ∃ convID req, uuid.Parse idParam = Some convID ∧ bound = service.Fine req ∧
                  fst (snd r) = snd (SendMessage userID convID req db))).
Proof.
  intros r. subst r. unfold chat.SendMessage_http.
  destruct (uuid.Parse idParam) as [convID|]; [|right; auto].
  destruct bound as [req|err]; [|right; auto]. cbn [fst snd].
  destruct (SendMessage userID convID req db) as [[msg|err] db'] eqn:Hs.
  - left. split; [done|]. exists convID, req, msg. by rewrite Hs.
  - right. split; [done|]. split; [done|]. right. exists convID, req.
    by rewrite Hs.
Qed.

End HttpSend.

(* ===================================================================== *)
(** * The handlers over the chat service of chat_service.go *)
(* ===================================================================== *)

Section Shipped.
Import Json model ws handler spec more.
Local Open Scope list_scope.

Variable DB : Type.
Variable IsMember : uuid.UUID → uuid.UUID → DB → service.outcome bool.
Variable CreateMessage :
  service.Message → DB → service.outcome service.Message * DB.
Variable CreateAttachment : service.MessageAttachment → DB → DB.
Variable TouchUpdatedAt : uuid.UUID → DB → DB.
Variable firstMessage : uuid.UUID → DB → service.found service.Message.
Variable loadRelation :
  string → service.Message → DB → service.outcome service.Message.
Variable GetConversationMemberIDs : uuid.UUID → DB → option (list uuid.UUID).
Variable MarkMessagesAsRead : uuid.UUID → uuid.UUID → DB → DB.
Variable Marshal_Message : service.Message → json.

Lemma Sender_isRelation :
  service.isRelation service.Message_relations "Sender" = true.
Proof. vm_compute. reflexivity. Qed.

Lemma Attachments_isRelation :
  service.isRelation service.Message_relations "Attachments" = false.
Proof. vm_compute. reflexivity. Qed.

(** [FindByID] preloads [Attachments], which is not a relation of
    [model.Message]: it never returns a message. *)
Lemma FindByID_fails id db :
  ∃ err, service.MessageRepository_FindByID DB firstMessage loadRelation id db
         = service.Failed err.
Proof.
  unfold service.MessageRepository_FindByID.
  destruct (firstMessage id db) as [row| |err]; [|by eexists..].
  cbn [service.preload]. rewrite Sender_isRelation.
  destruct (loadRelation "Sender" row db) as [row'|err]; [|by eexists].
  rewrite Attachments_isRelation. by eexists.
Qed.

#[local] Abbreviation chatService_SendMessage :=
  (server.SendMessage DB IsMember CreateMessage CreateAttachment TouchUpdatedAt
     firstMessage loadRelation).

Lemma SendMessage_fails senderID convID req db :
  ∃ err, fst (chatService_SendMessage senderID convID req db) = service.Failed err.
Proof.
  unfold server.SendMessage, service.SendMessage.
  destruct (IsMember convID senderID db) as [[|]|err]; [|by eexists..].
  destruct (CreateMessage _ db) as [[msg|err] db1]; [|by eexists].
  cbn [fst]. apply FindByID_fails.
Qed.

Lemma SendMessage_keeps_the_row senderID convID req db row db1 :
  IsMember convID senderID db = service.Fine true →
  CreateMessage (service.newMessage senderID convID req) db
  = (service.Fine row, db1) →
  snd (chatService_SendMessage senderID convID req db)
  = TouchUpdatedAt convID
      (fold_left
         (fun db att =>
            CreateAttachment (service.newAttachment (service.m_ID row) att) db)
         (service.sr_Attachments req) db1).
Proof.
  intros Hmem Hins. unfold server.SendMessage, service.SendMessage.
  rewrite Hmem, Hins. reflexivity.
Qed.

Lemma socketSend_fails senderID convID r db :
  fst (server.socketSend DB IsMember CreateMessage CreateAttachment
         TouchUpdatedAt firstMessage loadRelation senderID convID r db) = None.
Proof.
  unfold server.socketSend.
  destruct (SendMessage_fails senderID convID (server.socketRequest r) db)
    as [err Herr].
  destruct (chatService_SendMessage senderID convID (server.socketRequest r) db)
    as [[msg|err'] db']; [discriminate Herr|reflexivity].
Qed.

(** With the service as it is, no new_message envelope publishes
    anything, whatever the database does. *)
Lemma new_message_never_publishes client event db h :
  snd (server.handleNewMessage DB IsMember CreateMessage CreateAttachment
         TouchUpdatedAt firstMessage loadRelation GetConversationMemberIDs
         Marshal_Message client event (db, h)) = h.
Proof.
  unfold server.handleNewMessage, handleNewMessage.
  destruct (decode_struct NewMessagePayload_set (Payload event) _)
    as [payload|]; [|reflexivity].
  cbn [fst snd].
  match goal with
  | |- context [server.socketSend _ _ _ _ _ _ _ ?u ?c ?r ?d] =>
      pose proof (socketSend_fails u c r d) as Hnone;
      destruct (server.socketSend DB IsMember CreateMessage CreateAttachment
                  TouchUpdatedAt firstMessage loadRelation u c r d)
        as [[msg|] db']
  end; [discriminate Hnone|reflexivity].
Qed.

(** C1.  The dispatcher does call the message store first, and does
    publish nothing when the store reports a failure; but the store of
    chat_service.go reports a failure for every message, also for the
    ones it has saved.  For a new_message envelope from a member of the
    conversation whose row the database accepts, [SendMessage] inserts the
    row, bumps the conversation's [updated_at], and then fails in
    [FindByID], which preloads [Attachments], a relation that
    [model.Message] does not declare.  The dispatcher returns at
    [if err != nil]: the row stays in the database and the hub is left
    exactly as it was, so no member of the conversation is sent the
    message. *)
Theorem new_message_is_saved_but_not_published
  client event payload db h row db1 :
  Type_ event = WSEventNewMessage →
  decode_struct NewMessagePayload_set (Payload event)
    {| np_ConversationID := uuid.Nil; np_Content := ""; np_Type := "" |}
  = Some payload →
  IsMember (np_ConversationID payload) (UserID client) db = service.Fine true →
  CreateMessage
    (service.newMessage (UserID client) (np_ConversationID payload)
       (server.socketRequest
          {| Content := np_Content payload;
             MsgType := if String.eqb (np_Type payload) "" then MessageTypeText
                        else np_Type payload |})) db
  = (service.Fine row, db1) →
  server.handleWSMessage DB IsMember CreateMessage CreateAttachment
    TouchUpdatedAt firstMessage loadRelation GetConversationMemberIDs
    MarkMessagesAsRead Marshal_Message client event (db, h)
  = (TouchUpdatedAt (np_ConversationID payload) db1, h).
Proof.
  intros Hty Hdec Hmem Hins.
  unfold server.handleWSMessage, handleWSMessage. rewrite Hty.
  change (String.eqb WSEventNewMessage WSEventNewMessage) with true. cbv iota.
  pose proof (new_message_never_publishes client event db h) as Hh.
  unfold server.handleNewMessage in Hh.
  unfold handleNewMessage in *. rewrite Hdec in *. cbn [fst snd] in *.
  set (req := {| Content := np_Content payload;
                 MsgType := if String.eqb (np_Type payload) "" then MessageTypeText
                            else np_Type payload |}) in *.
  pose proof (socketSend_fails (UserID client) (np_ConversationID payload) req db)
    as Hnone.
  pose proof (SendMessage_keeps_the_row (UserID client)
                (np_ConversationID payload) (server.socketRequest req) db row db1
                Hmem Hins) as Hdb.
  cbn [service.sr_Attachments server.socketRequest fold_left] in Hdb.
  unfold server.socketSend in *.
  destruct (chatService_SendMessage (UserID client) (np_ConversationID payload)
              (server.socketRequest req) db) as [[msg|err] db'];
    [discriminate Hnone|].
  cbn [snd] in Hdb. by rewrite Hdb.
Qed.

(** X16.  The HTTP send path over the same service never answers 201 and
    never publishes: every request is answered 400 and leaves the hub as
    it was.  For a member whose row the database accepts, the row and its
    attachments stay inserted and the conversation's [updated_at] is
    bumped all the same: the failure comes from [FindByID] afterwards. *)
Theorem http_send_saves_but_answers_400 idParam bound userID db h :
  let r := server.SendMessage_http DB IsMember CreateMessage CreateAttachment
             TouchUpdatedAt firstMessage loadRelation GetConversationMemberIDs
             Marshal_Message idParam bound userID (db, h) in
  fst (fst r) = chat.StatusBadRequest ∧ snd (snd r) = h ∧
  ∀ convID req row db1,
    uuid.Parse idParam = Some convID → bound = service.Fine req →
    IsMember convID userID db = service.Fine true →
    CreateMessage (service.newMessage userID convID req) db
    = (service.Fine row, db1) →
    fst (snd r)
    = TouchUpdatedAt convID
        (fold_left
           (fun db att =>
              CreateAttachment (service.newAttachment (service.m_ID row) att) db)
           (service.sr_Attachments req) db1).
Proof.
  intros r. subst r. unfold server.SendMessage_http, chat.SendMessage_http.
  destruct (uuid.Parse idParam) as [convID|]; [|by repeat split].
  destruct bound as [req|err]; [|by repeat split]. cbn [fst snd].
  destruct (SendMessage_fails userID convID req db) as [err Herr].
  pose proof (SendMessage_keeps_the_row userID convID req db) as Hdb.
  destruct (chatService_SendMessage userID convID req db) as [[msg|err'] db'];
    [discriminate Herr|].
  cbn [fst snd] in *. split; [done|]. split; [done|].
  intros convID' req' row db1 [= <-] [= <-] Hmem Hins.
  exact (Hdb row db1 Hmem Hins).
Qed.

End Shipped.

Section ShippedScenarios.
Import Json model ws handler spec more.
Local Open Scope list_scope.

Lemma new_message_is_saved_but_not_published_witness :
  (Type_ newMessageFromAlice = WSEventNewMessage ∧
   decode_struct NewMessagePayload_set (Payload newMessageFromAlice)
     {| np_ConversationID := uuid.Nil; np_Content := ""; np_Type := "" |}
   = Some {| np_ConversationID := 5%N; np_Content := "hi"; np_Type := "" |} ∧
   memdb.IsMember 5%N (UserID alice) smallStore = service.Fine true ∧
   memdb.CreateMessage
     (service.newMessage (UserID alice) 5%N
        (server.socketRequest {| Content := "hi"; MsgType := MessageTypeText |}))
     smallStore
   = (service.Fine aliceRow,
      {| memdb.messages := [aliceRow];
         memdb.message_attachments := [];
         memdb.conversation_members := [(5%N, 7%N); (5%N, 8%N)];
         memdb.touched := [];
         memdb.marked := [] |})) ∧
  chatDispatch alice newMessageFromAlice (smallStore, bothOnline)
  = ({| memdb.messages := [aliceRow];
        memdb.message_attachments := [];
        memdb.conversation_members := [(5%N, 7%N); (5%N, 8%N)];
        memdb.touched := [5%N];
        memdb.marked := [] |}, bothOnline).
Proof.
  assert (decode_struct NewMessagePayload_set (Payload newMessageFromAlice)
            {| np_ConversationID := uuid.Nil; np_Content := ""; np_Type := "" |}
          = Some {| np_ConversationID := 5%N; np_Content := "hi"; np_Type := "" |})
    as Hdec by (vm_compute; reflexivity).
  split; [split; [reflexivity|split; [exact Hdec|split; reflexivity]]|].
  exact (new_message_is_saved_but_not_published memdb.DB memdb.IsMember
           memdb.CreateMessage memdb.CreateAttachment memdb.TouchUpdatedAt
           memdb.firstMessage memdb.loadRelation chatMembers chatMark
           service.Marshal_Message alice newMessageFromAlice
           {| np_ConversationID := 5%N; np_Content := "hi"; np_Type := "" |}
           smallStore bothOnline aliceRow _ eq_refl Hdec eq_refl eq_refl).
Defined.

(** The same envelope through the read pump and the subscriber: the row
    is in the database, nothing was published, and neither Bob's queue
    nor Alice's holds anything. *)
Example new_message_never_arrives :
  ∃ h, newMessageScenario
       = ({| memdb.messages := [aliceRow];
             memdb.message_attachments := [];
             memdb.conversation_members := [(5%N, 7%N); (5%N, 8%N)];
             memdb.touched := [5%N];
             memdb.marked := [] |}, Ok h) ∧
       rdb h = rdb bothOnline ∧
       buf (chan_of h (addr bob)) = [] ∧ buf (chan_of h (addr alice)) = [].
Proof.
  eexists. split; [vm_compute; reflexivity|].
  split; [|split]; vm_compute; reflexivity.
Qed.

Lemma http_send_saves_but_answers_400_witness :
  let r := server.SendMessage_http memdb.DB memdb.IsMember memdb.CreateMessage
             memdb.CreateAttachment memdb.TouchUpdatedAt memdb.firstMessage
             memdb.loadRelation chatMembers service.Marshal_Message
             (uuid.String 5%N) (service.Fine aliceUpload) 7%N
             (smallStore, bothOnline) in
  fst (fst r) = 400 ∧ snd (snd r) = bothOnline ∧
  List.map service.m_Type (memdb.messages (fst (snd r))) = ["image"] ∧
  List.length (memdb.message_attachments (fst (snd r))) = 1.
Proof.
  destruct (http_send_saves_but_answers_400 memdb.DB memdb.IsMember
              memdb.CreateMessage memdb.CreateAttachment memdb.TouchUpdatedAt
              memdb.firstMessage memdb.loadRelation chatMembers
              service.Marshal_Message (uuid.String 5%N)
              (service.Fine aliceUpload) 7%N smallStore bothOnline)
    as (Hst & Hhub & Hdb).
  cbv zeta. split; [exact Hst|]. split; [exact Hhub|].
  rewrite (Hdb 5%N aliceUpload _ _ ltac:(vm_compute; reflexivity) eq_refl
             eq_refl eq_refl).
  split; vm_compute; reflexivity.
Defined.

End ShippedScenarios.

(* ===================================================================== *)
(** * The pumps: further properties *)
(* ===================================================================== *)

Section PumpsMore.
Import Json model ws spec more.
Local Open Scope list_scope.






Lemma readLoop_handler_free {S : Type} (f : MessageHandler S) c ins :
  ∀ conn (s1 s2 : S) log,
  let r0 := readLoop None c ins conn s1 log in
  let r := readLoop (Some f) c ins conn s2 log in
  rs_app r0 = s1 ∧ rs_conn r0 = rs_conn r ∧ rs_log r0 = rs_log r ∧
  rs_status r0 = rs_status r.
Proof.
  induction ins as [|i ins IH]; intros conn s1 s2 log; [done|].
  cbn [readLoop]. destruct (readDeadline conn <? arrival i)%Z; [done|].
  destruct i as [t|t size data|t]; [apply IH| |done].
  destruct (readLimit conn <? size)%Z; [done|].
  destruct (Unmarshal_WSEvent data); apply IH.
Qed.

(** X20.  The handler is optional and plays no part in reading: with no
    handler installed the read pump reads the same frames, keeps the same
    deadline, logs the same undecodable frames and ends in the same way
    as with any handler [f]; the application state is the only
    difference, and without a handler it stays as it was. *)
Theorem readPump_without_handler
  {S : Type} (f : MessageHandler S) c start conn0 ins (s : S) :
  let r0 := ReadPump None c start conn0 ins s in
  let r := ReadPump (Some f) c start conn0 ins s in
  rs_app r0 = s ∧ rs_conn r0 = rs_conn r ∧ rs_log r0 = rs_log r ∧
  rs_status r0 = rs_status r.
Proof. unfold ReadPump. apply readLoop_handler_free. Qed.

Lemma writeStep_returned a st :
  ws_pc st = Returned →
  ws_pc (writeStep a st) = Returned ∧ ws_wire (writeStep a st) = ws_wire st.
Proof.
  intros Hpc. destruct st as [ch pc wire]. simpl in Hpc. subst pc.
  destruct a as [m| |ok|ok]; unfold writeStep, pumpStep; simpl; try done.
  by destruct (negb (closed ch) && (List.length (buf ch) <? sendCap)%nat).
Qed.

Lemma WritePump_returned acts : ∀ st hist,
  ws_pc st = Returned →
  ws_pc (fst (WritePump acts (st, hist))) = Returned ∧
  ws_wire (fst (WritePump acts (st, hist))) = ws_wire st.
Proof.
  induction acts as [|a acts IH]; intros st hist Hpc; [done|].
  rewrite WritePump_cons. unfold writeStepH. cbn [fst snd].
  destruct (writeStep_returned a st Hpc) as [Hpc' Hw].
  destruct (IH (writeStep a st)
              (match a with
               | Enqueue m =>
                   if negb (closed (ws_send st))
                      && (List.length (buf (ws_send st)) <? sendCap)%nat
                   then hist ++ [m] else hist
               | _ => hist
               end) Hpc') as [H1 H2].
  split; [exact H1|]. by rewrite H2.
Qed.

Lemma endsPump_returns a st :
  endsPump a st = true →
  ws_pc (writeStep a st) = Returned ∧
  ws_wire (writeStep a st) = ws_wire st ++ lastFrames a st.
Proof.
  destruct st as [ch pc wire]. unfold endsPump, lastFrames, writeStep, pumpStep.
  cbn [ws_pc ws_send ws_wire].
  destruct a as [m| |[|]|[|]]; try done; destruct pc as [|w|w [|n]|]; try done;
    cbn [ws_pc ws_wire]; rewrite ?app_nil_r; try done;
    destruct (buf ch) as [|m q]; try done; cbn [negb];
    destruct (closed ch); rewrite ?app_nil_r; done.
Qed.

Lemma returns_only_when_ended a st :
  ws_pc st ≠ Returned → ws_pc (writeStep a st) = Returned → endsPump a st = true.
Proof.
  destruct st as [ch pc wire]. unfold endsPump, writeStep, pumpStep.
  cbn [ws_pc ws_send ws_wire]. intros Hpc.
  destruct a as [m| |[|]|[|]]; destruct pc as [|w|w [|n]|]; try done;
    cbn [ws_pc]; try done;
    repeat match goal with
           | |- context [if ?b then _ else _] => destruct b; cbn [ws_pc]
           | |- context [match buf ?c with _ => _ end] =>
               destruct (buf c); cbn [ws_pc]
           end; done.
Qed.

(** X21.  The write pump returns on a write the connection refuses (a
    ping, the opening of a frame, or its closing) and on the close message
    it sends once its queue is closed and empty, and on nothing else.
    From then on nothing more reaches the wire, whatever is enqueued or
    ticks afterwards: the wire of the whole run is the wire at that move,
    plus the close message when that is what was written. *)
Theorem writePump_returned_is_final pre a post :
  let st := fst (WritePump pre (writeStart, [])) in
  let fin := fst (WritePump (pre ++ a :: post) (writeStart, [])) in
  (ws_pc st ≠ Returned → ws_pc (writeStep a st) = Returned →
   endsPump a st = true) ∧
  (endsPump a st = true →
   ws_pc fin = Returned ∧ ws_wire fin = ws_wire st ++ lastFrames a st).
Proof.
  intros st fin. split; [apply returns_only_when_ended|].
  intros Hend. subst st fin.
  unfold WritePump at 1 2. rewrite fold_left_app.
  fold (WritePump pre (writeStart, [])).
  destruct (WritePump pre (writeStart, [])) as [st0 hist].
  cbn [fst] in Hend. cbn [fst fold_left].
  fold (WritePump post (writeStepH a (st0, hist))).
  unfold writeStepH. cbn [fst snd].
  destruct (endsPump_returns a st0 Hend) as [Hpc Hw].
  match goal with
  | |- context [WritePump post (_, ?h)] =>
      destruct (WritePump_returned post (writeStep a st0) h Hpc) as [H1 H2]
  end.
  split; [exact H1|]. rewrite H2. exact Hw.
Qed.

Lemma writePump_returned_is_final_witness :
  endsPump (Tick false)
    (fst (WritePump [Enqueue "e1"; Step true; Step true; Step true]
            (writeStart, []))) = true ∧
  ws_wire (fst (WritePump ([Enqueue "e1"; Step true; Step true; Step true]
                           ++ Tick false
                           :: [Enqueue "e2"; Step true; Tick true; Step true])
                  (writeStart, [])))
  = [TextMessage "e1"].
Proof.
  assert (endsPump (Tick false)
            (fst (WritePump [Enqueue "e1"; Step true; Step true; Step true]
                    (writeStart, []))) = true) as Hend by (vm_compute; reflexivity).
  split; [exact Hend|].
  destruct (writePump_returned_is_final
              [Enqueue "e1"; Step true; Step true; Step true] (Tick false)
              [Enqueue "e2"; Step true; Tick true; Step true]) as [_ Hfin].
  destruct (Hfin Hend) as [_ Hw]. rewrite Hw. vm_compute. reflexivity.
Defined.

(** X22.  When the hub closes a connection's queue, the write pump, once
    at its select, writes what is still queued as one frame, then the
    close message, and returns; with nothing queued it writes the close
    message at once. *)
Theorem closed_queue_stops_writePump wire hist :
  fst (WritePump [Step true]
         ({| ws_send := {| buf := []; closed := true |};
             ws_pc := Select; ws_wire := wire |}, hist))
  = {| ws_send := {| buf := []; closed := true |}; ws_pc := Returned;
       ws_wire := wire ++ [CloseMessage] |} ∧
  ∀ m q,
    fst (WritePump (repeat (Step true) (3 + List.length q) ++ [Step true])
           ({| ws_send := {| buf := m :: q; closed := true |};
               ws_pc := Select; ws_wire := wire |}, hist))
    = {| ws_send := {| buf := []; closed := true |}; ws_pc := Returned;
         ws_wire := wire ++ [TextMessage (coalesce m q); CloseMessage] |}.
Proof.
  split; [reflexivity|]. intros m q.
  unfold WritePump. rewrite fold_left_app.
  pose proof (writePump_flushes m q true wire hist) as Hflush.
  unfold WritePump in Hflush.
  destruct (fold_left _ (repeat (Step true) (3 + List.length q)) _)
    as [st hist'] eqn:Hrun.
  simpl in Hflush. subst st. simpl. unfold pumpStep; simpl.
  by rewrite <- app_assoc.
Qed.

Lemma sameData_step a st1 st2 :
  sameData st1 st2 → sameData (writeStep a st1) (writeStep a st2).
Proof.
  intros (Hs & Hp & Hw).
  destruct st1 as [ch1 pc1 w1], st2 as [ch2 pc2 w2]. simpl in *. subst ch2 pc2.
  destruct a as [m| |ok|ok]; unfold writeStep, pumpStep; simpl.
  - by destruct (negb (closed ch1) && (List.length (buf ch1) <? sendCap)%nat).
  - done.
  - destruct pc1; try done. destruct ok; [|done].
    repeat split; simpl. rewrite !textFrames_app. simpl. by rewrite Hw.
  - destruct pc1 as [|w|w [|n]|]; simpl; try done.
    + destruct (buf ch1) as [|m q]; [|by destruct ok].
      destruct (closed ch1); [|done]. repeat split; simpl.
      destruct ok; [|done]. rewrite !textFrames_app. simpl. by rewrite Hw.
    + destruct ok; [|done]. repeat split; simpl.
      rewrite !textFrames_app. simpl. by rewrite Hw.
    + destruct (buf ch1) as [|m q]; [|done]. by destruct (closed ch1).
Qed.

Lemma sameData_tick st1 st2 :
  sameData st1 st2 → sameData (writeStep (Tick true) st1) st2.
Proof.
  intros (Hs & Hp & Hw). destruct st1 as [ch1 pc1 w1]. simpl in *.
  unfold writeStep. simpl.
  destruct pc1; (split; [|split]); simpl; try done.
  rewrite textFrames_app. simpl. by rewrite app_nil_r.
Qed.

Lemma sameData_run acts : ∀ st1 st2 h1 h2,
  sameData st1 st2 → h1 = h2 →
  sameData (fst (WritePump acts (st1, h1)))
           (fst (WritePump (withoutTicks acts) (st2, h2))) ∧
  snd (WritePump acts (st1, h1)) = snd (WritePump (withoutTicks acts) (st2, h2)).
Proof.
  induction acts as [|a acts IH]; intros st1 st2 h1 h2 Hsame <-; [done|].
  rewrite WritePump_cons. unfold withoutTicks. cbn [List.filter].
  destruct (isTick a) eqn:Ht; cbn [negb].
  - destruct a as [| |[|]|]; try discriminate Ht.
    apply IH; [|done]. by apply sameData_tick.
  - rewrite WritePump_cons. apply IH.
    + by apply sameData_step.
    + unfold writeStepH. cbn [fst snd]. destruct a; try done.
      destruct Hsame as (-> & _). done.
Qed.

(** X23.  Heartbeats do not disturb the data: under any schedule, the
    text frames on the wire, the queue and the events taken by the queue
    are the same as under the schedule with its successful ticks taken
    out. *)
Theorem pings_do_not_disturb_data acts :
  let a := WritePump acts (writeStart, []) in
  let b := WritePump (withoutTicks acts) (writeStart, []) in
  textFrames (ws_wire (fst a)) = textFrames (ws_wire (fst b)) ∧
  ws_send (fst a) = ws_send (fst b) ∧
  snd a = snd b.
Proof.
  intros a b.
  destruct (sameData_run acts writeStart writeStart [] []) as [(Hs & _ & Hw) Hh];
    [done|done|].
  done.
Qed.

End PumpsMore.

(* ===================================================================== *)
(** * The chat service *)
(* ===================================================================== *)

Section ServiceFacts.
Import service.
Local Open Scope list_scope.

Variable DB : Type.
Variable Stored : Type.
Variable Messages : Type.
Variable IsMember : uuid.UUID → uuid.UUID → DB → outcome bool.
Variable GetConversationMessages :
  uuid.UUID → option uuid.UUID → Z → DB → outcome Messages.
Variable FindPrivateConversation : uuid.UUID → uuid.UUID → DB → found Stored.
Variable Create : Conversation → DB → outcome uuid.UUID * DB.
Variable FindByID : uuid.UUID → DB → outcome Stored.

(** X24.  [GetMessages] queries the repository only for a member of the
    conversation, and always with a page size between 1 and 100: the
    requested one when it is in that range, 50 otherwise. *)
Theorem GetMessages_page_size convID userID before limit db :
  ∃ size : Z,
    (1 <= size <= 100)%Z ∧
    ((1 <= limit <= 100)%Z → size = limit) ∧
    (¬ (1 <= limit <= 100)%Z → size = 50%Z) ∧
    GetMessages DB Messages IsMember GetConversationMessages
      convID userID before limit db
    = match IsMember convID userID db with
      | Fine true => GetConversationMessages convID before size db
      | Fine false => Failed notAMember
      | Failed err => Failed err
      end.
Proof.
  unfold GetMessages.
  destruct (Z.leb_spec limit 0), (Z.ltb_spec 100 limit); cbn [orb];
    [exists 50%Z|exists 50%Z|exists 50%Z|exists limit];
    (split; [lia|]); (split; [lia|]); (split; [lia|]);
    by destruct (IsMember convID userID db) as [[]|].
Qed.

Lemma newMembers_fold creator ids : ∀ acc,
  fold_left
    (fun members memberID =>
       if N.eqb memberID creator then members
       else members ++ [{| cm_UserID := memberID; cm_Role := MemberRoleMember |}])
    ids acc
  = acc ++ List.map (fun u => {| cm_UserID := u; cm_Role := MemberRoleMember |})
             (List.filter (fun u => negb (u =? creator)%N) ids).
Proof.
  induction ids as [|u ids IH]; intros acc; cbn [fold_left List.filter].
  - simpl. by rewrite app_nil_r.
  - rewrite IH. destruct (u =? creator)%N; simpl; [done|].
    by rewrite <- app_assoc.
Qed.

(** X25.  The member list of a new conversation has the creator first,
    as admin, and exactly once, even when the request lists the creator
    too; the other requested ids follow in the order of the request, as
    plain members. *)
Theorem newMembers_creator_once creator ids :
  newMembers creator ids
  = {| cm_UserID := creator; cm_Role := MemberRoleAdmin |}
    :: List.map (fun u => {| cm_UserID := u; cm_Role := MemberRoleMember |})
         (List.filter (fun u => negb (u =? creator)%N) ids) ∧
  count_occ N.eq_dec (List.map cm_UserID (newMembers creator ids)) creator = 1.
Proof.
  unfold newMembers. rewrite newMembers_fold. split; [done|].
  cbn [app List.map cm_UserID count_occ].
  destruct (N.eq_dec creator creator) as [_|Hne]; [|done]. f_equal.
  apply count_occ_not_In. rewrite map_map. cbn [cm_UserID].
  rewrite map_id. intros Hin%filter_In. destruct Hin as [_ Hne].
  by rewrite N.eqb_refl in Hne.
Qed.

(** X26.  [CreateConversation] writes to the store only by creating the
    conversation built from the request; a private conversation asked
    for with any number of partners other than one is refused before any
    repository is consulted, and an existing private conversation is
    returned without writing. *)
Theorem CreateConversation_writes_once creator req db :
  let r := CreateConversation DB Stored FindPrivateConversation Create FindByID
             creator req db in
  (snd r = db ∨ snd r = snd (Create (newConversation creator req) db)) ∧
  (r_Type req = ConversationTypePrivate → List.length (r_MemberIDs req) ≠ 1 →
   r = (Failed "private conversation requires exactly 1 other member", db)) ∧
  (∀ partner existing,
     r_Type req = ConversationTypePrivate → r_MemberIDs req = [partner] →
     FindPrivateConversation creator partner db = Found existing →
     r = (Fine existing, db)).
Proof.
  intros r. subst r. unfold CreateConversation, createNew. split; [|split].
  - destruct (String.eqb _ _).
    + destruct (r_MemberIDs req) as [|p [|q l]]; [by left| |by left].
      destruct (FindPrivateConversation creator p db); [by left| |by left].
      right. by destruct (Create _ db) as [[]].
    + right. by destruct (Create _ db) as [[]].
  - intros -> Hlen. cbn. destruct (r_MemberIDs req) as [|p [|q l]]; done.
  - intros partner existing -> -> Hf. cbn. by rewrite Hf.
Qed.

End ServiceFacts.

(* ===================================================================== *)
(** * New-message payloads at the edges *)
(* ===================================================================== *)

Section NewMessageEdges.
Import Json model ws handler spec more.
Local Open Scope list_scope.

Variable DB : Type.
Variable Message : Type.
Variable Marshal_Message : Message → json.
Variable SendMessage :
  uuid.UUID → uuid.UUID → SendMessageRequest → DB → option Message * DB.
Variable GetConversationMemberIDs : uuid.UUID → DB → option (list uuid.UUID).

#[local] Abbreviation newMessage :=
  (handleNewMessage DB Message Marshal_Message SendMessage
     GetConversationMemberIDs).

Lemma decode_fields_unmatched fs : ∀ p,
  Forall (fun kv => field_match "conversation_id" (fst kv) = false ∧
                    field_match "content" (fst kv) = false ∧
                    field_match "type" (fst kv) = false) fs →
  decode_fields NewMessagePayload_set fs p = Some p.
Proof.
  intros p Hall. revert p.
  induction Hall as [|[k v] fs (H1 & H2 & H3) _ IH]; intros p; [done|].
  cbn [decode_fields]. unfold NewMessagePayload_set at 1. cbn [fst] in *.
  rewrite H1, H2, H3. apply IH.
Qed.

(** X27.  A new_message envelope whose payload object carries none of
    conversation_id, content and type is not dropped: the dispatcher asks
    the store to save an empty text message for the nil conversation, and
    leaves the store as that call left it. *)
Theorem new_message_without_fields_reaches_store client event db h fs :
  Payload event = JObj fs →
  Forall (fun kv => field_match "conversation_id" (fst kv) = false ∧
                    field_match "content" (fst kv) = false ∧
                    field_match "type" (fst kv) = false) fs →
  let saved := SendMessage (UserID client) uuid.Nil
                 {| Content := ""; MsgType := MessageTypeText |} db in
  fst (newMessage client event (db, h)) = snd saved ∧
  (fst saved = None → snd (newMessage client event (db, h)) = h).
Proof.
  intros Hp Hall saved. unfold handleNewMessage. rewrite Hp.
  cbn [decode_struct]. rewrite (decode_fields_unmatched fs _ Hall).
  cbn [np_Type np_Content np_ConversationID String.eqb fst snd]. fold saved.
  destruct saved as [[msg|] db']; cbn [fst snd].
  - split; [|done]. by destruct (GetConversationMemberIDs uuid.Nil db').
  - done.
Qed.



End NewMessageEdges.

Section NewMessageScenarios.
Import Json model ws handler spec more.
Local Open Scope list_scope.

Lemma new_message_without_fields_reaches_store_witness :
  (Payload pingAsNewMessage = JObj [("text", JStr "hi")] ∧
   Forall (fun kv => field_match "conversation_id" (fst kv) = false ∧
                     field_match "content" (fst kv) = false ∧
                     field_match "type" (fst kv) = false)
     [("text", JStr "hi")]) ∧
  handleNewMessage memdb.DB service.Message service.Marshal_Message chatSend
    chatMembers alice
    pingAsNewMessage (smallStore, bothOnline) = (smallStore, bothOnline).
Proof.
  assert (Forall (fun kv => field_match "conversation_id" (fst kv) = false ∧
                            field_match "content" (fst kv) = false ∧
                            field_match "type" (fst kv) = false)
            [("text", JStr "hi")]) as Hall.
  { repeat constructor; vm_compute; reflexivity. }
  split; [split; [reflexivity|exact Hall]|].
  destruct (new_message_without_fields_reaches_store memdb.DB
              service.Message service.Marshal_Message chatSend chatMembers
              alice pingAsNewMessage smallStore
              bothOnline _ eq_refl Hall) as [Hdb Hh].
  destruct (handleNewMessage _ _ _ _ _ _ _ _) as [db' h'].
  cbn [fst snd] in *. rewrite Hdb, Hh; reflexivity.
Defined.


End NewMessageScenarios.
